(** * Verification of the bridge-and-deploy fleet runner (src/main.py)

    The three functions of [src/main.py] -- [bridge_to_scroll],
    [deploy_random_contract] and [main] -- are embedded as computations of a
    small monad over the history of external interactions: every RPC call,
    contract call, signing request, log line and sleep is an event of the
    history, and the answers of the outside world come from an oracle that
    may depend on the whole history so far. *)

From Stdlib Require Import ZArith QArith Qround Qabs Qpower Qfield.
From Stdlib Require Import List String Ascii Bool Lia Lqa Arith.
From Stdlib Require Import Strings.Byte Strings.HexString.
Import ListNotations.

Local Open Scope string_scope.
Local Open Scope list_scope.
Local Open Scope Z_scope.

(** ** Exceptions and results *)

(** A Python exception: its class name and [str(e)]. *)
Record exn : Type := mkExn { exn_type : string; exn_str : string }.

(** The answer of a call that may raise. *)
Inductive result (A : Type) : Type :=
| Ok (a : A)
| Err (e : exn).
Arguments Ok {A} a.
Arguments Err {A} e.

(** ** Python string operations used by the source *)

Module PyStr.

(** [s[n:]] *)
Fixpoint drop (n : nat) (s : string) : string :=
  match n, s with
  | O, _ => s
  | S _, EmptyString => EmptyString
  | S n', String _ s' => drop n' s'
  end.

(** [c * n] *)
Fixpoint replicate (n : nat) (c : ascii) : string :=
  match n with
  | O => EmptyString
  | S n' => String c (replicate n' c)
  end.

(** [s.rjust(width, fill)]: pads on the left, never shortens. *)
Definition rjust (width : nat) (fill : ascii) (s : string) : string :=
  (replicate (width - String.length s) fill ++ s)%string.

(** [needle in hay] *)
Fixpoint contains (needle hay : string) : bool :=
  if String.prefix needle hay then true
  else match hay with
       | EmptyString => false
       | String _ hay' => contains needle hay'
       end.

(** [hex(n)]: Python prints ['0x'] and lower-case digits without leading
    zeros, ['-0x..'] for a negative number; the Standard Library's
    [HexString.of_Z] has the same format. *)
Definition hex (n : Z) : string := HexString.of_Z n.

Definition is_hex_digit (c : ascii) : bool :=
  match HexString.ascii_to_digit c with Some _ => true | None => false end.

Fixpoint all_hex (s : string) : bool :=
  match s with
  | EmptyString => true
  | String c s' => is_hex_digit c && all_hex s'
  end.

End PyStr.

(** ** HexBytes *)

Module HexBytes.

Definition byte_of_digits (hi lo : ascii) : option byte :=
  match HexString.ascii_to_digit hi, HexString.ascii_to_digit lo with
  | Some h, Some l => Byte.of_N (16 * h + l)
  | _, _ => None
  end.

(** [binascii.unhexlify]: two hexadecimal digits per byte. *)
Fixpoint unhexlify (s : string) : result (list byte) :=
  match s with
  | EmptyString => Ok []
  | String _ EmptyString => Err (mkExn "binascii.Error" "Odd-length string")
  | String hi (String lo rest) =>
      match byte_of_digits hi lo with
      | None => Err (mkExn "binascii.Error" "Non-hexadecimal digit found")
      | Some b =>
          match unhexlify rest with
          | Ok bs => Ok (b :: bs)
          | Err e => Err e
          end
      end
  end.

Definition has_0x_prefix (s : string) : bool :=
  String.prefix "0x" s || String.prefix "0X" s.

(** [HexBytes(hexstr)] on a [str]: an optional ['0x'] is stripped, a string
    of odd length is padded on the left with one ['0'], and the digits are
    converted pairwise. *)
Definition of_hexstr (hexstr : string) : result (list byte) :=
  let non_prefixed_hex :=
    if has_0x_prefix hexstr then PyStr.drop 2 hexstr else hexstr in
  let padded_hex :=
    if Nat.odd (String.length hexstr)
    then String "0" non_prefixed_hex
    else non_prefixed_hex in
  unhexlify padded_hex.

End HexBytes.

(** ** PayloadCodec: the adapter parameters of [bridge_to_scroll]
    (src/main.py, lines 51-56) *)

Definition adapter_params_hex (amount_in_wei : Z) (address : string) : string :=
  ("000200000000000000000000000000000000000000000000000000000000000" ++
   "30d40000000000000000000000000000000000000000000000000000" ++
   PyStr.rjust 13 "0" (PyStr.drop 2 (PyStr.hex amount_in_wei)) ++
   PyStr.drop 2 address)%string.

Definition encode_adapter_params (amount_in_wei : Z) (address : string)
  : result (list byte) :=
  HexBytes.of_hexstr (adapter_params_hex amount_in_wei address).

(** A checksummed account address: ['0x'] and forty hexadecimal digits. *)
Definition well_formed_address (address : string) : Prop :=
  String.length address = 42%nat /\
  PyStr.all_hex (PyStr.drop 2 address) = true.

(** ** Data model *)

(** The fee fields merged into a transaction ([**suggested_fee], or the
    ['gasPrice'] entry): a legacy gas price or a max-fee / priority-fee pair. *)
Inductive fee_quote : Type :=
| LegacyFee (gasPrice : Z)
| DynamicFee (maxFeePerGas maxPriorityFeePerGas : Z).

(** What a transaction calls: the bridge contract's [bridgeGas], or a contract
    constructor. *)
Inductive tx_call : Type :=
| BridgeGas (contract : string) (destination_chain_id : Z)
            (refund_address : string) (adapter_params : list byte)
| Constructor (abi bytecode : string).

(** The transaction dictionary handed to [build_transaction]. *)
Record txn : Type := mkTxn {
  tx_chainId : Z;
  tx_nonce : Z;
  tx_from : string;
  tx_gas : Z;
  tx_fee : fee_quote;
  tx_value : Z;
  tx_call_of : tx_call
}.

(** [txn['gas'] = g] *)
Definition set_gas (t : txn) (g : Z) : txn :=
  mkTxn (tx_chainId t) (tx_nonce t) (tx_from t) g (tx_fee t) (tx_value t)
        (tx_call_of t).

Record receipt : Type := mkReceipt {
  status : Z;
  contractAddress : string
}.

(** [receipt and receipt['status'] == 1] *)
Definition receipt_succeeded (r : option receipt) : bool :=
  match r with
  | Some rc => status rc =? 1
  | None => false
  end.

(** [Config]: the options [main.py] reads.  A numeric option ([int] or
    [float] in the configuration) is given by its exact value; Python
    compares a float with an int or a float by value. *)
Record Config : Type := mkConfig {
  scroll_rpc_url : string;
  scroll_explorer_url : string;
  eth_rpc_url : string;
  arbitrum_rpc_url : string;
  arbitrum_explorer_url : string;
  max_gwei : Q;
  bridge_amount : Q;
  min_length : Z;
  max_length : Z;
  min_sleep_time : Z;
  max_sleep_time : Z
}.

(** A Python [dict] with string keys: assignment replaces the value of a key
    that is present and appends a new key otherwise. *)
Module Dict.
Section WithValue.
Context {V : Type}.

Definition t : Type := list (string * V).

Fixpoint get (d : t) (k : string) : option V :=
    match d with
    | [] => None
    | (k', v) :: d' => if String.eqb k k' then Some v else get d' k
    end.

Fixpoint set (d : t) (k : string) (v : V) : t :=
    match d with
    | [] => [(k, v)]
    | (k', v') :: d' =>
        if String.eqb k k' then (k, v) :: d' else (k', v') :: set d' k v
    end.
End WithValue.
Arguments t V : clear implicits.
End Dict.

(** The output of [compile_source]: per contract key, its ABI and bytecode. *)
Definition compiled : Type := Dict.t (string * string).

(** ** Log lines *)

Inductive level : Type := INFO | WARNING | ERROR.

(** One constructor per [logger] call of the source, with the values it
    formats. *)
Inductive message : Type :=
| MsgBridging (amount : Q) (address : string)
| MsgInsufficientFundsBridge (address : string)
| MsgEstimateGasFailed (e : exn)
| MsgTransaction (explorer_url txn_hash : string)
| MsgBridged (amount : Q) (address : string)
| MsgBridgeFailed (address : string)
| MsgDeploying (address : string)
| MsgGasPriceFailed (e : exn)
| MsgGasPriceTooHigh
| MsgWaitingBridge
| MsgBalanceFailed (e : exn)
| MsgInsufficientFundsDeploy (address : string)
| MsgDeployed (contract_address : string)
| MsgDeployFailed (address : string)
| MsgStarting
| MsgLoaded (n : Z)
| MsgTotalDeployed (n : Z)
| MsgTotalFailed (n : Z).

(** ** Events and histories *)

(** Every interaction with the outside world, with the answer it got. *)
Inductive event : Type :=
| EvChainId (rpc : string) (r : result Z)
| EvGasPrice (rpc : string) (r : result Z)
| EvGetTransactionCount (rpc address : string) (r : result Z)
| EvGetBalance (rpc address : string) (r : result Z)
| EvEstimateGas (rpc : string) (t : txn) (r : result Z)
| EvSignTransaction (private_key : string) (t : txn) (r : result string)
| EvSendRawTransaction (rpc raw : string) (r : result string)
| EvWaitReceipt (rpc txn_hash : string) (r : result (option receipt))
| EvSuggestGasFees (chain_id : Z) (r : result (option fee_quote))
| EvReadAbi (r : result string)
| EvEstimateSendFee (rpc : string) (destination_chain_id : Z)
                    (payload : string) (adapter_params : list byte)
                    (r : result (list Z))
| EvRandomChoice (r : nat)
| EvRandomString (min_len max_len : Z) (r : result string)
| EvRandInt (lo hi r : Z)
| EvInstallSolc (version : string) (r : result unit)
| EvSetSolcVersion (version : string) (r : result unit)
| EvCompileSource (source : string) (r : result compiled)
| EvLoadAccounts (r : result (list string))
| EvConfigLoad (r : result Config)
| EvLog (lvl : level) (msg : message)
| EvSleep (seconds : Z)
| EvRandomSleep (min_sleep max_sleep : Z).

(** A history lists the events so far, the most recent one first. *)
Definition trace : Type := list event.

(** The outside world.  Every answer may depend on the arguments of the call
    and on the whole history: chains, the signer, the fee-suggestion service
    ([utils.suggest_gas_fees]), the receipt waiter
    ([utils.wait_for_transaction_receipt]), the random sources, the compiler
    and the loaders are collaborators outside [src/main.py]. *)
Record oracle : Type := mkOracle {
  chain_id : string -> trace -> result Z;
  gas_price : string -> trace -> result Z;
  get_transaction_count : string -> string -> trace -> result Z;
  get_balance : string -> string -> trace -> result Z;
  estimate_gas : string -> txn -> trace -> result Z;
  sign_transaction : string -> txn -> trace -> result string;
  send_raw_transaction : string -> string -> trace -> result string;
  wait_for_transaction_receipt :
    string -> string -> trace -> result (option receipt);
  suggest_gas_fees : Z -> trace -> result (option fee_quote);
  read_abi : trace -> result string;
  estimateSendFee :
    string -> Z -> string -> list byte -> trace -> result (list Z);
  random_choice : nat -> trace -> nat;
  random_string : Z -> Z -> trace -> result string;
  random_randint : Z -> Z -> trace -> Z;
  install_solc : string -> trace -> result unit;
  set_solc_version : string -> trace -> result unit;
  compile_source : string -> trace -> result compiled;
  load_accounts : trace -> result (list string);
  Config_load : trace -> result Config
}.

(** The pure library functions and constants the source uses and [src/] does
    not hold: key-to-address derivation, unit conversion, the template table
    of [contracts.py], and the string functions applied to a template. *)
Record library : Type := mkLibrary {
  from_key : string -> string;
  to_wei_ether : Q -> Z;
  CONTRACTS : list string;
  findall_placeholders : string -> list string;
  title : string -> string;
  format : string -> Dict.t string -> result string
}.

(** ** The monad: history passing, exceptions, fuel for [while True] *)

Inductive outcome (A : Type) : Type :=
| Ret (a : A)
| Raise (e : exn)
| OutOfFuel.
Arguments Ret {A} a.
Arguments Raise {A} e.
Arguments OutOfFuel {A}.

Definition M (A : Type) : Type := trace -> outcome A * trace.

Definition ret {A} (a : A) : M A := fun tr => (Ret a, tr).

Definition bind {A B} (m : M A) (f : A -> M B) : M B :=
  fun tr =>
    match m tr with
    | (Ret a, tr') => f a tr'
    | (Raise e, tr') => (Raise e, tr')
    | (OutOfFuel, tr') => (OutOfFuel, tr')
    end.

Definition raise {A} (e : exn) : M A := fun tr => (Raise e, tr).

Definition out_of_fuel {A} : M A := fun tr => (OutOfFuel, tr).

(** A result computed without touching the outside world. *)
Definition lift {A} (r : result A) : M A :=
  match r with
  | Ok a => ret a
  | Err e => raise e
  end.

(** An external call: ask the oracle, record the call and its answer. *)
Definition call {A} (ask : trace -> result A) (ev : result A -> event) : M A :=
  fun tr =>
    let r := ask tr in
    (match r with Ok a => Ret a | Err e => Raise e end, ev r :: tr).

(** An external source that cannot fail. *)
Definition sample {A} (ask : trace -> A) (ev : A -> event) : M A :=
  fun tr => let a := ask tr in (Ret a, ev a :: tr).

Definition emit (e : event) : M unit := fun tr => (Ret tt, e :: tr).

(** [try: x = m  except Exception as e: ...  else: ...] hands the handler
    and the [else] branch the result of [m]. *)
Definition try_except {A} (m : M A) : M (result A) :=
  fun tr =>
    match m tr with
    | (Ret a, tr') => (Ret (Ok a), tr')
    | (Raise e, tr') => (Ret (Err e), tr')
    | (OutOfFuel, tr') => (OutOfFuel, tr')
    end.

(** [emits P m]: whatever [m] does, it only adds events satisfying [P] to the
    history. *)
Definition emits {A} (P : event -> Prop) (m : M A) : Prop :=
  forall tr r tr', m tr = (r, tr') -> exists es, tr' = es ++ tr /\ Forall P es.

Declare Scope monad_scope.
Delimit Scope monad_scope with monad.
Notation "x <- m ;; k" := (bind m (fun x => k))
  (at level 100, m at next level, right associativity) : monad_scope.
Notation "m ;; k" := (bind m (fun _ => k))
  (at level 100, right associativity) : monad_scope.
Local Open Scope monad_scope.

Definition logger_info (msg : message) : M unit := emit (EvLog INFO msg).
Definition logger_warning (msg : message) : M unit := emit (EvLog WARNING msg).
Definition logger_error (msg : message) : M unit := emit (EvLog ERROR msg).
Definition time_sleep (seconds : Z) : M unit := emit (EvSleep seconds).

Definition sum (l : list Z) : Z := fold_left Z.add l 0.

Definition merkly_address : string :=
  "0x4Ae8CEBcCD7027820ba83188DFD73CCAD0A92806".

(** ** Unit conversion and float rounding *)

(** [Web3.from_wei(number, 'gwei')] (eth_utils.currency): the integer [0] for
    zero, [ValueError] outside [0, 2**256 - 1], and otherwise the exact
    decimal quotient by [10**9]. *)
Definition MAX_WEI : Z := 2 ^ 256 - 1.

Definition from_wei_gwei (number : Z) : result Q :=
  if number =? 0 then Ok (inject_Z 0)
  else if (number <? 0) || (MAX_WEI <? number)
  then Err (mkExn "ValueError" "value must be between 1 and 2**256 - 1")
  else Ok (Qmake number 1000000000).

(** [float(x)] of an exact decimal or integer [x]: the binary64 number nearest
    to [x], ties to the even significand, given by its exact value.  The
    significand has 53 bits; the exponent range of binary64 (magnitudes from
    [2^-1022] up to [2^1024]) is not modelled, and every nonzero quotient
    [from_wei_gwei] returns lies well inside it (between [10^-9] and
    [2^256 / 10^9]). *)
Module PyFloat.

(** [a / b] rounded to the nearest integer, ties to even ([0 < b]). *)
Definition round_half_even (a b : Z) : Z :=
  let q := a / b in
  match 2 * (a mod b) ?= b with
  | Lt => q
  | Gt => q + 1
  | Eq => if Z.even q then q else q + 1
  end.

(** Numerator and denominator of [n / d * 2^k]. *)
Definition scale2 (n d k : Z) : Z * Z :=
  if 0 <=? k then (n * 2 ^ k, d) else (n, d * 2 ^ (- k)).

(** The [e] with [2^e <= n / d < 2^(e+1)] ([0 < n], [0 < d]). *)
Definition floor_log2 (n d : Z) : Z :=
  let e0 := Z.log2 n - Z.log2 d in
  let '(a, b) := scale2 n d (- e0) in
  if b <=? a then e0 else e0 - 1.

(** The nearest [m * 2^(e-52)] with a 53-bit [m] ([0 < n], [0 < d]). *)
Definition of_positive (n d : Z) : Q :=
  let e := floor_log2 n d in
  let '(a, b) := scale2 n d (52 - e) in
  let m := round_half_even a b in
  if 52 <=? e then inject_Z (m * 2 ^ (e - 52))
  else Qmake m (Z.to_pos (2 ^ (52 - e))).

Definition of_Q (x : Q) : Q :=
  match Qnum x with
  | Z0 => inject_Z 0
  | Zpos n => of_positive (Zpos n) (Zpos (Qden x))
  | Zneg n => Qopp (of_positive (Zpos n) (Zpos (Qden x)))
  end.

End PyFloat.

(** [float(Web3.from_wei(gas_price, 'gwei'))] of line 128: the price in gwei
    as the float the code compares, or the [ValueError] of [from_wei]. *)
Definition gwei_of_wei (gas_price : Z) : result Q :=
  match from_wei_gwei gas_price with
  | Ok gwei => Ok (PyFloat.of_Q gwei)
  | Err e => Err e
  end.

(** ** The program *)

Section Program.

Context (L : library) (o : oracle).

(** *** Calls to the collaborators *)

Definition web3_chain_id (rpc : string) : M Z :=
  call (chain_id o rpc) (EvChainId rpc).
Definition web3_gas_price (rpc : string) : M Z :=
  call (gas_price o rpc) (EvGasPrice rpc).
Definition web3_get_transaction_count (rpc address : string) : M Z :=
  call (get_transaction_count o rpc address) (EvGetTransactionCount rpc address).
Definition web3_get_balance (rpc address : string) : M Z :=
  call (get_balance o rpc address) (EvGetBalance rpc address).
Definition web3_estimate_gas (rpc : string) (t : txn) : M Z :=
  call (estimate_gas o rpc t) (EvEstimateGas rpc t).
Definition account_sign_transaction (private_key : string) (t : txn) : M string :=
  call (sign_transaction o private_key t) (EvSignTransaction private_key t).
Definition web3_send_raw_transaction (rpc raw : string) : M string :=
  call (send_raw_transaction o rpc raw) (EvSendRawTransaction rpc raw).
Definition utils_wait_for_transaction_receipt (rpc txn_hash : string)
  : M (option receipt) :=
  call (wait_for_transaction_receipt o rpc txn_hash) (EvWaitReceipt rpc txn_hash).
Definition utils_suggest_gas_fees (cid : Z) : M (option fee_quote) :=
  call (suggest_gas_fees o cid) (EvSuggestGasFees cid).
Definition open_merkly_abi : M string :=
  call (read_abi o) EvReadAbi.
Definition merkly_estimateSendFee (rpc : string) (dst : Z) (payload : string)
           (adapter_params : list byte) : M (list Z) :=
  call (estimateSendFee o rpc dst payload adapter_params)
       (EvEstimateSendFee rpc dst payload adapter_params).
Definition utils_random_string (min_len max_len : Z) : M string :=
  call (random_string o min_len max_len) (EvRandomString min_len max_len).
Definition random_randint_ (lo hi : Z) : M Z :=
  sample (random_randint o lo hi) (EvRandInt lo hi).
Definition solcx_install_solc (version : string) : M unit :=
  call (install_solc o version) (EvInstallSolc version).
Definition solcx_set_solc_version (version : string) : M unit :=
  call (set_solc_version o version) (EvSetSolcVersion version).
Definition solcx_compile_source (source : string) : M compiled :=
  call (compile_source o source) (EvCompileSource source).
Definition utils_load_accounts : M (list string) :=
  call (load_accounts o) EvLoadAccounts.
Definition Config_load_ : M Config :=
  call (Config_load o) EvConfigLoad.

(** Modelled from the spec: [utils.random_sleep] is not under [src/]; the
    spec (4.8) has it sleep a random duration within the configured window.
    The call is recorded as one event and returns. *)
Definition utils_random_sleep (min_sleep max_sleep : Z) : M unit :=
  emit (EvRandomSleep min_sleep max_sleep).

(** [random.choice(seq)] raises [IndexError] on an empty sequence. *)
Definition random_choice_ (seq : list string) : M string :=
  match seq with
  | [] => raise (mkExn "IndexError" "Cannot choose from an empty sequence")
  | _ :: _ =>
      i <- sample (random_choice o (List.length seq)) EvRandomChoice ;;
      ret (nth (i mod List.length seq)%nat seq "")
  end.

(** [d[k]] raises [KeyError]. *)
Definition getitem {V} (d : Dict.t V) (k : string) : M V :=
  match Dict.get d k with
  | Some v => ret v
  | None => raise (mkExn "KeyError" k)
  end.

(** *** bridge_to_scroll (src/main.py, lines 16-103) *)

(** Lines 42-47: the suggested fee, or the chain's gas price when the
    suggestion is [None]. *)
Definition suggest_fee (rpc : string) : M fee_quote :=
  cid <- web3_chain_id rpc ;;
  suggested_fee <- utils_suggest_gas_fees cid ;;
  match suggested_fee with
  | None => gas_price <- web3_gas_price rpc ;;
            ret (LegacyFee gas_price)
  | Some fee => ret fee
  end.

Definition bridge_to_scroll
           (arbitrum_rpc_url arbitrum_explorer_url private_key : string)
           (amount : Q) : M bool :=
  let address := from_key L private_key in
  logger_info (MsgBridging amount address) ;;
  let amount_in_wei := to_wei_ether L amount in
  merkly_abi <- open_merkly_abi ;;
  suggested_fee <- suggest_fee arbitrum_rpc_url ;;
  let destination_chain_id := 214 in
  adapter_params <- lift (encode_adapter_params amount_in_wei address) ;;
  send_fee <- merkly_estimateSendFee arbitrum_rpc_url destination_chain_id
                "0x0" adapter_params ;;
  chainId <- web3_chain_id arbitrum_rpc_url ;;
  nonce <- web3_get_transaction_count arbitrum_rpc_url address ;;
  let txn :=
    mkTxn chainId nonce address 0 suggested_fee
          (amount_in_wei + sum send_fee)
          (BridgeGas merkly_address destination_chain_id address adapter_params) in
  estimate <- try_except (web3_estimate_gas arbitrum_rpc_url txn) ;;
  match estimate with
  | Err e =>
      if PyStr.contains "insufficient funds" (exn_str e)
      then logger_error (MsgInsufficientFundsBridge address) ;; ret false
      else logger_error (MsgEstimateGasFailed e) ;; ret false
  | Ok gas =>
      let txn := set_gas txn gas in
      signed_txn <- account_sign_transaction private_key txn ;;
      txn_hash <- web3_send_raw_transaction arbitrum_rpc_url signed_txn ;;
      logger_info (MsgTransaction arbitrum_explorer_url txn_hash) ;;
      receipt <- utils_wait_for_transaction_receipt arbitrum_rpc_url txn_hash ;;
      if receipt_succeeded receipt
      then logger_info (MsgBridged amount address) ;; ret true
      else logger_error (MsgBridgeFailed address) ;; ret false
  end.

(** *** deploy_random_contract (src/main.py, lines 106-216) *)

(** The [while True] of lines 122-132: one iteration per unit of fuel.  Only
    the read of line 124 is inside the [try]; lines 128-129 run in its [else]
    branch, so what [from_wei] raises leaves the loop. *)
Fixpoint gas_price_gate (fuel : nat) (config : Config) : M Z :=
  match fuel with
  | O => out_of_fuel
  | S fuel' =>
      reading <- try_except (web3_gas_price (eth_rpc_url config)) ;;
      match reading with
      | Err e =>
          logger_warning (MsgGasPriceFailed e) ;;
          logger_info MsgGasPriceTooHigh ;;
          time_sleep 10 ;;
          gas_price_gate fuel' config
      | Ok gas_price =>
          gas_gwei <- lift (gwei_of_wei gas_price) ;;
          if Qle_bool gas_gwei (max_gwei config)
          then ret gas_price
          else
            logger_info MsgGasPriceTooHigh ;;
            time_sleep 10 ;;
            gas_price_gate fuel' config
      end
  end.

(** The dict comprehension of lines 138-141. *)
Fixpoint random_values (config : Config) (value_names : list string)
         (values_dict : Dict.t string) : M (Dict.t string) :=
  match value_names with
  | [] => ret values_dict
  | name :: rest =>
      v <- utils_random_string (min_length config) (max_length config) ;;
      random_values config rest (Dict.set values_dict name v)
  end.

(** Lines 134-151: pick a template, fill it in, compile it. *)
Definition generate_contract (config : Config) : M (string * string) :=
  random_contract <- random_choice_ (CONTRACTS L) ;;
  let value_names := findall_placeholders L random_contract in
  values_dict <- random_values config value_names [] ;;
  coin <- random_randint_ 0 1 ;;
  values_dict <-
    (if coin =? 1
     then name <- getitem values_dict "contract_name" ;;
          ret (Dict.set values_dict "contract_name" (title L name))
     else ret values_dict) ;;
  solcx_install_solc "0.8.2" ;;
  solcx_set_solc_version "0.8.2" ;;
  source <- lift (format L random_contract values_dict) ;;
  compiled_contract <- solcx_compile_source source ;;
  name <- getitem values_dict "contract_name" ;;
  entry <- getitem compiled_contract ("<stdin>:" ++ name)%string ;;
  ret entry.

(** Lines 107-166: up to the reading of the account's balance. *)
Definition deploy_prepare (config : Config) (private_key : string)
           (fuel : nat) : M (txn * Z) :=
  let address := from_key L private_key in
  logger_info (MsgDeploying address) ;;
  gas_price <- gas_price_gate fuel config ;;
  contract <- generate_contract config ;;
  chainId <- web3_chain_id (scroll_rpc_url config) ;;
  nonce <- web3_get_transaction_count (scroll_rpc_url config) address ;;
  let txn :=
    mkTxn chainId nonce address 0 (LegacyFee gas_price) 0
          (Constructor (fst contract) (snd contract)) in
  account_balance <- web3_get_balance (scroll_rpc_url config) address ;;
  ret (txn, account_balance).

(** The [while True] of lines 181-189. *)
Fixpoint balance_wait (fuel : nat) (config : Config) (address : string)
         (account_balance : Z) : M unit :=
  match fuel with
  | O => out_of_fuel
  | S fuel' =>
      reading <- try_except (web3_get_balance (scroll_rpc_url config) address) ;;
      match reading with
      | Err e =>
          logger_warning (MsgBalanceFailed e) ;;
          time_sleep 10 ;;
          balance_wait fuel' config address account_balance
      | Ok balance_after =>
          if balance_after >? account_balance
          then ret tt
          else
            time_sleep 10 ;;
            balance_wait fuel' config address account_balance
      end
  end.

(** Lines 191-216: estimate, sign, send and confirm the deployment. *)
Definition deploy_submit (config : Config) (private_key : string) (txn : txn)
  : M bool :=
  let address := from_key L private_key in
  estimate <- try_except (web3_estimate_gas (scroll_rpc_url config) txn) ;;
  match estimate with
  | Err e =>
      if PyStr.contains "insufficient funds" (exn_str e)
      then logger_error (MsgInsufficientFundsDeploy address) ;; ret false
      else logger_error (MsgEstimateGasFailed e) ;; ret false
  | Ok gas =>
      let txn := set_gas txn gas in
      signed_txn <- account_sign_transaction private_key txn ;;
      txn_hash <- web3_send_raw_transaction (scroll_rpc_url config) signed_txn ;;
      logger_info (MsgTransaction (scroll_explorer_url config) txn_hash) ;;
      receipt <- utils_wait_for_transaction_receipt (scroll_rpc_url config) txn_hash ;;
      match receipt with
      | Some rc =>
          if status rc =? 1
          then logger_info (MsgDeployed (contractAddress rc)) ;; ret true
          else logger_error (MsgDeployFailed address) ;; ret false
      | None => logger_error (MsgDeployFailed address) ;; ret false
      end
  end.

(** The whole function: [deploy_prepare], the funding block of lines
    168-189 (whose [return False] leaves the function), [deploy_submit]. *)
Definition deploy_random_contract (config : Config) (private_key : string)
           (fuel : nat) : M bool :=
  let address := from_key L private_key in
  prepared <- deploy_prepare config private_key fuel ;;
  let txn := fst prepared in
  let account_balance := snd prepared in
  if account_balance <? to_wei_ether L (bridge_amount config)
  then
    bridge_result <- bridge_to_scroll (arbitrum_rpc_url config)
                       (arbitrum_explorer_url config) private_key
                       (bridge_amount config) ;;
    if negb bridge_result
    then ret false
    else
      logger_info MsgWaitingBridge ;;
      balance_wait fuel config address account_balance ;;
      deploy_submit config private_key txn
  else deploy_submit config private_key txn.

(** *** main (src/main.py, lines 219-245) *)

(** [total_deployed += b] with a [bool]. *)
Definition int_of_bool (b : bool) : Z := if b then 1 else 0.

(** The [for index, private_key in enumerate(private_keys)] loop; [len] is
    [len(private_keys)] of the whole list. *)
Fixpoint main_loop (fuel : nat) (config : Config) (len : Z) (index : Z)
         (private_keys : list string) (total_deployed : Z) : M Z :=
  match private_keys with
  | [] => ret total_deployed
  | private_key :: rest =>
      deployed <- deploy_random_contract config private_key fuel ;;
      let total_deployed := total_deployed + int_of_bool deployed in
      (if negb (index =? len - 1)
       then utils_random_sleep (min_sleep_time config) (max_sleep_time config)
       else ret tt) ;;
      main_loop fuel config len (index + 1) rest total_deployed
  end.

Definition main (fuel : nat) : M unit :=
  private_keys <- utils_load_accounts ;;
  config <- Config_load_ ;;
  logger_info MsgStarting ;;
  let len := Z.of_nat (List.length private_keys) in
  logger_info (MsgLoaded len) ;;
  total_deployed <- main_loop fuel config len 0 private_keys 0 ;;
  logger_info (MsgTotalDeployed total_deployed) ;;
  let total_failed := len - total_deployed in
  if negb (total_failed =? 0)
  then logger_info (MsgTotalFailed total_failed)
  else ret tt.

End Program.

(** ** Observations on histories *)

(** The transaction an event carries: gas estimation and signing do. *)
Definition event_txn (e : event) : option txn :=
  match e with
  | EvEstimateGas _ t _ => Some t
  | EvSignTransaction _ t _ => Some t
  | _ => None
  end.

Definition is_constructor (t : txn) : bool :=
  match tx_call_of t with
  | Constructor _ _ => true
  | BridgeGas _ _ _ _ => false
  end.

(** Events that only [bridge_to_scroll] produces. *)
Definition bridge_event (e : event) : bool :=
  match e with
  | EvLog _ (MsgBridging _ _) => true
  | EvLog _ (MsgInsufficientFundsBridge _) => true
  | EvLog _ (MsgBridged _ _) => true
  | EvLog _ (MsgBridgeFailed _) => true
  | EvReadAbi _ => true
  | EvSuggestGasFees _ _ => true
  | EvEstimateSendFee _ _ _ _ _ => true
  | EvEstimateGas _ t _ => negb (is_constructor t)
  | EvSignTransaction _ t _ => negb (is_constructor t)
  | _ => false
  end.

(** Gas estimation or signing of a deployment transaction. *)
Definition deployment_event (e : event) : bool :=
  match event_txn e with
  | Some t => is_constructor t
  | None => false
  end.

Definition is_random_sleep (e : event) : bool :=
  match e with
  | EvRandomSleep _ _ => true
  | _ => false
  end.

Definition is_send (e : event) : bool :=
  match e with
  | EvSendRawTransaction _ _ _ => true
  | _ => false
  end.

(** Events of [deploy_prepare] and of the balance wait: no transaction is
    estimated, signed or sent, nothing of the bridge, no pacing sleep. *)
Definition quiet_event (e : event) : Prop :=
  event_txn e = None /\ is_send e = false /\
  bridge_event e = false /\ is_random_sleep e = false.

(** Every history entry of a transaction is about a bridge transaction. *)
Definition bridge_side_event (e : event) : Prop :=
  deployment_event e = false /\ is_random_sleep e = false.

(** Every history entry of a transaction is about a deployment. *)
Definition deploy_side_event (e : event) : Prop :=
  bridge_event e = false /\ is_random_sleep e = false.

(** Every [send_raw_transaction] comes right after the signing of the same
    raw bytes, and every signing right after a successful gas estimation
    whose answer is the signed transaction's gas limit. *)
Fixpoint submissions_estimated (tr : trace) : Prop :=
  match tr with
  | [] => True
  | EvSendRawTransaction rpc raw _ :: rest =>
      (exists key t g rest',
          rest = EvSignTransaction key (set_gas t g) (Ok raw)
                   :: EvEstimateGas rpc t (Ok g) :: rest') /\
      submissions_estimated rest
  | EvSignTransaction key t' _ :: rest =>
      (exists rpc t g rest',
          rest = EvEstimateGas rpc t (Ok g) :: rest' /\ t' = set_gas t g) /\
      submissions_estimated rest
  | _ :: rest => submissions_estimated rest
  end.

(** The error line logged when gas estimation of [t] fails with [e]. *)
Definition estimation_failure_message (address : string) (t : txn) (e : exn)
  : message :=
  if PyStr.contains "insufficient funds" (exn_str e)
  then if is_constructor t
       then MsgInsufficientFundsDeploy address
       else MsgInsufficientFundsBridge address
  else MsgEstimateGasFailed e.

Definition is_gas_price_on (rpc : string) (e : event) : bool :=
  match e with
  | EvGasPrice rpc' _ => String.eqb rpc rpc'
  | _ => false
  end.

Definition count_events (f : event -> bool) (tr : trace) : nat :=
  List.length (filter f tr).

(** *** The gas-price gate *)

(** A reading lets the gate through when it succeeded, [from_wei] took it,
    and its gwei value as a float is at most the ceiling. *)
Definition acceptable (config : Config) (reading : result Z) : bool :=
  match reading with
  | Ok gas_price =>
      match gwei_of_wei gas_price with
      | Ok gas_gwei => Qle_bool gas_gwei (max_gwei config)
      | Err _ => false
      end
  | Err _ => false
  end.

(** A reading sends the gate round its loop again when it failed, or when
    [from_wei] took it and its gwei value as a float is above the ceiling. *)
Definition blocks (config : Config) (reading : result Z) : bool :=
  match reading with
  | Ok gas_price =>
      match gwei_of_wei gas_price with
      | Ok gas_gwei => negb (Qle_bool gas_gwei (max_gwei config))
      | Err _ => false
      end
  | Err _ => true
  end.

(** What the gate adds to the history at a reading that blocks it (most
    recent first): the reading, the warning for a failed one, the log line
    and the sleep. *)
Definition gate_blocked_round (config : Config) (reading : result Z) : list event :=
  match reading with
  | Err e =>
      [EvSleep 10; EvLog INFO MsgGasPriceTooHigh;
       EvLog WARNING (MsgGasPriceFailed e);
       EvGasPrice (eth_rpc_url config) (Err e)]
  | Ok gas_price =>
      [EvSleep 10; EvLog INFO MsgGasPriceTooHigh;
       EvGasPrice (eth_rpc_url config) (Ok gas_price)]
  end.

(** The history of a list of blocking readings, given in the order they were
    read. *)
Fixpoint gate_blocked (config : Config) (readings : list (result Z)) : list event :=
  match readings with
  | [] => []
  | r :: rest => gate_blocked config rest ++ gate_blocked_round config r
  end.

(** The reference chain answers the gate's successive queries, from history
    [tr] on, with [readings] in this order. *)
Fixpoint gate_readings (o : oracle) (config : Config) (tr : trace)
         (readings : list (result Z)) : Prop :=
  match readings with
  | [] => True
  | r :: rest =>
      gas_price o (eth_rpc_url config) tr = r /\
      gate_readings o config (gate_blocked_round config r ++ tr) rest
  end.

(** *** The wait for the bridged funds *)

(** What the balance wait adds to the history at a reading that does not end
    it (most recent first). *)
Definition balance_blocked_round (config : Config) (address : string)
           (reading : result Z) : list event :=
  match reading with
  | Err e =>
      [EvSleep 10; EvLog WARNING (MsgBalanceFailed e);
       EvGetBalance (scroll_rpc_url config) address (Err e)]
  | Ok balance_after =>
      [EvSleep 10; EvGetBalance (scroll_rpc_url config) address (Ok balance_after)]
  end.

Fixpoint balance_blocked (config : Config) (address : string)
         (readings : list (result Z)) : list event :=
  match readings with
  | [] => []
  | r :: rest =>
      balance_blocked config address rest ++ balance_blocked_round config address r
  end.

(** A balance reading that keeps the wait going: it failed, or it is not
    above the balance recorded before the bridge. *)
Definition not_increased (account_balance : Z) (reading : result Z) : Prop :=
  match reading with
  | Ok balance_after => balance_after <= account_balance
  | Err _ => True
  end.

(** Events of the template selection and compilation. *)
Definition generation_event (e : event) : bool :=
  match e with
  | EvRandomChoice _ | EvRandomString _ _ _ | EvRandInt _ _ _
  | EvInstallSolc _ _ | EvSetSolcVersion _ _ | EvCompileSource _ _ => true
  | _ => false
  end.

(** *** The fleet run *)

(** The pacing step of [main]'s loop at position [index] of [len] accounts. *)
Definition pacing (config : Config) (len index : Z) : M unit :=
  if negb (index =? len - 1)
  then utils_random_sleep (min_sleep_time config) (max_sleep_time config)
  else ret tt.

(** The successive calls of [deploy_random_contract] that [main]'s loop makes
    from history [tr] on, replayed one by one: each attempt starts from the
    history its predecessor and the pacing step left.  The result lists the
    outcome of every attempt made, ending with the first one that does not
    return, and gives the history after the last attempt made. *)
Fixpoint fleet_attempts (L : library) (o : oracle) (fuel : nat)
         (config : Config) (len index : Z) (private_keys : list string)
         (tr : trace) : list (outcome bool) * trace :=
  match private_keys with
  | [] => ([], tr)
  | private_key :: rest =>
      match deploy_random_contract L o config private_key fuel tr with
      | (Ret deployed, tr1) =>
          let later :=
            fleet_attempts L o fuel config len (index + 1) rest
                           (snd (pacing config len index tr1)) in
          (Ret deployed :: fst later, snd later)
      | (r, tr1) => ([r], tr1)
      end
  end.

(** How a fleet run ends, given the outcomes of its attempts: with the first
    exception (or exhaustion) among them, normally otherwise. *)
Fixpoint fleet_verdict (outcomes : list (outcome bool)) : outcome unit :=
  match outcomes with
  | [] => Ret tt
  | Ret _ :: rest => fleet_verdict rest
  | Raise e :: _ => Raise e
  | OutOfFuel :: _ => OutOfFuel
  end.

(** The number of attempts that returned [True]. *)
Fixpoint count_deployed (outcomes : list (outcome bool)) : Z :=
  match outcomes with
  | [] => 0
  | Ret deployed :: rest => int_of_bool deployed + count_deployed rest
  | _ :: rest => count_deployed rest
  end.

Definition is_attempt_of (address : string) (e : event) : bool :=
  match e with
  | EvLog INFO (MsgDeploying address') => String.eqb address address'
  | _ => false
  end.

Definition is_tally (e : event) : bool :=
  match e with
  | EvLog _ (MsgTotalDeployed _) | EvLog _ (MsgTotalFailed _) => true
  | _ => false
  end.

(** The history [main] has when its loop starts. *)
Definition main_prologue (private_keys : list string) (config : Config)
           (tr : trace) : trace :=
  EvLog INFO (MsgLoaded (Z.of_nat (List.length private_keys)))
    :: EvLog INFO MsgStarting
    :: EvConfigLoad (Ok config)
    :: EvLoadAccounts (Ok private_keys) :: tr.

(** The summary lines [main] logs for [deployed] successes out of [len]
    accounts (most recent first). *)
Definition tally_log (len deployed : Z) : list event :=
  (if len - deployed =? 0 then []
   else [EvLog INFO (MsgTotalFailed (len - deployed))])
  ++ [EvLog INFO (MsgTotalDeployed deployed)].

Definition count_true (bs : list bool) : Z :=
  Z.of_nat (List.length (filter (fun b => b) bs)).

(** ** Scripted worlds

    A concrete library and a family of oracles that answer from scripts, the
    n-th call of a kind getting the n-th answer of its script; they are the
    inputs on which the statements below are exercised. *)

Module Scenario.

Definition key1 : string := "key-1".
Definition key2 : string := "key-2".
Definition key3 : string := "key-3".
Definition address1 : string := "0x52908400098527886E0F7030069857D2E4169EE7".
Definition address2 : string := "0x8617E340B3D01FA5F11F306F4090FD50E238070D".
Definition address3 : string := "0xde709f2102306220921060314715629080e2fb77".

Definition lib : library :=
  mkLibrary
    (fun key => if String.eqb key key1 then address1
                else if String.eqb key key2 then address2 else address3)
    (fun amount => Qfloor (amount * inject_Z (10 ^ 18)))
    ["contract {contract_name} {{ string public {value} = 'x'; }}"]
    (fun _ => ["contract_name"; "value"])
    (fun s => s)
    (fun template _ => Ok template).

Definition config : Config :=
  mkConfig "https://scroll" "https://scrollscan/tx/" "https://eth"
           "https://arbitrum" "https://arbiscan/tx/"
           (30 # 1) (1 # 1000) 5 10 10 20.

Definition is_balance (e : event) : bool :=
  match e with EvGetBalance _ _ _ => true | _ => false end.
Definition is_estimate (e : event) : bool :=
  match e with EvEstimateGas _ _ _ => true | _ => false end.
Definition is_compile (e : event) : bool :=
  match e with EvCompileSource _ _ => true | _ => false end.
Definition is_receipt (e : event) : bool :=
  match e with EvWaitReceipt _ _ _ => true | _ => false end.

Definition compiled_token : compiled :=
  [("<stdin>:token", ("[]", "0x6080604052"))].

Record script : Type := mkScript {
  sc_accounts : list string;
  sc_gas_prices : string -> list (result Z);
  sc_balances : list (result Z);
  sc_estimates : list (result Z);
  sc_suggestion : result (option fee_quote);
  sc_compilations : list (result compiled);
  sc_receipts : list (result (option receipt))
}.

(** The oracle of a script; a script that has run out answers with a gas
    price of 20 gwei, a balance of 1 ether, an estimate of 21000, a
    successful compilation and a successful receipt. *)
Definition play (s : script) : oracle :=
  mkOracle
    (fun rpc _ => Ok 1)
    (fun rpc tr =>
       nth (count_events (is_gas_price_on rpc) tr) (sc_gas_prices s rpc)
           (Ok 20000000000))
    (fun _ _ _ => Ok 7)
    (fun _ _ tr =>
       nth (count_events is_balance tr) (sc_balances s)
           (Ok 1000000000000000000))
    (fun _ _ tr =>
       nth (count_events is_estimate tr) (sc_estimates s) (Ok 21000))
    (fun _ _ _ => Ok "0xf86b")
    (fun _ _ _ => Ok "0xabcd")
    (fun _ _ tr =>
       nth (count_events is_receipt tr) (sc_receipts s)
           (Ok (Some (mkReceipt 1 "0xc0ffee"))))
    (fun _ _ => sc_suggestion s)
    (fun _ => Ok "[]")
    (fun _ _ _ _ _ => Ok [100000000000000; 0])
    (fun _ _ => O)
    (fun _ _ _ => Ok "token")
    (fun _ _ _ => 0)
    (fun _ _ => Ok tt)
    (fun _ _ => Ok tt)
    (fun _ tr =>
       nth (count_events is_compile tr) (sc_compilations s)
           (Ok compiled_token))
    (fun _ => Ok (sc_accounts s))
    (fun _ => Ok config).

Definition quiet : script :=
  mkScript [key1] (fun _ => []) [] [] (Ok None) [] [].

Definition insufficient_funds : exn :=
  mkExn "ValueError"
        "{'code': -32000, 'message': 'insufficient funds for gas * price + value'}".

(** The account holds nothing on the destination chain; after the bridge
    the balance reads 0, then the read fails, then it reads 0.002 ether. *)
Definition bridge_then_deploy : script :=
  mkScript [key1] (fun _ => [])
           [Ok 0; Ok 0; Err (mkExn "ConnectionError" "timed out");
            Ok 2000000000000000]
           [] (Ok None) [] [].

(** The account holds nothing on the destination chain and cannot pay for
    the bridge transaction. *)
Definition bridge_unfunded : script :=
  mkScript [key1] (fun _ => []) [Ok 0] [Err insufficient_funds]
           (Ok (Some (DynamicFee 200000000 100000000))) [] [].

(** No fee suggestion, and the source chain's gas price cannot be read. *)
Definition gas_price_unreachable : script :=
  mkScript [key1]
           (fun rpc => if String.eqb rpc "https://arbitrum"
                       then [Err (mkExn "ConnectionError" "connection refused")]
                       else [])
           [Ok 0] [] (Ok None) [] [].

(** Two accounts; the compilation for the first one fails. *)
Definition compile_error : script :=
  mkScript [key1; key2] (fun _ => []) [] [] (Ok None)
           [Err (mkExn "SolcError" "An error occurred during execution")] [].

(** Three funded accounts; the second cannot pay for its deployment. *)
Definition three_accounts : script :=
  mkScript [key1; key2; key3] (fun _ => []) []
           [Ok 21000; Err insufficient_funds; Ok 21000] (Ok None) [] [].

(** Gas-price readings of 50, 40 and 25 gwei on the reference chain. *)
Definition gas_50_40_25 : script :=
  mkScript [key1]
           (fun _ => [Ok 50000000000; Ok 40000000000; Ok 25000000000])
           [] [] (Ok None) [] [].

End Scenario.


(** ** Further observations *)

(** The endpoint an RPC or contract call goes to. *)
Definition event_rpc (e : event) : option string :=
  match e with
  | EvChainId rpc _ | EvGasPrice rpc _ | EvGetTransactionCount rpc _ _
  | EvGetBalance rpc _ _ | EvEstimateGas rpc _ _
  | EvSendRawTransaction rpc _ _ | EvWaitReceipt rpc _ _
  | EvEstimateSendFee rpc _ _ _ _ => Some rpc
  | _ => None
  end.

Definition is_get_balance (e : event) : bool :=
  match e with
  | EvGetBalance _ _ _ => true
  | _ => false
  end.

(** A successful balance read that shows more than [balance]. *)
Definition balance_reading_above (balance : Z) (e : event) : bool :=
  match e with
  | EvGetBalance _ _ (Ok reading) => balance <? reading
  | _ => false
  end.

Definition is_estimate_gas (e : event) : bool :=
  match e with
  | EvEstimateGas _ _ _ => true
  | _ => false
  end.

Definition is_sleep_10 (e : event) : bool :=
  match e with
  | EvSleep seconds => seconds =? 10
  | _ => false
  end.

(** Events of the gas-price gate. *)
Definition gate_event (config : Config) (e : event) : bool :=
  match e with
  | EvGasPrice rpc _ => String.eqb rpc (eth_rpc_url config)
  | EvLog WARNING (MsgGasPriceFailed _) => true
  | EvLog INFO MsgGasPriceTooHigh => true
  | EvSleep seconds => seconds =? 10
  | _ => false
  end.

(** The destination chain answers the successive balance queries of the
    wait, from history [tr] on, with [readings] in this order. *)
Fixpoint balance_readings (o : oracle) (config : Config) (address : string)
         (tr : trace) (readings : list (result Z)) : Prop :=
  match readings with
  | [] => True
  | r :: rest =>
      get_balance o (scroll_rpc_url config) address tr = r /\
      balance_readings o config address
                       (balance_blocked_round config address r ++ tr) rest
  end.

(** The answer of the call an event records, when it is an exception. *)
Definition event_error (e : event) : option exn :=
  let err {A} (r : result A) :=
    match r with Ok _ => None | Err x => Some x end in
  match e with
  | EvChainId _ r | EvGasPrice _ r | EvGetTransactionCount _ _ r
  | EvGetBalance _ _ r | EvEstimateGas _ _ r => err r
  | EvSignTransaction _ _ r | EvSendRawTransaction _ _ r => err r
  | EvWaitReceipt _ _ r => err r
  | EvSuggestGasFees _ r => err r
  | EvReadAbi r => err r
  | EvEstimateSendFee _ _ _ _ r => err r
  | EvRandomString _ _ r => err r
  | EvInstallSolc _ r | EvSetSolcVersion _ r => err r
  | EvCompileSource _ r => err r
  | EvLoadAccounts r => err r
  | EvConfigLoad r => err r
  | _ => None
  end.

(** What a deployment transaction must look like under [config] for
    [address]: a legacy gas price that passed the gate's test (its gwei value
    as the float of line 128 is at most the ceiling), no value, sent from the
    account. *)
Definition within_ceiling (config : Config) (address : string) (t : txn) : Prop :=
  exists gas_price,
    tx_fee t = LegacyFee gas_price /\
    acceptable config (Ok gas_price) = true /\
    tx_value t = 0 /\
    tx_from t = address.

Definition is_attempt_log (e : event) : bool :=
  match e with
  | EvLog _ (MsgDeploying _) => true
  | _ => false
  end.

(** The accounts whose attempt a history records, the earliest first. *)
Fixpoint attempts_logged (tr : trace) : list string :=
  match tr with
  | [] => []
  | EvLog _ (MsgDeploying address) :: rest => attempts_logged rest ++ [address]
  | _ :: rest => attempts_logged rest
  end.

(** ** More scripted worlds *)

Module Cases.

(** An oracle with another gas-price source. *)
Definition with_gas_price (g : string -> trace -> result Z) (o : oracle) : oracle :=
  mkOracle (chain_id o) g (get_transaction_count o) (get_balance o)
           (estimate_gas o) (sign_transaction o) (send_raw_transaction o)
           (wait_for_transaction_receipt o) (suggest_gas_fees o) (read_abi o)
           (estimateSendFee o) (random_choice o) (random_string o)
           (random_randint o) (install_solc o) (set_solc_version o)
           (compile_source o) (load_accounts o) (Config_load o).

(** The reference chain stays at 100 gwei for ever. *)
Definition stuck_at_100_gwei : oracle :=
  with_gas_price (fun _ _ => Ok 100000000000) (Scenario.play Scenario.quiet).

(** The library with an empty template table. *)
Definition no_templates : library :=
  mkLibrary (from_key Scenario.lib) (to_wei_ether Scenario.lib) []
            (findall_placeholders Scenario.lib) (title Scenario.lib)
            (format Scenario.lib).

(** The signer refuses. *)
Definition signer_refuses : oracle :=
  let o := Scenario.play Scenario.quiet in
  mkOracle (chain_id o) (gas_price o) (get_transaction_count o) (get_balance o)
           (estimate_gas o)
           (fun _ _ _ => Err (mkExn "TypeError" "Transaction had invalid fields"))
           (send_raw_transaction o)
           (wait_for_transaction_receipt o) (suggest_gas_fees o) (read_abi o)
           (estimateSendFee o) (random_choice o) (random_string o)
           (random_randint o) (install_solc o) (set_solc_version o)
           (compile_source o) (load_accounts o) (Config_load o).

(** The account holds nothing on the destination chain, and the balance
    still reads 0 at the first three polls after the bridge. *)
Definition bridged_not_credited : Scenario.script :=
  Scenario.mkScript [Scenario.key1] (fun _ => [])
                    [Ok 0; Ok 0; Ok 0; Ok 0] [] (Ok None) [] [].

(** A ceiling of [2^24] gwei. *)
Definition ceiling_2_pow_24 : Config :=
  mkConfig "https://scroll" "https://scrollscan/tx/" "https://eth"
           "https://arbitrum" "https://arbiscan/tx/"
           (16777216 # 1) (1 # 1000) 5 10 10 20.

(** The reference chain reads [reading]. *)
Definition reads (reading : Z) : Scenario.script :=
  Scenario.mkScript [Scenario.key1] (fun _ => [Ok reading])
                    [] [] (Ok None) [] [].

End Cases.

(** * Properties *)

(** ** PayloadCodec *)

Example adapter_params_small :
  adapter_params_hex 1000000000000000 "0x52908400098527886E0F7030069857D2E4169EE7"
  = ("0002" ++
     "0000000000000000000000000000000000000000000000000000000000030d40" ++
     "00000000000000000000000000000000000000000000000000038d7ea4c68000" ++
     "52908400098527886E0F7030069857D2E4169EE7")%string.
Proof. reflexivity. Qed.


Lemma string_length_append (a b : string) :
  String.length (a ++ b)%string = (String.length a + String.length b)%nat.
Proof. induction a as [|c a IH]; simpl; [reflexivity | now rewrite IH]. Qed.

Lemma all_hex_append (a b : string) :
  PyStr.all_hex (a ++ b)%string = PyStr.all_hex a && PyStr.all_hex b.
Proof.
  induction a as [|c a IH]; simpl; [reflexivity |].
  now rewrite IH, andb_assoc.
Qed.

Lemma replicate_length n c : String.length (PyStr.replicate n c) = n.
Proof. induction n; simpl; congruence. Qed.

Lemma all_hex_replicate_zero n : PyStr.all_hex (PyStr.replicate n "0") = true.
Proof. induction n; simpl; auto. Qed.

Lemma rjust_length width fill s :
  String.length (PyStr.rjust width fill s) = Nat.max width (String.length s).
Proof.
  unfold PyStr.rjust. rewrite string_length_append, replicate_length. lia.
Qed.

Lemma pow16_pos k : 0 < 16 ^ Z.of_nat k.
Proof. apply Z.pow_pos_nonneg; lia. Qed.

(** The number of digits [HexString.Raw.of_pos] prints, against the size of
    the number: four bits of the positive per digit. *)
Lemma of_pos_length :
  forall (p : positive) rest k,
    (String.length (HexString.Raw.of_pos p rest) <= k + String.length rest)%nat
    <-> Z.pos p < 16 ^ Z.of_nat k.
Proof.
  fix of_pos_length 1.
  intros p rest k.
  do 4 try destruct p as [p|p|]; cbn [HexString.Raw.of_pos];
    try (destruct k as [|k];
         [ cbn [String.length]; change (16 ^ Z.of_nat 0) with 1; lia
         | cbn [String.length]; rewrite Nat2Z.inj_succ, Z.pow_succ_r by lia;
           pose proof (pow16_pos k); lia ]);
    match goal with
    | |- context [HexString.Raw.of_pos p (String ?c rest)] =>
        pose proof (of_pos_length p (String c rest) 0%nat) as H0;
        pose proof (of_pos_length p (String c rest) (Nat.pred k)) as H1;
        cbn [String.length] in H0, H1;
        change (16 ^ Z.of_nat 0) with 1 in H0;
        destruct k as [|k];
        [ change (16 ^ Z.of_nat 0) with 1; lia
        | cbn [Nat.pred] in H1; rewrite Nat2Z.inj_succ, Z.pow_succ_r by lia;
          pose proof (pow16_pos k); lia ]
    end.
Qed.

Lemma of_pos_all_hex :
  forall (p : positive) rest,
    PyStr.all_hex rest = true ->
    PyStr.all_hex (HexString.Raw.of_pos p rest) = true.
Proof.
  fix of_pos_all_hex 1.
  intros p rest Hrest.
  do 4 try destruct p as [p|p|]; cbn [HexString.Raw.of_pos];
    try (apply of_pos_all_hex); simpl; exact Hrest.
Qed.

(** [hex(amount)[2:]] of a non-negative amount. *)
Lemma hex_digits_length (amount : Z) (k : nat) :
  0 <= amount ->
  (String.length (PyStr.drop 2 (PyStr.hex amount)) <= S k)%nat
  <-> amount < 16 ^ Z.of_nat (S k).
Proof.
  intros Hpos. pose proof (pow16_pos (S k)) as Hk.
  destruct amount as [|p|p]; [ simpl; lia | | lia ].
  change (PyStr.drop 2 (PyStr.hex (Z.pos p))) with (HexString.Raw.of_pos p "").
  rewrite <- (of_pos_length p "" (S k)). simpl String.length. lia.
Qed.

Lemma hex_digits_all_hex (amount : Z) :
  0 <= amount -> PyStr.all_hex (PyStr.drop 2 (PyStr.hex amount)) = true.
Proof.
  intros Hpos. destruct amount as [|p|p]; [ reflexivity | | lia ].
  change (PyStr.drop 2 (PyStr.hex (Z.pos p))) with (HexString.Raw.of_pos p "").
  now apply of_pos_all_hex.
Qed.

Lemma ascii_to_digit_bound c v :
  HexString.ascii_to_digit c = Some v -> (v <= 15)%N.
Proof.
  unfold HexString.ascii_to_digit.
  repeat match goal with
         | |- context [ascii_dec ?a ?b] => destruct (ascii_dec a b)
         end; intros [=]; subst; lia.
Qed.

Lemma byte_of_digits_hex hi lo :
  PyStr.is_hex_digit hi = true -> PyStr.is_hex_digit lo = true ->
  exists b, HexBytes.byte_of_digits hi lo = Some b.
Proof.
  unfold PyStr.is_hex_digit, HexBytes.byte_of_digits.
  destruct (HexString.ascii_to_digit hi) as [h|] eqn:Hh; [|discriminate].
  destruct (HexString.ascii_to_digit lo) as [l|] eqn:Hl; [|discriminate].
  intros _ _. apply ascii_to_digit_bound in Hh, Hl.
  destruct (Byte.of_N (16 * h + l)) as [b|] eqn:Hb; [now exists b|].
  apply Byte.of_N_None_iff in Hb. lia.
Qed.

(** [unhexlify] succeeds on an even number of hexadecimal digits and yields
    one byte per pair. *)
Lemma unhexlify_ok (n : nat) :
  forall s, String.length s = (2 * n)%nat -> PyStr.all_hex s = true ->
            exists bs, HexBytes.unhexlify s = Ok bs /\ List.length bs = n.
Proof.
  induction n as [|n IH]; intros s Hlen Hhex.
  - destruct s; [|discriminate]. now exists [].
  - destruct s as [|hi [|lo rest]]; simpl in Hlen; try lia.
    simpl in Hhex. apply andb_prop in Hhex as [Hhi Hhex].
    apply andb_prop in Hhex as [Hlo Hhex].
    destruct (byte_of_digits_hex hi lo Hhi Hlo) as [b Hb].
    destruct (IH rest) as [bs [Hbs Hn]]; [lia | assumption |].
    exists (b :: bs). cbn [HexBytes.unhexlify]. rewrite Hb, Hbs.
    split; [reflexivity | simpl; congruence].
Qed.

Lemma adapter_params_hex_length amount address :
  String.length address = 42%nat ->
  String.length (adapter_params_hex amount address)
  = (159 + Nat.max 13 (String.length (PyStr.drop 2 (PyStr.hex amount))))%nat.
Proof.
  intros Haddr. unfold adapter_params_hex.
  rewrite !string_length_append, rjust_length.
  assert (String.length (PyStr.drop 2 address) = 40%nat) as ->.
  { destruct address as [|a [|b rest]]; simpl in *; lia. }
  simpl String.length. lia.
Qed.

Lemma adapter_params_hex_all_hex amount address :
  0 <= amount -> PyStr.all_hex (PyStr.drop 2 address) = true ->
  PyStr.all_hex (adapter_params_hex amount address) = true.
Proof.
  intros Hpos Haddr. unfold adapter_params_hex, PyStr.rjust.
  rewrite !all_hex_append, all_hex_replicate_zero, hex_digits_all_hex, Haddr
    by assumption.
  reflexivity.
Qed.

Lemma adapter_params_hex_no_prefix amount address :
  HexBytes.has_0x_prefix (adapter_params_hex amount address) = false.
Proof. reflexivity. Qed.

(** The encoder has no rejection path.  For every non-negative amount and
    every well-formed address it returns a blob, and the blob has the 86
    bytes of the fixed layout exactly when the amount's hexadecimal form
    fits in 13 digits. *)
Theorem encode_adapter_params_never_rejects (amount_in_wei : Z) (address : string) :
  0 <= amount_in_wei ->
  well_formed_address address ->
  exists blob,
    encode_adapter_params amount_in_wei address = Ok blob /\
    (List.length blob = 86%nat <-> amount_in_wei < 16 ^ 13).
Proof.
  intros Hpos [Hlen Hhex].
  pose proof (adapter_params_hex_length amount_in_wei address Hlen) as Hl.
  pose proof (adapter_params_hex_all_hex amount_in_wei address Hpos Hhex) as Ha.
  pose proof (hex_digits_length amount_in_wei 12 Hpos) as Hd.
  change (16 ^ Z.of_nat 13) with (16 ^ 13) in Hd.
  unfold encode_adapter_params, HexBytes.of_hexstr.
  rewrite adapter_params_hex_no_prefix.
  set (s := adapter_params_hex amount_in_wei address) in *.
  set (d := String.length (PyStr.drop 2 (PyStr.hex amount_in_wei))) in *.
  clearbody s d.
  destruct (Nat.odd (String.length s)) eqn:Hodd.
  - apply Nat.odd_spec in Hodd as [m Hm].
    destruct (unhexlify_ok (S m) (String "0" s)) as [blob [Hb Hn]];
      [ cbn [String.length]; lia | simpl; exact Ha | ].
    exists blob. split; [exact Hb | lia].
  - assert (Nat.even (String.length s) = true) as Heven
        by (rewrite <- Nat.negb_odd, Hodd; reflexivity).
    apply Nat.even_spec in Heven as [m Hm].
    destruct (unhexlify_ok m s) as [blob [Hb Hn]]; [lia | exact Ha |].
    exists blob. split; [exact Hb | lia].
Qed.

Lemma encode_adapter_params_never_rejects_witness :
  exists blob,
    encode_adapter_params 1000000000000000
      "0x52908400098527886E0F7030069857D2E4169EE7" = Ok blob /\
    (List.length blob = 86%nat <-> 1000000000000000 < 16 ^ 13).
Proof.
  apply (encode_adapter_params_never_rejects 1000000000000000
           "0x52908400098527886E0F7030069857D2E4169EE7").
  - lia.
  - split; reflexivity.
Defined.

(** C1, at the inputs where the code departs from it: at
    [amountWei = 16**13], and at [10**16] wei (0.01 ETH), whose hexadecimal
    forms have 14 digits, the encoder raises nothing.  It returns 87 bytes
    instead of the 86 of the layout, and since [HexBytes] pads the odd number
    of digits on the left, every field before the amount is moved by half a
    byte: the blob starts with [00 00 20] where the layout has the version
    [00 02] (as it does at [16**13 - 1]). *)
Theorem encode_adapter_params_misaligns_wide_amounts :
  let address := "0x52908400098527886E0F7030069857D2E4169EE7" in
  (exists blob,
      encode_adapter_params (16 ^ 13) address = Ok blob /\
      List.length blob = 87%nat /\
      firstn 3 blob = [x00; x00; x20]%byte) /\
  (exists blob,
      encode_adapter_params (10 ^ 16) address = Ok blob /\
      List.length blob = 87%nat /\
      firstn 3 blob = [x00; x00; x20]%byte) /\
  (exists blob,
      encode_adapter_params (16 ^ 13 - 1) address = Ok blob /\
      List.length blob = 86%nat /\
      firstn 3 blob = [x00; x02; x00]%byte).
Proof.
  cbv zeta.
  split; [|split]; eexists; (split; [vm_compute; reflexivity|]);
    split; vm_compute; reflexivity.
Qed.

(** ** The monad *)

Lemma bind_ret_inv {A B} (m : M A) (f : A -> M B) tr r tr' :
  bind m f tr = (r, tr') ->
  (exists a tr1, m tr = (Ret a, tr1) /\ f a tr1 = (r, tr')) \/
  (exists e, m tr = (Raise e, tr') /\ r = Raise e) \/
  (m tr = (OutOfFuel, tr') /\ r = OutOfFuel).
Proof.
  unfold bind. destruct (m tr) as [[a|e|] tr1]; intros H.
  - left. now exists a, tr1.
  - right. left. exists e. now inversion H.
  - right. right. now inversion H.
Qed.

Lemma bind_run_ret {A B} (m : M A) (f : A -> M B) tr a tr1 :
  m tr = (Ret a, tr1) -> bind m f tr = f a tr1.
Proof. unfold bind. now intros ->. Qed.

Lemma bind_run_raise {A B} (m : M A) (f : A -> M B) tr e tr1 :
  m tr = (Raise e, tr1) -> bind m f tr = (Raise e, tr1).
Proof. unfold bind. now intros ->. Qed.

Lemma bind_run_out_of_fuel {A B} (m : M A) (f : A -> M B) tr tr1 :
  m tr = (OutOfFuel, tr1) -> bind m f tr = (OutOfFuel, tr1).
Proof. unfold bind. now intros ->. Qed.

Section Emits.
Context (P : event -> Prop).

Lemma emits_ret {A} (a : A) : emits P (ret a).
Proof. intros tr r tr' [= <- <-]. now exists []. Qed.

Lemma emits_raise {A} (e : exn) : emits P (@raise A e).
Proof. intros tr r tr' [= <- <-]. now exists []. Qed.

Lemma emits_out_of_fuel {A} : emits P (@out_of_fuel A).
Proof. intros tr r tr' [= <- <-]. now exists []. Qed.

Lemma emits_lift {A} (x : result A) : emits P (lift x).
Proof. destruct x; [apply emits_ret | apply emits_raise]. Qed.

Lemma emits_emit (e : event) : P e -> emits P (emit e).
Proof. intros He tr r tr' [= <- <-]. exists [e]. split; auto. Qed.

Lemma emits_call {A} (ask : trace -> result A) (ev : result A -> event) :
  (forall r, P (ev r)) -> emits P (call ask ev).
Proof.
  intros He tr r tr' [= <- <-]. exists [ev (ask tr)]. split; auto.
Qed.

Lemma emits_sample {A} (ask : trace -> A) (ev : A -> event) :
  (forall a, P (ev a)) -> emits P (sample ask ev).
Proof.
  intros He tr r tr' [= <- <-]. exists [ev (ask tr)]. split; auto.
Qed.

Lemma emits_bind {A B} (m : M A) (f : A -> M B) :
  emits P m -> (forall a, emits P (f a)) -> emits P (bind m f).
Proof.
  intros Hm Hf tr r tr' H.
  apply bind_ret_inv in H as [(a & tr1 & H1 & H2) | [(e & H1 & _) | (H1 & _)]].
  - apply Hm in H1 as (es1 & -> & F1). apply Hf in H2 as (es2 & -> & F2).
    exists (es2 ++ es1). split; [now rewrite app_assoc | now apply Forall_app].
  - eapply Hm; eauto.
  - eapply Hm; eauto.
Qed.

Lemma emits_try_except {A} (m : M A) : emits P m -> emits P (try_except m).
Proof.
  intros Hm tr r tr'. unfold try_except.
  destruct (m tr) as [[a|e|] tr1] eqn:E; intros [= <- <-]; eapply Hm; eauto.
Qed.
End Emits.

Lemma emits_weaken {A} (P Q : event -> Prop) (m : M A) :
  (forall e, P e -> Q e) -> emits P m -> emits Q m.
Proof.
  intros HPQ Hm tr r tr' H. apply Hm in H as (es & -> & F).
  exists es. split; [reflexivity | eapply Forall_impl; eauto].
Qed.

(** ** Float rounding *)

(** [PyFloat.of_positive] rounds to the nearest number with a 53-bit
    significand, ties to even: this is the rounding of [float]. *)

(** The rounded quotient is within one half of [a / b]. *)
Lemma round_half_even_nearest (a b : Z) :
  0 < b -> Z.abs (2 * a - 2 * PyFloat.round_half_even a b * b) <= b.
Proof.
  intros Hb. unfold PyFloat.round_half_even.
  pose proof (Z.div_mod a b ltac:(lia)) as Hdm.
  pose proof (Z.mod_pos_bound a b Hb) as Hm.
  destruct (Z.compare_spec (2 * (a mod b)) b) as [He|Hl|Hg];
    [destruct (Z.even (a / b))| |]; nia.
Qed.

(** Halfway between two integers it is the even one. *)
Lemma round_half_even_ties_to_even (a b : Z) :
  0 < b -> 2 * (a mod b) = b -> Z.even (PyFloat.round_half_even a b) = true.
Proof.
  intros Hb He. unfold PyFloat.round_half_even. rewrite He, Z.compare_refl.
  destruct (Z.even (a / b)) eqn:Hev; [exact Hev|].
  rewrite Z.even_add, Hev. reflexivity.
Qed.

Lemma round_half_even_monotone_bounds (a b lo hi : Z) :
  0 < b -> lo * b <= a -> a <= hi * b -> lo <= PyFloat.round_half_even a b <= hi.
Proof.
  intros Hb Hlo Hhi. unfold PyFloat.round_half_even.
  pose proof (Z.div_mod a b ltac:(lia)) as Hdm.
  pose proof (Z.mod_pos_bound a b Hb) as Hm.
  assert (lo <= a / b) by (apply Z.div_le_lower_bound; lia).
  assert (a / b <= hi) by (apply Z.div_le_upper_bound; lia).
  destruct (Z.compare_spec (2 * (a mod b)) b) as [He|Hl|Hg];
    [destruct (Z.even (a / b))| |]; try lia.
  - assert (a / b <> hi) by nia. lia.
  - assert (a / b <> hi) by nia. lia.
Qed.

(** [PyFloat.scale2 n d k] is [n / d * 2^k]: the two components by cases. *)
Lemma scale2_shift (n d k j : Z) :
  0 < n -> 0 < d ->
  let '(a, b) := PyFloat.scale2 n d k in
  let '(a', b') := PyFloat.scale2 n d (k + j) in
  0 <= j -> 0 < b /\ 0 < b' /\ a' * b = a * b' * 2 ^ j.
Proof.
  intros Hn Hd. unfold PyFloat.scale2.
  destruct (0 <=? k) eqn:Hk; destruct (0 <=? k + j) eqn:Hkj; intros Hj.
  - rewrite Z.pow_add_r by lia. split; [lia|]. split; [lia|]. ring.
  - lia.
  - assert (2 ^ j = 2 ^ (k + j) * 2 ^ (- k)) as ->
      by (rewrite <- Z.pow_add_r by lia; f_equal; lia).
    pose proof (Z.pow_pos_nonneg 2 (-k) ltac:(lia) ltac:(lia)).
    split; [lia|]. split; [lia|]. ring.
  - assert (2 ^ (- k) = 2 ^ (- (k + j)) * 2 ^ j) as ->
      by (rewrite <- Z.pow_add_r by lia; f_equal; lia).
    pose proof (Z.pow_pos_nonneg 2 (-(k+j)) ltac:(lia) ltac:(lia)).
    pose proof (Z.pow_pos_nonneg 2 j ltac:(lia) ltac:(lia)).
    split; [nia|]. split; [lia|]. ring.
Qed.

Lemma floor_log2_spec (n d : Z) :
  0 < n -> 0 < d ->
  let '(lo, hi) := PyFloat.scale2 n d (- PyFloat.floor_log2 n d) in
  0 < hi /\ hi <= lo < 2 * hi.
Proof.
  intros Hn Hd. unfold PyFloat.floor_log2.
  set (e0 := Z.log2 n - Z.log2 d).
  assert (let '(a0, b0) := PyFloat.scale2 n d (- e0) in
          0 < b0 /\ b0 < 2 * a0 /\ a0 < 2 * b0) as H0.
  { pose proof (Z.log2_spec n Hn) as Hln.
    pose proof (Z.log2_spec d Hd) as Hld.
    pose proof (Z.log2_nonneg n) as Hn0. pose proof (Z.log2_nonneg d) as Hd0.
    rewrite Z.pow_succ_r in Hln, Hld by assumption.
    unfold PyFloat.scale2, e0. destruct (0 <=? - (Z.log2 n - Z.log2 d)) eqn:Hs.
    - assert (2 ^ Z.log2 d
              = 2 ^ Z.log2 n * 2 ^ (- (Z.log2 n - Z.log2 d))) as Hsum
          by (rewrite <- Z.pow_add_r by lia; f_equal; lia).
      pose proof (Z.pow_pos_nonneg 2 (Z.log2 n) ltac:(lia) Hn0).
      pose proof (Z.pow_pos_nonneg 2 (- (Z.log2 n - Z.log2 d))
                    ltac:(lia) ltac:(lia)).
      set (pn := 2 ^ Z.log2 n) in *. set (pd := 2 ^ Z.log2 d) in *.
      set (pk := 2 ^ (- (Z.log2 n - Z.log2 d))) in *.
      clearbody pn pd pk. nia.
    - assert (2 ^ Z.log2 n
              = 2 ^ Z.log2 d * 2 ^ (- - (Z.log2 n - Z.log2 d))) as Hsum
          by (rewrite <- Z.pow_add_r by lia; f_equal; lia).
      pose proof (Z.pow_pos_nonneg 2 (Z.log2 d) ltac:(lia) Hd0).
      pose proof (Z.pow_pos_nonneg 2 (- - (Z.log2 n - Z.log2 d))
                    ltac:(lia) ltac:(lia)).
      set (pn := 2 ^ Z.log2 n) in *. set (pd := 2 ^ Z.log2 d) in *.
      set (pk := 2 ^ (- - (Z.log2 n - Z.log2 d))) in *.
      clearbody pn pd pk. nia. }
  pose proof (scale2_shift n d (- e0) 1 Hn Hd) as Hshift.
  destruct (PyFloat.scale2 n d (- e0)) as [a0 b0] eqn:E0.
  destruct H0 as (Hb0 & Hlo & Hhi).
  destruct (b0 <=? a0) eqn:Hcmp.
  - rewrite E0. lia.
  - replace (- (e0 - 1)) with (- e0 + 1) by lia.
    destruct (PyFloat.scale2 n d (- e0 + 1)) as [a1 b1].
    destruct (Hshift ltac:(lia)) as (_ & Hb1 & Heq).
    change (2 ^ 1) with 2 in Heq. split; [exact Hb1|]. nia.
Qed.

(** With [2^e <= n / d < 2^(e+1)] and [a / b = n / d * 2^(52 - e)]: the
    significand [m] has 53 bits (or is [2^53], the next power of two), is
    within one half of [a / b], is even when [a / b] is halfway, and the
    result is [m * 2^(e - 52)]. *)
Theorem of_positive_nearest (n d : Z) :
  0 < n -> 0 < d ->
  let e := PyFloat.floor_log2 n d in
  let '(a, b) := PyFloat.scale2 n d (52 - e) in
  let m := PyFloat.round_half_even a b in
  0 < b /\
  2 ^ 52 * b <= a < 2 ^ 53 * b /\
  2 ^ 52 <= m <= 2 ^ 53 /\
  Z.abs (2 * a - 2 * m * b) <= b /\
  (2 * (a mod b) = b -> Z.even m = true) /\
  PyFloat.of_positive n d
  = if 52 <=? e then inject_Z (m * 2 ^ (e - 52))
    else Qmake m (Z.to_pos (2 ^ (52 - e))).
Proof.
  intros Hn Hd e.
  pose proof (floor_log2_spec n d Hn Hd) as Hspec. fold e in Hspec.
  pose proof (scale2_shift n d (- e) 52 Hn Hd) as Hshift.
  unfold PyFloat.of_positive. fold e.
  replace (- e + 52) with (52 - e) in Hshift by lia.
  destruct (PyFloat.scale2 n d (- e)) as [lo hi].
  destruct (PyFloat.scale2 n d (52 - e)) as [a b].
  destruct Hspec as (Hhi & Hle & Hlt).
  destruct (Hshift ltac:(lia)) as (_ & Hb & Heq).
  assert (2 ^ 52 * b <= a < 2 ^ 53 * b) as Hab.
  { change (2 ^ 53) with (2 * 2 ^ 52).
    pose proof (Z.pow_pos_nonneg 2 52 ltac:(lia) ltac:(lia)).
    set (P := 2 ^ 52) in *. clearbody P. nia. }
  split; [exact Hb|]. split; [exact Hab|]. split.
  { apply round_half_even_monotone_bounds; lia. }
  split; [now apply round_half_even_nearest|].
  split; [now apply round_half_even_ties_to_even|]. reflexivity.
Qed.

Lemma two_pow_pos (k : Z) : (0 < 2 ^ k)%Q.
Proof. apply Qpower_0_lt. reflexivity. Qed.

Lemma two_pow_opp (k : Z) : (2 ^ k * 2 ^ (- k) == 1)%Q.
Proof.
  rewrite Qpower_opp. field. apply Qpower_not_0. discriminate.
Qed.

Lemma scale2_Q (n d k : Z) :
  0 < d ->
  let '(a, b) := PyFloat.scale2 n d k in
  (inject_Z a == (n # Z.to_pos d) * 2 ^ k * inject_Z b)%Q.
Proof.
  intros Hd. unfold PyFloat.scale2.
  assert (inject_Z n == (n # Z.to_pos d) * inject_Z d)%Q as Hn.
  { rewrite Qmake_Qdiv, Z2Pos.id by exact Hd. field.
    intros H. apply (inject_Z_injective d 0) in H. lia. }
  destruct (0 <=? k) eqn:Hk.
  - rewrite inject_Z_mult, Zpower_Qpower by lia. rewrite Hn at 1.
    change (inject_Z 2) with 2%Q. ring.
  - rewrite inject_Z_mult, (Zpower_Qpower 2 (- k)) by lia.
    change (inject_Z 2) with 2%Q. rewrite Hn at 1.
    pose proof (two_pow_opp k) as Ho.
    transitivity ((n # Z.to_pos d) * inject_Z d * (2 ^ k * 2 ^ (- k)))%Q;
      [rewrite Ho; ring | ring].
Qed.

Lemma of_positive_value (n d : Z) :
  let e := PyFloat.floor_log2 n d in
  let '(a, b) := PyFloat.scale2 n d (52 - e) in
  (PyFloat.of_positive n d == inject_Z (PyFloat.round_half_even a b) * 2 ^ (e - 52))%Q.
Proof.
  intros e. unfold PyFloat.of_positive. fold e.
  destruct (PyFloat.scale2 n d (52 - e)) as [a b].
  set (m := PyFloat.round_half_even a b).
  destruct (52 <=? e) eqn:He.
  - rewrite inject_Z_mult, Zpower_Qpower by lia. reflexivity.
  - assert (0 < 2 ^ (52 - e)) as Hp by (apply Z.pow_pos_nonneg; lia).
    rewrite Qmake_Qdiv, Z2Pos.id by exact Hp.
    rewrite Zpower_Qpower by lia. change (inject_Z 2) with 2%Q.
    replace (e - 52) with (- (52 - e)) by lia.
    rewrite Qpower_opp. reflexivity.
Qed.

(** The same over the rationals: the result is within half a unit in the
    last place, [2^(e - 53)], of [n / d]. *)
Theorem of_positive_error (n d : Z) :
  0 < n -> 0 < d ->
  let x := n # Z.to_pos d in
  let e := PyFloat.floor_log2 n d in
  (2 ^ e <= x /\ x < 2 ^ (e + 1) /\
   Qabs (x - PyFloat.of_positive n d) <= 2 ^ (e - 53))%Q.
Proof.
  intros Hn Hd x e.
  pose proof (floor_log2_spec n d Hn Hd) as Hspec. fold e in Hspec.
  pose proof (scale2_Q n d (- e) Hd) as Hq. fold x in Hq.
  destruct (PyFloat.scale2 n d (- e)) as [lo hi].
  destruct Hspec as (Hhi & Hle & Hlt).
  pose proof (two_pow_pos e) as HS. pose proof (two_pow_pos (- e)) as HT.
  pose proof (two_pow_opp e) as HST.
  assert (2 ^ (e + 1) == 2 * 2 ^ e)%Q as Hs1.
  { rewrite Qpower_plus by discriminate. change (2 ^ 1)%Q with 2%Q. ring. }
  rewrite Zlt_Qlt in Hhi. rewrite Zle_Qle in Hle. rewrite Zlt_Qlt in Hlt.
  rewrite inject_Z_mult in Hlt. change (inject_Z 2) with 2%Q in Hlt.
  change (inject_Z 0) with 0%Q in Hhi.
  set (S := (2 ^ e)%Q) in *. set (T := (2 ^ (- e))%Q) in *.
  set (H := inject_Z hi) in *. set (L := inject_Z lo) in *.
  assert (1 <= x * T /\ x * T < 2)%Q as [H1 H2].
  { split.
    - apply Qnot_lt_le. intros Hc.
      assert (x * T * H < 1 * H)%Q by (apply Qmult_lt_compat_r; assumption).
      lra.
    - apply Qnot_le_lt. intros Hc.
      assert (2 * H <= x * T * H)%Q
        by (apply Qmult_le_compat_r; [assumption | lra]).
      lra. }
  assert (x == x * T * S)%Q as Hx.
  { transitivity (x * (S * T))%Q; [rewrite HST; ring | ring]. }
  split; [|split].
  - assert (1 * S <= x * T * S)%Q
      by (apply Qmult_le_compat_r; [assumption | lra]).
    lra.
  - rewrite Hs1.
    assert (x * T * S < 2 * S)%Q by (apply Qmult_lt_compat_r; assumption).
    lra.
  - pose proof (of_positive_nearest n d Hn Hd) as Hnear.
    pose proof (of_positive_value n d) as Hval.
    pose proof (scale2_Q n d (52 - e) Hd) as Hq2. fold x in Hq2.
    cbv zeta in Hnear, Hval. fold e in Hnear, Hval.
    destruct (PyFloat.scale2 n d (52 - e)) as [a b].
    destruct Hnear as (Hb & _ & _ & Habs & _ & _).
    rewrite Hval.
    set (m := PyFloat.round_half_even a b) in *. clearbody m.
    pose proof (two_pow_pos (e - 52)) as HU.
    pose proof (two_pow_opp (52 - e)) as HTU.
    replace (- (52 - e)) with (e - 52) in HTU by lia.
    assert (2 ^ (e - 53) == 2 ^ (e - 52) * (1 # 2))%Q as Hhalf.
    { replace (e - 53) with ((e - 52) + -1) by lia.
      rewrite Qpower_plus by discriminate. reflexivity. }
    rewrite Hhalf.
    assert (2 * m * b <= 2 * a + b) as Hlo' by lia.
    assert (2 * a <= 2 * m * b + b) as Hhi' by lia.
    rewrite Zle_Qle in Hlo', Hhi'. rewrite Zlt_Qlt in Hb.
    rewrite !inject_Z_plus, !inject_Z_mult in Hlo', Hhi'.
    change (inject_Z 2) with 2%Q in *. change (inject_Z 0) with 0%Q in Hb.
    set (A := inject_Z a) in *. set (B := inject_Z b) in *.
    set (M := inject_Z m) in *.
    set (T' := (2 ^ (52 - e))%Q) in *. set (U := (2 ^ (e - 52))%Q) in *.
    assert (- (1 # 2) <= x * T' - M /\ x * T' - M <= 1 # 2)%Q as [G1 G2].
    { split.
      - apply Qnot_lt_le. intros Hc.
        assert ((x * T' - M) * B < - (1 # 2) * B)%Q
          by (apply Qmult_lt_compat_r; assumption).
        lra.
      - apply Qnot_lt_le. intros Hc.
        assert ((1 # 2) * B < (x * T' - M) * B)%Q
          by (apply Qmult_lt_compat_r; assumption).
        lra. }
    assert (x - M * U == (x * T' - M) * U)%Q as ->.
    { transitivity (x * (T' * U) - M * U)%Q; [rewrite HTU; ring | ring]. }
    apply Qabs_Qle_condition. split.
    + assert (- (1 # 2) * U <= (x * T' - M) * U)%Q
        by (apply Qmult_le_compat_r; [assumption | lra]).
      lra.
    + assert ((x * T' - M) * U <= (1 # 2) * U)%Q
        by (apply Qmult_le_compat_r; [assumption | lra]).
      lra.
Qed.

(** The quotients [from_wei_gwei] returns are far from the ends of the
    exponent range of binary64, which is [-1022 .. 1023]. *)
Lemma gwei_exponent_in_range (p : Z) :
  0 < p <= MAX_WEI -> -30 <= PyFloat.floor_log2 p 1000000000 <= 226.
Proof.
  intros [Hp Hmax].
  pose proof (floor_log2_spec p 1000000000 Hp ltac:(lia)) as Hspec.
  set (e := PyFloat.floor_log2 p 1000000000) in *. clearbody e.
  unfold PyFloat.scale2 in Hspec.
  destruct (0 <=? - e) eqn:Hs.
  - destruct Hspec as (_ & _ & Hlt). split; [|lia].
    destruct (Z.le_gt_cases (-30) e) as [|Hlow]; [assumption|exfalso].
    assert (2 ^ 31 <= 2 ^ (- e)) by (apply Z.pow_le_mono_r; lia).
    change (2 ^ 31) with 2147483648 in *. nia.
  - destruct Hspec as (_ & Hle & _). split; [lia|].
    destruct (Z.le_gt_cases e 226) as [|Hhigh]; [assumption|exfalso].
    assert (2 ^ 227 <= 2 ^ (- - e)) by (apply Z.pow_le_mono_r; lia).
    unfold MAX_WEI in Hmax.
    change (2 ^ 256) with (536870912 * 2 ^ 227) in Hmax.
    pose proof (Z.pow_pos_nonneg 2 227 ltac:(lia) ltac:(lia)).
    set (P := 2 ^ 227) in *. set (Q := 2 ^ (- - e)) in *.
    clearbody P Q. nia.
Qed.

(** [float] at some decimals: 0.1 is [0x1.999999999999ap-4], integers below
    [2^53] are exact, [2^53 + 1] is halfway and goes to the even neighbour
    [2^53], [2^53 + 3] to [2^53 + 4], and one wei above [2^24] gwei is less
    than half a unit in the last place (of [2^-28]) above [2^24]. *)
Example float_examples :
  (PyFloat.of_Q (1 # 10) == 3602879701896397 # 36028797018963968)%Q /\
  (PyFloat.of_Q (25000000000 # 1000000000) == inject_Z 25)%Q /\
  (PyFloat.of_Q (inject_Z (2 ^ 53 + 1)) == inject_Z (2 ^ 53))%Q /\
  (PyFloat.of_Q (inject_Z (2 ^ 53 + 3)) == inject_Z (2 ^ 53 + 4))%Q /\
  (PyFloat.of_Q (16777216000000001 # 1000000000) == inject_Z 16777216)%Q /\
  (PyFloat.of_Q (16777216000000002 # 1000000000)
   == inject_Z 16777216 + (1 # 2 ^ 28))%Q.
Proof. repeat split; vm_compute; reflexivity. Qed.

(** ** GasPriceGate *)

Lemma gate_blocked_snoc config rs r tr :
  gate_blocked config (r :: rs) ++ tr
  = gate_blocked config rs ++ gate_blocked_round config r ++ tr.
Proof. simpl. now rewrite <- app_assoc. Qed.

(** One turn of the gate's loop, by cases on the reading and on what
    lines 128-129 make of it. *)
Lemma gas_price_gate_step (o : oracle) (fuel : nat) (config : Config) (tr : trace) :
  gas_price_gate o (S fuel) config tr
  = match gas_price o (eth_rpc_url config) tr with
    | Err e =>
        gas_price_gate o fuel config (gate_blocked_round config (Err e) ++ tr)
    | Ok p =>
        match gwei_of_wei p with
        | Err e => (Raise e, EvGasPrice (eth_rpc_url config) (Ok p) :: tr)
        | Ok gas_gwei =>
            if Qle_bool gas_gwei (max_gwei config)
            then (Ret p, EvGasPrice (eth_rpc_url config) (Ok p) :: tr)
            else gas_price_gate o fuel config
                   (gate_blocked_round config (Ok p) ++ tr)
        end
    end.
Proof.
  cbn [gas_price_gate]. unfold bind at 1, try_except, web3_gas_price, call.
  destruct (gas_price o (eth_rpc_url config) tr) as [p|e]; [|reflexivity].
  unfold bind at 1, lift.
  destruct (gwei_of_wei p) as [g|e]; [|reflexivity].
  unfold ret at 1.
  destruct (Qle_bool g (max_gwei config)); reflexivity.
Qed.

Lemma blocks_step (o : oracle) (fuel : nat) (config : Config) (tr : trace) :
  blocks config (gas_price o (eth_rpc_url config) tr) = true ->
  gas_price_gate o (S fuel) config tr
  = gas_price_gate o fuel config
      (gate_blocked_round config (gas_price o (eth_rpc_url config) tr) ++ tr).
Proof.
  intros Hb. rewrite gas_price_gate_step.
  destruct (gas_price o (eth_rpc_url config) tr) as [p|e]; [|reflexivity].
  simpl in Hb. destruct (gwei_of_wei p) as [g|e]; [|discriminate].
  destruct (Qle_bool g (max_gwei config)); [discriminate | reflexivity].
Qed.

Lemma acceptable_step (o : oracle) (fuel : nat) (config : Config) (tr : trace)
      (p : Z) :
  gas_price o (eth_rpc_url config) tr = Ok p ->
  acceptable config (Ok p) = true ->
  gas_price_gate o (S fuel) config tr
  = (Ret p, EvGasPrice (eth_rpc_url config) (Ok p) :: tr).
Proof.
  intros Hr Ha. rewrite gas_price_gate_step, Hr.
  simpl in Ha. destruct (gwei_of_wei p) as [g|e]; [|discriminate].
  now rewrite Ha.
Qed.

(** What [from_wei] refuses, and nothing else, makes line 128 raise. *)
Lemma gwei_of_wei_err (p : Z) (e : exn) :
  gwei_of_wei p = Err e ->
  (p < 0 \/ MAX_WEI < p) /\
  e = mkExn "ValueError" "value must be between 1 and 2**256 - 1".
Proof.
  unfold gwei_of_wei, from_wei_gwei.
  destruct (p =? 0); [discriminate|].
  destruct (p <? 0) eqn:Hneg; simpl.
  - intros [= <-]. split; [left; lia | reflexivity].
  - destruct (MAX_WEI <? p) eqn:Hbig; [|discriminate].
    intros [= <-]. split; [right; lia | reflexivity].
Qed.

Lemma gwei_of_wei_in_range (p : Z) :
  0 <= p <= MAX_WEI -> exists gas_gwei, gwei_of_wei p = Ok gas_gwei.
Proof.
  intros Hp. unfold gwei_of_wei, from_wei_gwei.
  destruct (p =? 0); [eauto|].
  destruct (p <? 0) eqn:Hneg; [lia|].
  destruct (MAX_WEI <? p) eqn:Hbig; [lia|]. simpl. eauto.
Qed.

(** C5 (as the code has it): whatever readings the reference chain serves, if
    [readings] each send the gate round its loop again (the read failed, or
    the reading's gwei value as the float of line 128 is above the ceiling)
    and the next reading succeeds with a gwei value that, as that float, is
    at most the ceiling, then the gate returns this reading right after
    reading it, having logged and slept 10 seconds through every earlier one;
    a failed reading is logged as a warning and is not compared with the
    ceiling. *)
Theorem gas_price_gate_returns_at_first_acceptable
        (o : oracle) (config : Config) (readings : list (result Z))
        (accepted : Z) (fuel : nat) (tr : trace) :
  gate_readings o config tr (readings ++ [Ok accepted]) ->
  Forall (fun r => blocks config r = true) readings ->
  acceptable config (Ok accepted) = true ->
  (List.length readings < fuel)%nat ->
  gas_price_gate o fuel config tr
  = (Ret accepted,
     EvGasPrice (eth_rpc_url config) (Ok accepted)
       :: gate_blocked config readings ++ tr).
Proof.
  revert fuel tr.
  induction readings as [|r rs IH]; intros fuel tr Hserve Hblock Hacc Hfuel;
    (destruct fuel as [|fuel]; [simpl in Hfuel; lia |]).
  - destruct Hserve as [Hr _]. now apply acceptable_step.
  - destruct Hserve as [Hr Hrest]. inversion Hblock as [|? ? Hr0 Hrs]; subst.
    rewrite gate_blocked_snoc.
    rewrite <- (IH fuel _ Hrest Hrs Hacc) by (simpl in Hfuel; lia).
    now apply blocks_step.
Qed.

Lemma gas_price_gate_returns_at_first_acceptable_witness :
  gas_price_gate (Scenario.play Scenario.gas_50_40_25) 3 Scenario.config []
  = (Ret 25000000000,
     EvGasPrice "https://eth" (Ok 25000000000)
       :: gate_blocked Scenario.config [Ok 50000000000; Ok 40000000000] ++ []).
Proof.
  apply (gas_price_gate_returns_at_first_acceptable
           (Scenario.play Scenario.gas_50_40_25) Scenario.config
           [Ok 50000000000; Ok 40000000000] 25000000000 3 []).
  - simpl. repeat split; reflexivity.
  - repeat constructor.
  - reflexivity.
  - simpl. lia.
Defined.

(** C5 fails as stated: with a ceiling of [2^24] gwei, a reading of one wei
    more than [2^24] gwei has a gwei value above the ceiling, yet the gate
    returns at it: the float of line 128 nearest to 16777216.000000001 is
    16777216.0. *)
Lemma gas_price_gate_passes_reading_above_ceiling :
  let reading := 16777216000000001 in
  (max_gwei Cases.ceiling_2_pow_24 < reading # 1000000000)%Q /\
  gas_price_gate (Scenario.play (Cases.reads reading)) 1
                 Cases.ceiling_2_pow_24 []
  = (Ret reading, [EvGasPrice "https://eth" (Ok reading)]).
Proof. cbv zeta. split; [reflexivity | vm_compute; reflexivity]. Qed.

(** Nor does the gate return or block at a successful reading that
    [from_wei] refuses: [-1] is below every ceiling and [2^256] is above
    the ceiling of 30 gwei, and at both the gate raises. *)
Example gas_price_gate_raises_out_of_range :
  exists e,
    exn_type e = "ValueError" /\
    gas_price_gate (Scenario.play (Cases.reads (-1))) 3 Scenario.config []
    = (Raise e, [EvGasPrice "https://eth" (Ok (-1))]) /\
    gas_price_gate (Scenario.play (Cases.reads (2 ^ 256))) 3 Scenario.config []
    = (Raise e, [EvGasPrice "https://eth" (Ok (2 ^ 256))]).
Proof. eexists. split; [|split; vm_compute; reflexivity]. reflexivity. Qed.

(** ** Proof automation *)

Ltac unfold_calls H :=
  unfold web3_chain_id, web3_gas_price, web3_get_transaction_count,
    web3_get_balance, web3_estimate_gas, account_sign_transaction,
    web3_send_raw_transaction, utils_wait_for_transaction_receipt,
    utils_suggest_gas_fees, open_merkly_abi, merkly_estimateSendFee,
    utils_random_string, random_randint_, solcx_install_solc,
    solcx_set_solc_version, solcx_compile_source, utils_load_accounts,
    Config_load_, utils_random_sleep, logger_info, logger_warning,
    logger_error, time_sleep in H.

(** Symbolic execution of a straight-line computation in hypothesis [H]: one
    case per answer of each call, then the result and the final history are
    read off. *)
Ltac run_in H :=
  unfold_calls H;
  repeat (cbv beta iota zeta
              delta [bind call sample emit ret raise lift try_except
                     out_of_fuel fst snd] in H;
  match type of H with
  | context [match ?x with _ => _ end] =>
      lazymatch x with
      | context [match _ with _ => _ end] => fail
      | context [if _ then _ else _] => fail
      | _ => destruct x eqn:?
      end
  | context [if ?x then _ else _] =>
      lazymatch x with
      | context [match _ with _ => _ end] => fail
      | context [if _ then _ else _] => fail
      | _ => destruct x eqn:?
      end
  end);
  inversion H; subst; clear H.

Ltac prefix_of l tr :=
  lazymatch l with
  | tr => constr:(@nil event)
  | ?e :: ?l' => let p := prefix_of l' tr in constr:(e :: p)
  end.

(** The events added to [tr] in a goal [exists es, e1 :: .. :: tr = es ++ tr /\ _]. *)
Ltac exists_emitted :=
  lazymatch goal with
  | |- exists es, ?l = es ++ ?tr /\ _ =>
      let p := prefix_of l tr in exists p; split; [reflexivity|]
  end.

(** Case analysis on [H : In e [e1; ..; en]]. *)
Ltac in_cases H :=
  simpl in H;
  repeat match type of H with
         | _ \/ _ => destruct H as [H|H]
         end;
  try discriminate H; try contradiction.

Create HintDb emits discriminated.

Ltac emits_auto :=
  repeat first
    [ solve [auto with emits nocore]
    | apply emits_bind; [| intros ?]
    | apply emits_ret | apply emits_raise | apply emits_lift
    | apply emits_out_of_fuel
    | apply emits_try_except
    | apply emits_call; intros ?
    | apply emits_sample; intros ?
    | apply emits_emit
    | match goal with
      | |- emits _ (match ?x with _ => _ end) => destruct x
      | |- emits _ (if ?x then _ else _) => destruct x
      end ].

Ltac event_facts :=
  lazymatch goal with |- emits _ _ => fail | _ => idtac end;
  unfold quiet_event, bridge_side_event, deploy_side_event, deployment_event,
    bridge_event, event_txn, is_send, is_random_sleep; cbn;
  repeat split; try reflexivity; try congruence.

(** ** What each part of the program adds to the history *)

Lemma gas_price_gate_quiet o fuel config :
  emits quiet_event (gas_price_gate o fuel config).
Proof.
  induction fuel as [|fuel IH]; cbn [gas_price_gate]; emits_auto; event_facts.
Qed.
#[local] Hint Resolve gas_price_gate_quiet : emits.

Lemma balance_wait_quiet o fuel config address b :
  emits quiet_event (balance_wait o fuel config address b).
Proof.
  induction fuel as [|fuel IH]; cbn [balance_wait]; emits_auto; event_facts.
Qed.
#[local] Hint Resolve balance_wait_quiet : emits.

Lemma random_values_quiet o config names d :
  emits quiet_event (random_values o config names d).
Proof.
  revert d. induction names as [|n names IH]; intros d; cbn [random_values];
    emits_auto; event_facts.
Qed.
#[local] Hint Resolve random_values_quiet : emits.

Lemma generate_contract_quiet L o config :
  emits quiet_event (generate_contract L o config).
Proof.
  unfold generate_contract, random_choice_, getitem.
  emits_auto; event_facts.
Qed.
#[local] Hint Resolve generate_contract_quiet : emits.

Lemma deploy_prepare_quiet L o config key fuel :
  emits quiet_event (deploy_prepare L o config key fuel).
Proof. unfold deploy_prepare. emits_auto; event_facts. Qed.

Lemma bridge_to_scroll_bridge_side L o rpc explorer key amount :
  emits bridge_side_event (bridge_to_scroll L o rpc explorer key amount).
Proof. unfold bridge_to_scroll, suggest_fee. emits_auto; event_facts. Qed.

Lemma deploy_submit_deploy_side L o config key t :
  is_constructor t = true ->
  emits deploy_side_event (deploy_submit L o config key t).
Proof.
  intros Ht. unfold deploy_submit.
  emits_auto; event_facts.
  all: unfold is_constructor in *; cbn; try rewrite Ht; auto.
Qed.

Lemma quiet_not_pacing e : quiet_event e -> is_random_sleep e = false.
Proof. unfold quiet_event. tauto. Qed.

Lemma quiet_not_bridge e : quiet_event e -> bridge_event e = false.
Proof. unfold quiet_event. tauto. Qed.

Lemma quiet_not_deployment e : quiet_event e -> deployment_event e = false.
Proof. unfold quiet_event, deployment_event. now intros [-> _]. Qed.

Lemma quiet_preserves_submissions es tr :
  Forall quiet_event es ->
  submissions_estimated tr -> submissions_estimated (es ++ tr).
Proof.
  induction 1 as [|e es [Htx [Hsend _]] _ IH]; intros Hinv; [exact Hinv|].
  specialize (IH Hinv).
  destruct e; try discriminate; exact IH.
Qed.

(** The gate returns only a value it has just read and found acceptable,
    after readings that all blocked it. *)
Lemma gas_price_gate_ret o fuel config tr accepted tr' :
  gas_price_gate o fuel config tr = (Ret accepted, tr') ->
  exists readings,
    tr' = EvGasPrice (eth_rpc_url config) (Ok accepted)
            :: gate_blocked config readings ++ tr /\
    acceptable config (Ok accepted) = true /\
    Forall (fun r => blocks config r = true) readings.
Proof.
  revert tr. induction fuel as [|fuel IH]; intros tr H; [discriminate|].
  rewrite gas_price_gate_step in H.
  destruct (gas_price o (eth_rpc_url config) tr) as [p|e] eqn:Hr.
  - destruct (gwei_of_wei p) as [g|e] eqn:Hg; [|discriminate].
    destruct (Qle_bool g (max_gwei config)) eqn:Hq.
    + inversion H; subst. exists []. simpl. rewrite Hg, Hq. auto.
    + apply IH in H as (rs & -> & Hacc & Hrs).
      exists (Ok p :: rs). rewrite gate_blocked_snoc.
      split; [reflexivity|]. split; [assumption|].
      constructor; [|assumption]. simpl. now rewrite Hg, Hq.
  - apply IH in H as (rs & -> & Hacc & Hrs).
    exists (Err e :: rs). rewrite gate_blocked_snoc.
    split; [reflexivity|]. split; [assumption|].
    constructor; [reflexivity | assumption].
Qed.

(** The balance wait returns only on a reading strictly above the recorded
    balance, after readings that all failed or showed no increase. *)
Lemma balance_wait_ret o fuel config address account_balance tr tr' :
  balance_wait o fuel config address account_balance tr = (Ret tt, tr') ->
  exists balance_after readings,
    tr' = EvGetBalance (scroll_rpc_url config) address (Ok balance_after)
            :: balance_blocked config address readings ++ tr /\
    account_balance < balance_after /\
    Forall (not_increased account_balance) readings.
Proof.
  revert tr. induction fuel as [|fuel IH]; intros tr H; [discriminate|].
  cbn [balance_wait] in H.
  unfold bind at 1, try_except, web3_get_balance, call in H.
  destruct (get_balance o (scroll_rpc_url config) address tr) as [b|e] eqn:Hr.
  - destruct (b >? account_balance) eqn:Hb.
    + inversion H; subst. exists b, []. simpl. repeat split; auto. lia.
    + apply IH in H as (b' & rs & -> & Hlt & Hrs).
      exists b', (Ok b :: rs). simpl. rewrite <- app_assoc.
      repeat split; auto. constructor; [simpl; lia | exact Hrs].
  - apply IH in H as (b' & rs & -> & Hlt & Hrs).
    exists b', (Err e :: rs). simpl. rewrite <- app_assoc.
    repeat split; auto. constructor; [exact I | exact Hrs].
Qed.

(** ** bridge_to_scroll *)




Example bridge_value_example :
  exists t r,
    In (EvEstimateGas "https://arbitrum" t r)
       (snd (bridge_to_scroll Scenario.lib
               (Scenario.play Scenario.bridge_then_deploy)
               "https://arbitrum" "https://arbiscan/tx/" Scenario.key1
               (1 # 1000) [])) /\
    tx_value t = 1100000000000000.
Proof. eexists _, _. split; [vm_compute; do 5 right; left; reflexivity | reflexivity]. Qed.

(** C8 (as the code has it): once the chain id is read, the fee step returns
    the suggested fee when there is one; when the suggestion is [None] it
    reads the gas price of the same endpoint, returns it as a legacy fee if
    the read succeeds, and raises the read's error if it fails. *)
Theorem suggest_fee_falls_back_to_gas_price
        (o : oracle) (rpc : string) (tr : trace) (cid : Z)
        (suggestion : option fee_quote) :
  chain_id o rpc tr = Ok cid ->
  suggest_gas_fees o cid (EvChainId rpc (Ok cid) :: tr) = Ok suggestion ->
  let tr2 := EvSuggestGasFees cid (Ok suggestion) :: EvChainId rpc (Ok cid) :: tr in
  suggest_fee o rpc tr
  = match suggestion with
    | Some fee => (Ret fee, tr2)
    | None =>
        (match gas_price o rpc tr2 with
         | Ok p => Ret (LegacyFee p)
         | Err e => Raise e
         end,
         EvGasPrice rpc (gas_price o rpc tr2) :: tr2)
    end.
Proof.
  intros Hcid Hs tr2. subst tr2.
  unfold suggest_fee, bind, web3_chain_id, utils_suggest_gas_fees,
    web3_gas_price, call, ret.
  rewrite Hcid, Hs. destruct suggestion as [fee|]; [reflexivity|].
  destruct (gas_price o rpc _); reflexivity.
Qed.

Lemma suggest_fee_falls_back_to_gas_price_witness :
  let o := Scenario.play Scenario.bridge_then_deploy in
  let tr2 := [EvSuggestGasFees 1 (Ok None); EvChainId "https://arbitrum" (Ok 1)] in
  suggest_fee o "https://arbitrum" []
  = (match gas_price o "https://arbitrum" tr2 with
     | Ok p => Ret (LegacyFee p)
     | Err e => Raise e
     end,
     EvGasPrice "https://arbitrum" (gas_price o "https://arbitrum" tr2) :: tr2).
Proof.
  intros o tr2.
  apply (suggest_fee_falls_back_to_gas_price o "https://arbitrum" [] 1 None);
    reflexivity.
Defined.

(** C8 fails as stated: with no suggestion and an unreachable endpoint the
    fallback read raises, and so do the fee step and [bridge_to_scroll]. *)
Lemma fee_fallback_raises_when_gas_price_unreadable :
  let o := Scenario.play Scenario.gas_price_unreachable in
  let e := mkExn "ConnectionError" "connection refused" in
  suggest_gas_fees o 1 [EvChainId "https://arbitrum" (Ok 1)] = Ok None /\
  fst (suggest_fee o "https://arbitrum" []) = Raise e /\
  fst (bridge_to_scroll Scenario.lib o "https://arbitrum"
         "https://arbiscan/tx/" Scenario.key1 (1 # 1000) []) = Raise e.
Proof. repeat split; vm_compute; reflexivity. Qed.

(** The life cycle of the bridge transaction. *)
Lemma bridge_to_scroll_lifecycle L o rpc explorer key amount tr r tr' :
  bridge_to_scroll L o rpc explorer key amount tr = (r, tr') ->
  submissions_estimated tr ->
  exists es,
    tr' = es ++ tr /\
    submissions_estimated tr' /\
    forall rpc' t e,
      In (EvEstimateGas rpc' t (Err e)) es ->
      r = Ret false /\ is_constructor t = false /\
      exists es',
        es = EvLog ERROR (estimation_failure_message (from_key L key) t e)
               :: EvEstimateGas rpc' t (Err e) :: es' /\
        Forall (fun ev => event_txn ev = None) es'.
Proof.
  intros H Hinv. unfold bridge_to_scroll, suggest_fee in H.
  run_in H.
  all: exists_emitted;
    (split; [cbn [submissions_estimated]; repeat split; eauto 10|]);
    intros rpc' t e' Hin; in_cases Hin; injection Hin as <- <- <-;
    (split; [reflexivity|]); (split; [reflexivity|]);
    unfold estimation_failure_message; cbn [is_constructor tx_call_of exn_str];
    match goal with Hc : PyStr.contains _ _ = _ |- _ => rewrite Hc end;
    eexists; (split; [reflexivity|]); repeat constructor.
Qed.

(** ** deploy_random_contract *)

(** The life cycle of the deployment transaction. *)
Lemma deploy_submit_lifecycle L o config key t tr r tr' :
  deploy_submit L o config key t tr = (r, tr') ->
  is_constructor t = true ->
  submissions_estimated tr ->
  exists es,
    tr' = es ++ tr /\
    submissions_estimated tr' /\
    forall rpc' t' e,
      In (EvEstimateGas rpc' t' (Err e)) es ->
      r = Ret false /\ t' = t /\
      es = [EvLog ERROR (estimation_failure_message (from_key L key) t' e);
            EvEstimateGas rpc' t' (Err e)].
Proof.
  intros H Ht Hinv. unfold deploy_submit in H.
  run_in H.
  all: exists_emitted;
    (split; [cbn [submissions_estimated]; repeat split; eauto 10|]);
    intros rpc' t' e' Hin; in_cases Hin; injection Hin as <- <- <-;
    (split; [reflexivity|]); (split; [reflexivity|]);
    unfold estimation_failure_message; rewrite Ht;
    match goal with Hc : PyStr.contains _ _ = _ |- _ => rewrite Hc end;
    reflexivity.
Qed.

Lemma random_values_generation o config names d :
  emits (fun e => generation_event e = true) (random_values o config names d).
Proof.
  revert d. induction names as [|n names IH]; intros d; cbn [random_values];
    emits_auto; reflexivity.
Qed.

Lemma generate_contract_generation L o config :
  emits (fun e => generation_event e = true) (generate_contract L o config).
Proof.
  unfold generate_contract, random_choice_, getitem.
  pose proof (random_values_generation o config) as Hv.
  emits_auto; reflexivity.
Qed.

Lemma bind_ret_ret {A B} (m : M A) (f : A -> M B) tr b tr' :
  bind m f tr = (Ret b, tr') ->
  exists a tr1, m tr = (Ret a, tr1) /\ f a tr1 = (Ret b, tr').
Proof.
  intros H.
  apply bind_ret_inv in H as [H | [(e & _ & H) | (_ & H)]];
    [exact H | discriminate | discriminate].
Qed.

(** The history of a [deploy_prepare] that returns: the gate's readings, the
    selection and compilation of the contract, then the chain id, the nonce
    and the balance read on the destination chain; the transaction is built
    from the gate's last reading and that nonce. *)
Lemma deploy_prepare_ret L o config key fuel tr t b tr1 :
  deploy_prepare L o config key fuel tr = (Ret (t, b), tr1) ->
  exists accepted readings es_gen contract cid n,
    tr1 = EvGetBalance (scroll_rpc_url config) (from_key L key) (Ok b)
            :: EvGetTransactionCount (scroll_rpc_url config) (from_key L key) (Ok n)
            :: EvChainId (scroll_rpc_url config) (Ok cid)
            :: es_gen
            ++ EvGasPrice (eth_rpc_url config) (Ok accepted)
            :: gate_blocked config readings
            ++ EvLog INFO (MsgDeploying (from_key L key)) :: tr /\
    Forall (fun e => generation_event e = true) es_gen /\
    acceptable config (Ok accepted) = true /\
    Forall (fun r => blocks config r = true) readings /\
    t = mkTxn cid n (from_key L key) 0 (LegacyFee accepted) 0
              (Constructor (fst contract) (snd contract)).
Proof.
  intros H. unfold deploy_prepare in H.
  apply bind_ret_ret in H as (u & tr0 & Hlog & H).
  inversion Hlog; subst; clear Hlog.
  apply bind_ret_ret in H as (accepted & trg & Hgate & H).
  apply gas_price_gate_ret in Hgate as (readings & -> & Hacc & Hblocked).
  apply bind_ret_ret in H as (contract & trc & Hgen & H).
  apply generate_contract_generation in Hgen as (es_gen & -> & Hgen).
  run_in H.
  eexists _, _, _, (_, _), _, _. split; [reflexivity|]. repeat split; eauto.
Qed.

Lemma deploy_prepare_constructor L o config key fuel tr t b tr1 :
  deploy_prepare L o config key fuel tr = (Ret (t, b), tr1) ->
  is_constructor t = true.
Proof.
  intros H. apply deploy_prepare_ret in H
    as (accepted & readings & es_gen & contract & cid & n & _ & _ & _ & _ & ->).
  reflexivity.
Qed.

(** With enough balance the run goes straight to the deployment. *)
Lemma deploy_random_contract_funded L o config key fuel tr t b tr1 :
  deploy_prepare L o config key fuel tr = (Ret (t, b), tr1) ->
  (b <? to_wei_ether L (bridge_amount config)) = false ->
  deploy_random_contract L o config key fuel tr
  = deploy_submit L o config key t tr1.
Proof.
  intros Hprep Hcmp. unfold deploy_random_contract.
  rewrite (bind_run_ret _ _ _ _ _ Hprep). cbn [fst snd]. now rewrite Hcmp.
Qed.

(** With a balance below the threshold the run goes through the bridge. *)
Lemma deploy_random_contract_short L o config key fuel tr t b tr1 r tr' :
  deploy_prepare L o config key fuel tr = (Ret (t, b), tr1) ->
  (b <? to_wei_ether L (bridge_amount config)) = true ->
  deploy_random_contract L o config key fuel tr = (r, tr') ->
  exists rb tr2,
    bridge_to_scroll L o (arbitrum_rpc_url config)
      (arbitrum_explorer_url config) key (bridge_amount config) tr1
    = (rb, tr2) /\
    ((rb = Ret true /\
      exists rw tr3,
        balance_wait o fuel config (from_key L key) b
          (EvLog INFO MsgWaitingBridge :: tr2) = (rw, tr3) /\
        ((rw = Ret tt /\ deploy_submit L o config key t tr3 = (r, tr'))
         \/ (rw <> Ret tt /\ tr' = tr3 /\ forall x, r <> Ret x)))
     \/
     (rb <> Ret true /\ tr' = tr2 /\
      r = match rb with
          | Ret _ => Ret false
          | Raise e => Raise e
          | OutOfFuel => OutOfFuel
          end)).
Proof.
  intros Hprep Hcmp H. unfold deploy_random_contract in H.
  rewrite (bind_run_ret _ _ _ _ _ Hprep) in H. cbn [fst snd] in H.
  rewrite Hcmp in H.
  destruct (bridge_to_scroll L o (arbitrum_rpc_url config)
              (arbitrum_explorer_url config) key (bridge_amount config) tr1)
    as [rb tr2] eqn:Hb.
  exists rb, tr2. split; [reflexivity|].
  unfold bind at 1 in H. rewrite Hb in H.
  destruct rb as [[|]|e|].
  - left. split; [reflexivity|]. cbn [negb] in H.
    unfold bind at 1, logger_info, emit in H.
    destruct (balance_wait o fuel config (from_key L key) b
                (EvLog INFO MsgWaitingBridge :: tr2)) as [rw tr3] eqn:Hw.
    exists rw, tr3. split; [reflexivity|].
    unfold bind at 1 in H. rewrite Hw in H.
    destruct rw as [[]|e|].
    + left. auto.
    + right. inversion H; subst. repeat split; discriminate.
    + right. inversion H; subst. repeat split; discriminate.
  - right. inversion H; subst. repeat split; discriminate.
  - right. inversion H; subst. repeat split; discriminate.
  - right. inversion H; subst. repeat split; discriminate.
Qed.

(** The ways a run of [deploy_random_contract] can go. *)
Lemma deploy_random_contract_run L o config key fuel tr r tr' :
  deploy_random_contract L o config key fuel tr = (r, tr') ->
  (exists es, tr' = es ++ tr /\ Forall quiet_event es /\ forall x, r <> Ret x)
  \/
  exists t b es_p,
    deploy_prepare L o config key fuel tr = (Ret (t, b), es_p ++ tr) /\
    Forall quiet_event es_p /\
    is_constructor t = true /\
    (((b <? to_wei_ether L (bridge_amount config)) = false /\
      deploy_submit L o config key t (es_p ++ tr) = (r, tr'))
     \/
     ((b <? to_wei_ether L (bridge_amount config)) = true /\
      exists rb tr2,
        bridge_to_scroll L o (arbitrum_rpc_url config)
          (arbitrum_explorer_url config) key (bridge_amount config)
          (es_p ++ tr) = (rb, tr2) /\
        ((rb = Ret true /\
          exists rw tr3,
            balance_wait o fuel config (from_key L key) b
              (EvLog INFO MsgWaitingBridge :: tr2) = (rw, tr3) /\
            ((rw = Ret tt /\ deploy_submit L o config key t tr3 = (r, tr'))
             \/ (rw <> Ret tt /\ tr' = tr3 /\ forall x, r <> Ret x)))
         \/
         (rb <> Ret true /\ tr' = tr2 /\
          r = match rb with
              | Ret _ => Ret false
              | Raise e => Raise e
              | OutOfFuel => OutOfFuel
              end)))).
Proof.
  intros H.
  destruct (deploy_prepare L o config key fuel tr) as [rp tr1] eqn:Hprep.
  pose proof Hprep as Hq. apply deploy_prepare_quiet in Hq as (es_p & -> & Hq).
  destruct rp as [[t b]|e|].
  - right. exists t, b, es_p.
    split; [reflexivity|]. split; [exact Hq|].
    split; [exact (deploy_prepare_constructor _ _ _ _ _ _ _ _ _ Hprep)|].
    destruct (b <? to_wei_ether L (bridge_amount config)) eqn:Hcmp.
    + right. split; [reflexivity|].
      exact (deploy_random_contract_short _ _ _ _ _ _ _ _ _ _ _ Hprep Hcmp H).
    + left. split; [reflexivity|].
      now rewrite <- (deploy_random_contract_funded _ _ _ _ _ _ _ _ _ Hprep Hcmp).
  - left. unfold deploy_random_contract in H.
    rewrite (bind_run_raise _ _ _ _ _ Hprep) in H. inversion H; subst.
    exists es_p. repeat split; auto; discriminate.
  - left. unfold deploy_random_contract in H.
    rewrite (bind_run_out_of_fuel _ _ _ _ Hprep) in H. inversion H; subst.
    exists es_p. repeat split; auto; discriminate.
Qed.

Lemma quiet_no_estimate es rpc t x :
  Forall quiet_event es -> ~ In (EvEstimateGas rpc t x) es.
Proof.
  intros Hq Hin. rewrite Forall_forall in Hq.
  apply Hq in Hin as [Htx _]. discriminate.
Qed.

Lemma quiet_no_txn (Q : txn -> Prop) es :
  Forall quiet_event es ->
  Forall (fun ev => forall t', event_txn ev = Some t' -> Q t') es.
Proof.
  intros Hq. eapply Forall_impl; [|exact Hq].
  intros ev [Htx _] t' Ht'. congruence.
Qed.

Lemma waiting_log_quiet : quiet_event (EvLog INFO MsgWaitingBridge).
Proof. repeat split. Qed.

(** C3: in every run of [deploy_random_contract] -- its bridge transaction
    and its deployment transaction alike -- a gas estimation that fails is
    followed by the error line only (the insufficient-funds line when the
    message contains "insufficient funds") and the attempt returns [False]:
    that transaction is neither signed nor sent.  Throughout, a transaction
    is sent only right after the signing of the transaction whose gas limit a
    successful estimation has just set. *)
Theorem estimation_failure_short_circuits
        L o config key fuel tr r tr' :
  deploy_random_contract L o config key fuel tr = (r, tr') ->
  submissions_estimated tr ->
  exists es,
    tr' = es ++ tr /\
    submissions_estimated tr' /\
    forall rpc t e,
      In (EvEstimateGas rpc t (Err e)) es ->
      r = Ret false /\
      exists es',
        es = EvLog ERROR (estimation_failure_message (from_key L key) t e)
               :: EvEstimateGas rpc t (Err e) :: es' /\
        Forall (fun ev => forall t', event_txn ev = Some t' ->
                                     is_constructor t' = negb (is_constructor t))
               es'.
Proof.
  intros H Hinv.
  apply deploy_random_contract_run in H
    as [(es & -> & Hq & Hr)
       | (t & b & es_p & Hprep & Hq & Hc &
          [[_ Hs] | [_ (rb & tr2 & Hb & Hrest)]])].
  - (* the preparation did not return *)
    exists es. split; [reflexivity|].
    split; [now apply quiet_preserves_submissions|].
    intros rpc t e Hin. now apply quiet_no_estimate in Hin.
  - (* no bridge *)
    pose proof (quiet_preserves_submissions _ _ Hq Hinv) as Hinv1.
    destruct (deploy_submit_lifecycle _ _ _ _ _ _ _ _ Hs Hc Hinv1)
      as (es_s & -> & Hinv' & Hfail).
    exists (es_s ++ es_p). rewrite <- app_assoc.
    split; [reflexivity|]. split; [exact Hinv'|].
    intros rpc t' e Hin. apply in_app_or in Hin as [Hin | Hin];
      [| now apply quiet_no_estimate in Hin].
    destruct (Hfail _ _ _ Hin) as (-> & -> & ->).
    split; [reflexivity|]. exists es_p. split; [reflexivity|].
    now apply quiet_no_txn.
  - (* bridge *)
    pose proof (quiet_preserves_submissions _ _ Hq Hinv) as Hinv1.
    destruct (bridge_to_scroll_lifecycle _ _ _ _ _ _ _ _ _ Hb Hinv1)
      as (es_b & -> & Hinv2 & Hfail_b).
    pose proof Hb as Hside.
    apply bridge_to_scroll_bridge_side in Hside as (es_b' & Heq & Hside).
    apply app_inv_tail in Heq. subst es_b'.
    destruct Hrest as [(-> & rw & tr3 & Hw & Hrest) | (Hrb & -> & ->)].
    + (* bridged: wait for the balance *)
      pose proof Hw as Hwq.
      apply balance_wait_quiet in Hwq as (es_w & -> & Hwq).
      assert (Forall quiet_event (es_w ++ [EvLog INFO MsgWaitingBridge])) as Hwq'
          by (apply Forall_app; split; [exact Hwq | repeat constructor]).
      assert (submissions_estimated
                (es_w ++ EvLog INFO MsgWaitingBridge :: es_b ++ es_p ++ tr))
        as Hinv3.
      { change (EvLog INFO MsgWaitingBridge :: es_b ++ es_p ++ tr)
          with ([EvLog INFO MsgWaitingBridge] ++ es_b ++ es_p ++ tr).
        rewrite app_assoc. now apply quiet_preserves_submissions. }
      destruct Hrest as [(_ & Hs) | (_ & -> & Hr)].
      * destruct (deploy_submit_lifecycle _ _ _ _ _ _ _ _ Hs Hc Hinv3)
          as (es_s & -> & Hinv' & Hfail).
        exists (es_s ++ (es_w ++ [EvLog INFO MsgWaitingBridge]) ++ es_b ++ es_p).
        split; [now rewrite <- !app_assoc|]. split; [exact Hinv'|].
        intros rpc t' e Hin. apply in_app_or in Hin as [Hin | Hin].
        -- destruct (Hfail _ _ _ Hin) as (-> & -> & ->).
           split; [reflexivity|]. eexists. split; [reflexivity|].
           rewrite Hc. cbn [negb].
           apply Forall_app. split; [now apply quiet_no_txn|].
           apply Forall_app. split; [| now apply quiet_no_txn].
           eapply Forall_impl; [|exact Hside].
           intros ev [Hd _] t' Ht'. unfold deployment_event in Hd.
           now rewrite Ht' in Hd.
        -- apply in_app_or in Hin as [Hin | Hin];
             [now apply quiet_no_estimate in Hin|].
           apply in_app_or in Hin as [Hin | Hin];
             [| now apply quiet_no_estimate in Hin].
           destruct (Hfail_b _ _ _ Hin) as (Hr & _). discriminate.
      * exists ((es_w ++ [EvLog INFO MsgWaitingBridge]) ++ es_b ++ es_p).
        split; [now rewrite <- !app_assoc|]. split; [exact Hinv3|].
        intros rpc t' e Hin.
        apply in_app_or in Hin as [Hin | Hin];
          [now apply quiet_no_estimate in Hin|].
        apply in_app_or in Hin as [Hin | Hin];
          [| now apply quiet_no_estimate in Hin].
        destruct (Hfail_b _ _ _ Hin) as (Hrb & _). discriminate.
    + (* the bridge did not succeed *)
      exists (es_b ++ es_p). split; [now rewrite <- app_assoc|].
      split; [exact Hinv2|].
      intros rpc t' e Hin. apply in_app_or in Hin as [Hin | Hin];
        [| now apply quiet_no_estimate in Hin].
      destruct (Hfail_b _ _ _ Hin) as (-> & Hnc & es' & -> & Hes').
      split; [reflexivity|]. exists (es' ++ es_p). split; [reflexivity|].
      apply Forall_app. split; [| now apply quiet_no_txn].
      eapply Forall_impl; [|exact Hes']. intros ev Hnone t'' Ht''. congruence.
Qed.

Lemma estimation_failure_short_circuits_witness :
  let run := deploy_random_contract Scenario.lib
               (Scenario.play Scenario.bridge_unfunded)
               Scenario.config Scenario.key1 3 [] in
  exists es,
    snd run = es ++ [] /\
    submissions_estimated (snd run) /\
    forall rpc t e,
      In (EvEstimateGas rpc t (Err e)) es ->
      fst run = Ret false /\
      exists es',
        es = EvLog ERROR (estimation_failure_message Scenario.address1 t e)
               :: EvEstimateGas rpc t (Err e) :: es' /\
        Forall (fun ev => forall t', event_txn ev = Some t' ->
                                     is_constructor t' = negb (is_constructor t))
               es'.
Proof.
  intros run.
  apply (estimation_failure_short_circuits Scenario.lib
           (Scenario.play Scenario.bridge_unfunded)
           Scenario.config Scenario.key1 3 [] (fst run) (snd run)).
  - vm_compute. reflexivity.
  - exact I.
Defined.

Example insufficient_funds_for_the_bridge :
  exists t es,
    deploy_random_contract Scenario.lib
      (Scenario.play Scenario.bridge_unfunded) Scenario.config Scenario.key1 3 []
    = (Ret false,
       EvLog ERROR (MsgInsufficientFundsBridge Scenario.address1)
         :: EvEstimateGas "https://arbitrum" t (Err Scenario.insufficient_funds)
         :: es) /\
    tx_value t = 1100000000000000.
Proof. eexists _, _. split; vm_compute; reflexivity. Qed.


Lemma bridge_side_not_deployment es :
  Forall bridge_side_event es ->
  Forall (fun e => deployment_event e = false) es.
Proof. apply Forall_impl. now intros e [H _]. Qed.

Lemma quiet_list_not_deployment es :
  Forall quiet_event es ->
  Forall (fun e => deployment_event e = false) es.
Proof. apply Forall_impl. exact quiet_not_deployment. Qed.

(** A bridge that returns [True] ends on its success line, and nothing it
    added to the history is a balance read. *)
Lemma bridge_to_scroll_true_shape L o rpc explorer key amount tr tr' :
  bridge_to_scroll L o rpc explorer key amount tr = (Ret true, tr') ->
  exists es,
    tr' = EvLog INFO (MsgBridged amount (from_key L key)) :: es ++ tr /\
    Forall (fun e => is_get_balance e = false) es.
Proof.
  intros H. unfold bridge_to_scroll, suggest_fee in H.
  run_in H.
  all: lazymatch goal with
       | |- exists es, _ :: ?l = _ :: es ++ ?tr /\ _ =>
           let p := prefix_of l tr in exists p; split; [reflexivity|]
       end;
    repeat constructor.
Qed.

Lemma bridge_to_scroll_no_balance_read L o rpc explorer key amount :
  emits (fun e => is_get_balance e = false)
        (bridge_to_scroll L o rpc explorer key amount).
Proof. unfold bridge_to_scroll, suggest_fee. emits_auto; reflexivity. Qed.

(** C4 (as the code has it): [bridge_to_scroll] never reads the destination
    balance, and it reports success -- the success line is the last thing it
    logs and it returns [True] -- all the same.  When the balance read before
    the bridge is below the threshold, a run of [deploy_random_contract]
    reaches the deployment transaction -- and can return [True] -- only
    after such a report and a later balance reading on the destination chain
    strictly above the balance recorded before the bridge; every earlier
    reading of the wait failed or showed no increase.  Otherwise the run adds
    no estimation or signing of a deployment transaction to the history and
    does not return [True]. *)
Theorem deployment_waits_for_balance_increase
        L o config key fuel tr t account_balance tr1 r tr' :
  deploy_prepare L o config key fuel tr = (Ret (t, account_balance), tr1) ->
  account_balance < to_wei_ether L (bridge_amount config) ->
  deploy_random_contract L o config key fuel tr = (r, tr') ->
  exists rb es_b,
    bridge_to_scroll L o (arbitrum_rpc_url config)
      (arbitrum_explorer_url config) key (bridge_amount config) tr1
    = (rb, es_b ++ tr1) /\
    Forall (fun e => is_get_balance e = false) es_b /\
    (rb = Ret true ->
     exists es_b',
       es_b = EvLog INFO (MsgBridged (bridge_amount config) (from_key L key))
                :: es_b') /\
    ((rb = Ret true /\
      exists balance_after readings,
        account_balance < balance_after /\
        Forall (not_increased account_balance) readings /\
        deploy_submit L o config key t
          (EvGetBalance (scroll_rpc_url config) (from_key L key)
                        (Ok balance_after)
             :: balance_blocked config (from_key L key) readings
             ++ EvLog INFO MsgWaitingBridge :: es_b ++ tr1)
        = (r, tr'))
     \/
     (exists es,
        tr' = es ++ tr1 /\
        Forall (fun e => deployment_event e = false) es /\
        r <> Ret true)).
Proof.
  intros Hprep Hshort H.
  assert ((account_balance <? to_wei_ether L (bridge_amount config)) = true)
    as Hcmp by (apply Z.ltb_lt; exact Hshort).
  destruct (deploy_random_contract_short _ _ _ _ _ _ _ _ _ _ _ Hprep Hcmp H)
    as (rb & tr2 & Hb & Hrest).
  pose proof Hb as Hnb.
  apply bridge_to_scroll_no_balance_read in Hnb as (es_b & -> & Hnb).
  pose proof Hb as Hside.
  apply bridge_to_scroll_bridge_side in Hside as (es_b0 & Heq & Hside).
  apply app_inv_tail in Heq as <-.
  apply bridge_side_not_deployment in Hside.
  exists rb, es_b. split; [exact Hb|]. split; [exact Hnb|]. split.
  { intros ->.
    destruct (bridge_to_scroll_true_shape _ _ _ _ _ _ _ _ Hb)
      as (es' & Heq & _).
    exists es'.
    change (EvLog INFO (MsgBridged (bridge_amount config) (from_key L key))
              :: es' ++ tr1)
      with ((EvLog INFO (MsgBridged (bridge_amount config) (from_key L key))
               :: es') ++ tr1) in Heq.
    now apply app_inv_tail in Heq. }
  destruct Hrest as [(-> & rw & tr3 & Hw & Hrest) | (Hrb & -> & ->)].
  - destruct Hrest as [(-> & Hs) | (Hrw & -> & Hr)].
    + left. split; [reflexivity|].
      apply balance_wait_ret in Hw
        as (balance_after & readings & -> & Hlt & Hblocked).
      exists balance_after, readings. auto.
    + right.
      apply balance_wait_quiet in Hw as (es_w & -> & Hwq).
      exists (es_w ++ EvLog INFO MsgWaitingBridge :: es_b).
      split; [now rewrite <- app_assoc|]. split; [| apply Hr].
      apply Forall_app. split; [now apply quiet_list_not_deployment|].
      constructor; [reflexivity | exact Hside].
  - right.
    exists es_b. split; [reflexivity|]. split; [exact Hside|].
    destruct rb as [[|]|e|]; congruence.
Qed.

Lemma deployment_waits_for_balance_increase_witness :
  let o := Scenario.play Scenario.bridge_then_deploy in
  let prepared := deploy_prepare Scenario.lib o Scenario.config Scenario.key1 5 [] in
  let run := deploy_random_contract Scenario.lib o Scenario.config Scenario.key1 5 [] in
  exists rb es_b,
    bridge_to_scroll Scenario.lib o "https://arbitrum" "https://arbiscan/tx/"
      Scenario.key1 (1 # 1000) (snd prepared)
    = (rb, es_b ++ snd prepared) /\
    Forall (fun e => is_get_balance e = false) es_b /\
    (rb = Ret true ->
     exists es_b',
       es_b = EvLog INFO (MsgBridged (1 # 1000) Scenario.address1) :: es_b') /\
    ((rb = Ret true /\
      exists balance_after readings,
        0 < balance_after /\
        Forall (not_increased 0) readings /\
        deploy_submit Scenario.lib o Scenario.config Scenario.key1
          (mkTxn 1 7 Scenario.address1 0 (LegacyFee 20000000000) 0
                 (Constructor "[]" "0x6080604052"))
          (EvGetBalance "https://scroll" Scenario.address1 (Ok balance_after)
             :: balance_blocked Scenario.config Scenario.address1 readings
             ++ EvLog INFO MsgWaitingBridge :: es_b ++ snd prepared)
        = (fst run, snd run))
     \/
     (exists es,
        snd run = es ++ snd prepared /\
        Forall (fun e => deployment_event e = false) es /\
        fst run <> Ret true)).
Proof.
  intros o prepared run.
  apply (deployment_waits_for_balance_increase Scenario.lib o Scenario.config
           Scenario.key1 5 []
           (mkTxn 1 7 Scenario.address1 0 (LegacyFee 20000000000) 0
                  (Constructor "[]" "0x6080604052"))
           0 (snd prepared) (fst run) (snd run)).
  - vm_compute. reflexivity.
  - vm_compute. reflexivity.
  - vm_compute. reflexivity.
Defined.

(** C4 fails as stated: the account holds nothing on the destination chain,
    the bridge transaction is confirmed, and the destination balance reads 0
    at every later poll.  [bridge_to_scroll] has returned [True] and the
    success line is in the log, although no reading of the destination
    balance is above the balance recorded before the bridge. *)
Lemma bridge_success_reported_without_balance_increase :
  let o := Scenario.play Cases.bridged_not_credited in
  let prepared := deploy_prepare Scenario.lib o Scenario.config Scenario.key1 3 [] in
  let run := deploy_random_contract Scenario.lib o Scenario.config Scenario.key1 3 [] in
  fst prepared
  = Ret (mkTxn 1 7 Scenario.address1 0 (LegacyFee 20000000000) 0
               (Constructor "[]" "0x6080604052"), 0) /\
  fst (bridge_to_scroll Scenario.lib o "https://arbitrum" "https://arbiscan/tx/"
         Scenario.key1 (1 # 1000) (snd prepared)) = Ret true /\
  In (EvLog INFO (MsgBridged (1 # 1000) Scenario.address1)) (snd run) /\
  existsb (balance_reading_above 0) (snd run) = false.
Proof.
  cbv zeta. split; [vm_compute; reflexivity|].
  split; [vm_compute; reflexivity|].
  split; [|vm_compute; reflexivity].
  vm_compute. solve [repeat first [left; reflexivity | right]].
Qed.

Example bridge_then_deploy_succeeds :
  let o := Scenario.play Scenario.bridge_then_deploy in
  fst (deploy_random_contract Scenario.lib o Scenario.config Scenario.key1 5 [])
  = Ret true /\
  count_events Scenario.is_balance
    (snd (deploy_random_contract Scenario.lib o Scenario.config Scenario.key1 5 []))
  = 4%nat.
Proof. split; vm_compute; reflexivity. Qed.

(** C6 (as the code has it): once the balance of the account has been read,
    a balance at or above the bridge threshold sends the run straight to the
    deployment, and the whole run adds no event of the bridge to the history;
    below the threshold [bridge_to_scroll] runs from the history the
    preparation left, and unless it returns [True] the run ends where the
    bridge ended, with nothing of the deployment attempted after it: the run
    returns [False] when the bridge returned [False], and raises the bridge's
    exception when the bridge raised. *)
Theorem bridge_only_when_balance_short
        L o config key fuel tr t account_balance tr1 r tr' :
  deploy_prepare L o config key fuel tr = (Ret (t, account_balance), tr1) ->
  deploy_random_contract L o config key fuel tr = (r, tr') ->
  if account_balance <? to_wei_ether L (bridge_amount config)
  then
    exists rb tr2 es,
      bridge_to_scroll L o (arbitrum_rpc_url config)
        (arbitrum_explorer_url config) key (bridge_amount config) tr1
      = (rb, tr2) /\
      tr' = es ++ tr2 /\
      match rb with
      | Ret true => True
      | Ret false => r = Ret false /\ es = []
      | Raise e => r = Raise e /\ es = []
      | OutOfFuel => r = OutOfFuel /\ es = []
      end
  else
    deploy_submit L o config key t tr1 = (r, tr') /\
    exists es,
      tr' = es ++ tr /\ Forall (fun e => bridge_event e = false) es.
Proof.
  intros Hprep H.
  pose proof (deploy_prepare_constructor _ _ _ _ _ _ _ _ _ Hprep) as Hc.
  destruct (account_balance <? to_wei_ether L (bridge_amount config)) eqn:Hcmp.
  - destruct (deploy_random_contract_short _ _ _ _ _ _ _ _ _ _ _ Hprep Hcmp H)
      as (rb & tr2 & Hb & Hrest).
    exists rb, tr2.
    destruct Hrest as [(-> & rw & tr3 & Hw & Hrest) | (Hrb & -> & ->)].
    + apply balance_wait_quiet in Hw as (es_w & -> & _).
      destruct Hrest as [(_ & Hs) | (_ & -> & _)].
      * apply (deploy_submit_deploy_side _ _ _ _ _ Hc) in Hs as (es_s & -> & _).
        exists (es_s ++ es_w ++ [EvLog INFO MsgWaitingBridge]).
        split; [exact Hb|]. split; [| exact I].
        now rewrite <- !app_assoc.
      * exists (es_w ++ [EvLog INFO MsgWaitingBridge]).
        split; [exact Hb|]. split; [| exact I].
        now rewrite <- !app_assoc.
    + exists []. split; [exact Hb|]. split; [reflexivity|].
      destruct rb as [[|]|e|]; auto.
  - rewrite (deploy_random_contract_funded _ _ _ _ _ _ _ _ _ Hprep Hcmp) in H.
    split; [exact H|].
    apply deploy_prepare_quiet in Hprep as (es_p & -> & Hq).
    apply (deploy_submit_deploy_side _ _ _ _ _ Hc) in H as (es_s & -> & Hs).
    exists (es_s ++ es_p). split; [now rewrite <- app_assoc|].
    apply Forall_app. split.
    + eapply Forall_impl; [|exact Hs]. now intros e [Hb _].
    + eapply Forall_impl; [|exact Hq]. exact quiet_not_bridge.
Qed.

Lemma bridge_only_when_balance_short_witness :
  let o := Scenario.play Scenario.bridge_unfunded in
  let prepared := deploy_prepare Scenario.lib o Scenario.config Scenario.key1 3 [] in
  let run := deploy_random_contract Scenario.lib o Scenario.config Scenario.key1 3 [] in
  exists rb tr2 es,
    bridge_to_scroll Scenario.lib o "https://arbitrum" "https://arbiscan/tx/"
      Scenario.key1 (1 # 1000) (snd prepared)
    = (rb, tr2) /\
    snd run = es ++ tr2 /\
    match rb with
    | Ret true => True
    | Ret false => fst run = Ret false /\ es = []
    | Raise e => fst run = Raise e /\ es = []
    | OutOfFuel => fst run = OutOfFuel /\ es = []
    end.
Proof.
  intros o prepared run.
  assert (deploy_prepare Scenario.lib o Scenario.config Scenario.key1 3 []
          = (Ret (mkTxn 1 7 Scenario.address1 0 (LegacyFee 20000000000) 0
                        (Constructor "[]" "0x6080604052"), 0),
             snd prepared)) as Hprep by (vm_compute; reflexivity).
  assert (deploy_random_contract Scenario.lib o Scenario.config Scenario.key1 3 []
          = (fst run, snd run)) as Hrun by (vm_compute; reflexivity).
  exact (bridge_only_when_balance_short _ _ _ _ _ _ _ _ _ _ _ Hprep Hrun).
Defined.

(** C6 fails as stated: the account's balance is below the threshold and the
    bridge is invoked, but the bridge fails by an exception (there is no fee
    suggestion and the source chain's gas price cannot be read), and the
    attempt does not return [False]: it raises that exception. *)
Lemma bridge_exception_leaves_the_attempt :
  let o := Scenario.play Scenario.gas_price_unreachable in
  let prepared := deploy_prepare Scenario.lib o Scenario.config Scenario.key1 3 [] in
  let run := deploy_random_contract Scenario.lib o Scenario.config Scenario.key1 3 [] in
  fst prepared
  = Ret (mkTxn 1 7 Scenario.address1 0 (LegacyFee 20000000000) 0
               (Constructor "[]" "0x6080604052"), 0) /\
  0 < to_wei_ether Scenario.lib (bridge_amount Scenario.config) /\
  fst (bridge_to_scroll Scenario.lib o "https://arbitrum" "https://arbiscan/tx/"
         Scenario.key1 (1 # 1000) (snd prepared))
  = Raise (mkExn "ConnectionError" "connection refused") /\
  fst run = Raise (mkExn "ConnectionError" "connection refused") /\
  fst run <> Ret false.
Proof.
  cbv zeta. split; [vm_compute; reflexivity|].
  split; [vm_compute; reflexivity|].
  split; [vm_compute; reflexivity|].
  split; [vm_compute; reflexivity|].
  vm_compute. discriminate.
Qed.

Example funded_account_skips_the_bridge :
  let run := deploy_random_contract Scenario.lib (Scenario.play Scenario.quiet)
               Scenario.config Scenario.key1 3 [] in
  fst run = Ret true /\ existsb bridge_event (snd run) = false.
Proof. split; vm_compute; reflexivity. Qed.

Lemma deploy_submit_same_transaction L o config key t :
  emits (fun e => forall t', event_txn e = Some t' ->
                             tx_fee t' = tx_fee t /\ tx_nonce t' = tx_nonce t)
        (deploy_submit L o config key t).
Proof.
  unfold deploy_submit. emits_auto; cbn; intros t' [=]; subst; auto.
Qed.

(** C10: the deployment transaction is built in [deploy_prepare] with the
    value the gas-price gate last read on the reference chain (the reading it
    accepted) as its legacy gas price and the nonce then read on the
    destination chain; nothing but the selection and compilation of the
    contract lies between the two reads, the balance is read after them, and
    the bridge and the balance wait come later still: every estimation or
    signing of a deployment transaction in the rest of the run carries that
    gas price and that nonce. *)
Theorem deployment_fee_and_nonce_fixed_at_build
        L o config key fuel tr t account_balance tr1 r tr' :
  deploy_prepare L o config key fuel tr = (Ret (t, account_balance), tr1) ->
  deploy_random_contract L o config key fuel tr = (r, tr') ->
  exists accepted readings es_gen cid nonce es,
    tr1 = EvGetBalance (scroll_rpc_url config) (from_key L key) (Ok account_balance)
            :: EvGetTransactionCount (scroll_rpc_url config) (from_key L key) (Ok nonce)
            :: EvChainId (scroll_rpc_url config) (Ok cid)
            :: es_gen
            ++ EvGasPrice (eth_rpc_url config) (Ok accepted)
            :: gate_blocked config readings
            ++ EvLog INFO (MsgDeploying (from_key L key)) :: tr /\
    Forall (fun e => generation_event e = true) es_gen /\
    tx_fee t = LegacyFee accepted /\
    tx_nonce t = nonce /\
    tr' = es ++ tr1 /\
    forall e t',
      In e es -> event_txn e = Some t' -> is_constructor t' = true ->
      tx_fee t' = LegacyFee accepted /\ tx_nonce t' = nonce.
Proof.
  intros Hprep H.
  pose proof (deploy_prepare_constructor _ _ _ _ _ _ _ _ _ Hprep) as Hc.
  destruct (deploy_prepare_ret _ _ _ _ _ _ _ _ _ Hprep)
    as (accepted & readings & es_gen & contract & cid & nonce &
        Htr1 & Hgen & _ & _ & Ht).
  exists accepted, readings, es_gen, cid, nonce.
  assert (exists es,
             tr' = es ++ tr1 /\
             Forall (fun e => forall t', event_txn e = Some t' ->
                                         is_constructor t' = true ->
                                         tx_fee t' = tx_fee t /\
                                         tx_nonce t' = tx_nonce t) es)
    as (es & Htr' & Hes).
  { assert (forall es, Forall quiet_event es ->
               Forall (fun e => forall t', event_txn e = Some t' ->
                                           is_constructor t' = true ->
                                           tx_fee t' = tx_fee t /\
                                           tx_nonce t' = tx_nonce t) es)
      as Hquiet.
    { intros es0. apply Forall_impl. intros e [Hn _] t' Ht'. congruence. }
    assert (forall tr0 r0 tr0',
               deploy_submit L o config key t tr0 = (r0, tr0') ->
               exists es, tr0' = es ++ tr0 /\
                 Forall (fun e => forall t', event_txn e = Some t' ->
                                             is_constructor t' = true ->
                                             tx_fee t' = tx_fee t /\
                                             tx_nonce t' = tx_nonce t) es)
      as Hsubmit.
    { intros tr0 r0 tr0' Hs.
      apply deploy_submit_same_transaction in Hs as (es & -> & Hs).
      exists es. split; [reflexivity|].
      eapply Forall_impl; [|exact Hs]. intros e He t' Ht' _. auto. }
    destruct (account_balance <? to_wei_ether L (bridge_amount config)) eqn:Hcmp.
    - destruct (deploy_random_contract_short _ _ _ _ _ _ _ _ _ _ _ Hprep Hcmp H)
        as (rb & tr2 & Hb & Hrest).
      apply bridge_to_scroll_bridge_side in Hb as (es_b & -> & Hside).
      assert (Forall (fun e => forall t', event_txn e = Some t' ->
                                          is_constructor t' = true ->
                                          tx_fee t' = tx_fee t /\
                                          tx_nonce t' = tx_nonce t) es_b)
        as Hes_b.
      { eapply Forall_impl; [|exact Hside].
        intros e [Hd _] t' Ht' Hc'. unfold deployment_event in Hd.
        rewrite Ht' in Hd. congruence. }
      destruct Hrest as [(_ & rw & tr3 & Hw & Hrest) | (_ & -> & _)].
      + apply balance_wait_quiet in Hw as (es_w & -> & Hwq).
        destruct Hrest as [(_ & Hs) | (_ & -> & _)].
        * apply Hsubmit in Hs as (es_s & -> & Hs).
          exists (es_s ++ es_w ++ EvLog INFO MsgWaitingBridge :: es_b).
          split; [now rewrite <- !app_assoc|].
          repeat (apply Forall_app; split); auto.
          constructor; [intros t' [=] | exact Hes_b].
        * exists (es_w ++ EvLog INFO MsgWaitingBridge :: es_b).
          split; [now rewrite <- !app_assoc|].
          apply Forall_app. split; auto.
          constructor; [intros t' [=] | exact Hes_b].
      + exists es_b. split; [reflexivity | exact Hes_b].
    - rewrite (deploy_random_contract_funded _ _ _ _ _ _ _ _ _ Hprep Hcmp) in H.
      now apply Hsubmit in H. }
  exists es.
  assert (tx_fee t = LegacyFee accepted /\ tx_nonce t = nonce) as [Hfee Hnonce]
      by (subst t; split; reflexivity).
  repeat (split; [assumption|]).
  intros e t' Hin Ht' Hc'. rewrite Forall_forall in Hes.
  destruct (Hes e Hin t' Ht' Hc') as [-> ->]. auto.
Qed.

Lemma deployment_fee_and_nonce_fixed_at_build_witness :
  let o := Scenario.play Scenario.gas_50_40_25 in
  let t := mkTxn 1 7 Scenario.address1 0 (LegacyFee 25000000000) 0
                 (Constructor "[]" "0x6080604052") in
  let prepared := deploy_prepare Scenario.lib o Scenario.config Scenario.key1 5 [] in
  let run := deploy_random_contract Scenario.lib o Scenario.config Scenario.key1 5 [] in
  exists accepted readings es_gen cid nonce es,
    snd prepared
    = EvGetBalance "https://scroll" Scenario.address1 (Ok 1000000000000000000)
        :: EvGetTransactionCount "https://scroll" Scenario.address1 (Ok nonce)
        :: EvChainId "https://scroll" (Ok cid)
        :: es_gen
        ++ EvGasPrice "https://eth" (Ok accepted)
        :: gate_blocked Scenario.config readings
        ++ EvLog INFO (MsgDeploying Scenario.address1) :: [] /\
    Forall (fun e => generation_event e = true) es_gen /\
    tx_fee t = LegacyFee accepted /\
    tx_nonce t = nonce /\
    snd run = es ++ snd prepared /\
    forall e t',
      In e es -> event_txn e = Some t' -> is_constructor t' = true ->
      tx_fee t' = LegacyFee accepted /\ tx_nonce t' = nonce.
Proof.
  intros o t prepared run.
  assert (deploy_prepare Scenario.lib o Scenario.config Scenario.key1 5 []
          = (Ret (t, 1000000000000000000), snd prepared)) as Hprep
      by (vm_compute; reflexivity).
  assert (deploy_random_contract Scenario.lib o Scenario.config Scenario.key1 5 []
          = (fst run, snd run)) as Hrun by (vm_compute; reflexivity).
  exact (deployment_fee_and_nonce_fixed_at_build _ _ _ _ _ _ _ _ _ _ _ Hprep Hrun).
Defined.

Example deployment_pays_the_reference_chain_price :
  let o := Scenario.play Scenario.gas_50_40_25 in
  exists t r,
    In (EvSignTransaction Scenario.key1 t r)
       (snd (deploy_random_contract Scenario.lib o Scenario.config Scenario.key1 5 [])) /\
    tx_fee t = LegacyFee 25000000000.
Proof.
  eexists _, _. split; [vm_compute; do 4 right; left; reflexivity | reflexivity].
Qed.

(** ** main *)

Lemma count_events_app f (a b : trace) :
  count_events f (a ++ b) = (count_events f a + count_events f b)%nat.
Proof. unfold count_events. now rewrite filter_app, length_app. Qed.

Lemma count_events_none f (es : trace) :
  Forall (fun e => f e = false) es -> count_events f es = 0%nat.
Proof.
  unfold count_events. induction 1 as [|e es He _ IH]; [reflexivity|].
  simpl. now rewrite He.
Qed.

Lemma deploy_submit_no_pacing L o config key t :
  emits (fun e => is_random_sleep e = false) (deploy_submit L o config key t).
Proof. unfold deploy_submit. emits_auto; reflexivity. Qed.

Lemma deploy_random_contract_no_pacing L o config key fuel :
  emits (fun e => is_random_sleep e = false)
        (deploy_random_contract L o config key fuel).
Proof.
  pose proof (deploy_submit_no_pacing L o config key) as Hsubmit.
  assert (emits (fun e => is_random_sleep e = false)
                (deploy_prepare L o config key fuel)) as Hprep
      by (eapply emits_weaken; [exact quiet_not_pacing | apply deploy_prepare_quiet]).
  assert (forall b,
             emits (fun e => is_random_sleep e = false)
                   (balance_wait o fuel config (from_key L key) b)) as Hwait
      by (intros b; eapply emits_weaken;
          [exact quiet_not_pacing | apply balance_wait_quiet]).
  assert (emits (fun e => is_random_sleep e = false)
                (bridge_to_scroll L o (arbitrum_rpc_url config)
                   (arbitrum_explorer_url config) key (bridge_amount config)))
    as Hbridge.
  { eapply emits_weaken; [| apply bridge_to_scroll_bridge_side].
    now intros e [_ H]. }
  unfold deploy_random_contract. emits_auto; reflexivity.
Qed.

(** Every attempt starts by logging the account it works for. *)
Lemma deploy_random_contract_attempt_logged L o config key fuel tr r tr' :
  deploy_random_contract L o config key fuel tr = (r, tr') ->
  In (EvLog INFO (MsgDeploying (from_key L key))) tr'.
Proof.
  intros H.
  assert (forall rp tr1,
             deploy_prepare L o config key fuel tr = (rp, tr1) ->
             In (EvLog INFO (MsgDeploying (from_key L key))) tr1) as Hlog.
  { intros rp tr1 Hp. unfold deploy_prepare in Hp.
    unfold bind at 1, logger_info, emit in Hp.
    match type of Hp with
    | ?m _ = _ => assert (emits quiet_event m) as Hm by (emits_auto; event_facts)
    end.
    apply Hm in Hp as (es & -> & _). apply in_or_app. right. now left. }
  destruct (deploy_prepare L o config key fuel tr) as [rp tr1] eqn:Hp.
  specialize (Hlog _ _ eq_refl).
  unfold deploy_random_contract in H.
  apply bind_ret_inv in H
    as [(p & tr1' & Hp' & H) | [(e & Hp' & _) | (Hp' & _)]];
    rewrite Hp in Hp'; inversion Hp'; subst; auto.
  match type of H with
  | ?m _ = _ =>
      assert (emits (fun e => is_random_sleep e = false) m) as Hm
  end.
  { pose proof (deploy_submit_no_pacing L o config key) as Hsubmit.
    assert (forall b,
               emits (fun e => is_random_sleep e = false)
                     (balance_wait o fuel config (from_key L key) b)) as Hwait
        by (intros b; eapply emits_weaken;
            [exact quiet_not_pacing | apply balance_wait_quiet]).
    assert (emits (fun e => is_random_sleep e = false)
                  (bridge_to_scroll L o (arbitrum_rpc_url config)
                     (arbitrum_explorer_url config) key (bridge_amount config)))
      as Hbridge.
    { eapply emits_weaken; [| apply bridge_to_scroll_bridge_side].
      now intros e [_ He]. }
    emits_auto; reflexivity. }
  apply Hm in H as (es & -> & _). apply in_or_app. now right.
Qed.

Lemma pacing_run config len index tr :
  pacing config len index tr
  = (Ret tt,
     if negb (index =? len - 1)
     then EvRandomSleep (min_sleep_time config) (max_sleep_time config) :: tr
     else tr).
Proof. unfold pacing. destruct (negb (index =? len - 1)); reflexivity. Qed.

(** [main]'s loop against the replay of its attempts. *)
Lemma main_loop_attempts L o fuel config len private_keys :
  forall index total tr,
    main_loop L o fuel config len index private_keys total tr
    = match fleet_verdict
              (fst (fleet_attempts L o fuel config len index private_keys tr)) with
      | Ret _ =>
          (Ret (total + count_deployed
                          (fst (fleet_attempts L o fuel config len index
                                               private_keys tr))),
           snd (fleet_attempts L o fuel config len index private_keys tr))
      | Raise e =>
          (Raise e, snd (fleet_attempts L o fuel config len index private_keys tr))
      | OutOfFuel =>
          (OutOfFuel, snd (fleet_attempts L o fuel config len index private_keys tr))
      end.
Proof.
  induction private_keys as [|key rest IH]; intros index total tr.
  - cbn. now rewrite Z.add_0_r.
  - cbn [main_loop fleet_attempts]. unfold bind at 1.
    destruct (deploy_random_contract L o config key fuel tr) as [[b|e|] tr1];
      [| reflexivity | reflexivity].
    unfold bind at 1.
    change (if negb (index =? len - 1)
            then utils_random_sleep (min_sleep_time config) (max_sleep_time config)
            else ret tt)
      with (pacing config len index).
    rewrite pacing_run. cbn [fst snd fleet_verdict count_deployed].
    rewrite IH. rewrite Z.add_assoc. reflexivity.
Qed.

Lemma count_deployed_returned bs :
  count_deployed (map Ret bs) = count_true bs.
Proof.
  unfold count_true. induction bs as [|b bs IH]; [reflexivity|].
  cbn [map count_deployed filter]. rewrite IH.
  destruct b; cbn [int_of_bool List.length]; lia.
Qed.

Lemma fleet_verdict_returned bs : fleet_verdict (map Ret bs) = Ret tt.
Proof. induction bs; simpl; auto. Qed.

(** When every attempt returns, every account is attempted, and the pacing
    sleep runs once between consecutive accounts. *)
Lemma fleet_attempts_all_returned L o fuel config len private_keys :
  forall index tr bs,
    fst (fleet_attempts L o fuel config len index private_keys tr) = map Ret bs ->
    Z.of_nat (List.length private_keys) + index = len ->
    List.length bs = List.length private_keys /\
    exists es,
      snd (fleet_attempts L o fuel config len index private_keys tr) = es ++ tr /\
      count_events is_random_sleep es = Nat.pred (List.length private_keys) /\
      forall key, In key private_keys ->
                  In (EvLog INFO (MsgDeploying (from_key L key))) (es ++ tr).
Proof.
  induction private_keys as [|key rest IH]; intros index tr bs Hbs Hlen.
  - destruct bs; [|discriminate]. split; [reflexivity|].
    exists []. repeat split; auto. intros key [].
  - cbn [fleet_attempts] in *.
    destruct (deploy_random_contract L o config key fuel tr) as [r tr1] eqn:Hd.
    destruct r as [b|e|]; cbn [fst snd] in *;
      [| destruct bs; discriminate | destruct bs; discriminate].
    destruct bs as [|b' bs]; [discriminate|]. injection Hbs as _ Hbs.
    pose proof (deploy_random_contract_attempt_logged _ _ _ _ _ _ _ _ Hd) as Hlog.
    apply deploy_random_contract_no_pacing in Hd as (es_d & -> & Hquiet).
    rewrite pacing_run in *. cbn [snd] in *.
    cbn [List.length] in Hlen.
    destruct (IH (index + 1) _ bs Hbs ltac:(lia)) as (Hl & es_r & Hes & Hcount & Hatt).
    split; [simpl; congruence|].
    destruct (index =? len - 1) eqn:Hlast; cbn [negb] in *.
    + apply Z.eqb_eq in Hlast.
      assert (rest = []) as -> by (destruct rest; [reflexivity | cbn [List.length] in Hlen; lia]).
      exists (es_r ++ es_d). rewrite Hes, <- app_assoc. split; [reflexivity|].
      split.
      * rewrite count_events_app, Hcount, (count_events_none _ _ Hquiet).
        reflexivity.
      * intros k [<- | []]. apply in_or_app. now right.
    + apply Z.eqb_neq in Hlast.
      exists (es_r ++ EvRandomSleep (min_sleep_time config) (max_sleep_time config)
                   :: es_d).
      rewrite Hes, <- app_assoc. split; [reflexivity|]. split.
      * change (EvRandomSleep (min_sleep_time config) (max_sleep_time config) :: es_d)
          with ([EvRandomSleep (min_sleep_time config) (max_sleep_time config)] ++ es_d).
        rewrite !count_events_app, Hcount, (count_events_none _ _ Hquiet).
        destruct rest; [cbn [List.length] in Hlen; lia | cbn; lia].
      * intros k [<- | Hk].
        -- apply in_or_app. right. now right.
        -- now apply Hatt.
Qed.

Lemma main_run L o fuel tr private_keys config :
  load_accounts o tr = Ok private_keys ->
  Config_load o (EvLoadAccounts (Ok private_keys) :: tr) = Ok config ->
  main L o fuel tr
  = match main_loop L o fuel config (Z.of_nat (List.length private_keys)) 0
                    private_keys 0 (main_prologue private_keys config tr) with
    | (Ret total_deployed, tr') =>
        (Ret tt,
         tally_log (Z.of_nat (List.length private_keys)) total_deployed ++ tr')
    | (Raise e, tr') => (Raise e, tr')
    | (OutOfFuel, tr') => (OutOfFuel, tr')
    end.
Proof.
  intros Hload Hcfg.
  unfold main, utils_load_accounts, Config_load_, logger_info.
  unfold bind at 1, call. rewrite Hload.
  unfold bind at 1. rewrite Hcfg.
  unfold bind at 1, emit. unfold bind at 1.
  unfold bind at 1. fold (main_prologue private_keys config tr).
  destruct (main_loop L o fuel config (Z.of_nat (List.length private_keys)) 0
                      private_keys 0 (main_prologue private_keys config tr))
    as [[total|e|] tr']; [| reflexivity | reflexivity].
  unfold bind, tally_log, ret.
  destruct (Z.of_nat (List.length private_keys) - total =? 0); reflexivity.
Qed.

(** C9: when each of the n account attempts returns, main returns, its
    summary lines report as deployed the number s of attempts that returned
    [True] and as failed n - s (the second line is logged only when it is not
    zero), and the loop has slept between accounts exactly n - 1 times (never
    for an empty list, never after the last account). *)
Theorem fleet_tally_and_pacing
        L o fuel tr private_keys config (bs : list bool) :
  load_accounts o tr = Ok private_keys ->
  Config_load o (EvLoadAccounts (Ok private_keys) :: tr) = Ok config ->
  fst (fleet_attempts L o fuel config (Z.of_nat (List.length private_keys)) 0
                      private_keys (main_prologue private_keys config tr))
  = map Ret bs ->
  List.length bs = List.length private_keys /\
  exists es,
    main L o fuel tr
    = (Ret tt,
       tally_log (Z.of_nat (List.length private_keys)) (count_true bs)
         ++ es ++ main_prologue private_keys config tr) /\
    count_events is_random_sleep es = Nat.pred (List.length private_keys).
Proof.
  intros Hload Hcfg Hbs.
  destruct (fleet_attempts_all_returned L o fuel config _ private_keys 0 _ bs Hbs)
    as (Hlen & es & Hes & Hcount & _); [lia|].
  split; [exact Hlen|]. exists es. split; [| exact Hcount].
  rewrite (main_run _ _ _ _ _ _ Hload Hcfg), main_loop_attempts.
  rewrite Hbs, fleet_verdict_returned, count_deployed_returned, Hes.
  reflexivity.
Qed.

Lemma fleet_tally_and_pacing_witness :
  let o := Scenario.play Scenario.three_accounts in
  let keys := [Scenario.key1; Scenario.key2; Scenario.key3] in
  List.length [true; false; true] = List.length keys /\
  exists es,
    main Scenario.lib o 3 []
    = (Ret tt,
       tally_log 3 2 ++ es ++ main_prologue keys Scenario.config []) /\
    count_events is_random_sleep es = 2%nat.
Proof.
  intros o keys.
  apply (fleet_tally_and_pacing Scenario.lib o 3 [] keys Scenario.config
                                [true; false; true]).
  - reflexivity.
  - reflexivity.
  - vm_compute. reflexivity.
Defined.

Example three_accounts_tally :
  exists tr,
    main Scenario.lib (Scenario.play Scenario.three_accounts) 3 []
    = (Ret tt,
       EvLog INFO (MsgTotalFailed 1) :: EvLog INFO (MsgTotalDeployed 2) :: tr) /\
    count_events is_random_sleep tr = 2%nat.
Proof. eexists. split; vm_compute; reflexivity. Qed.

Lemma fleet_attempts_raised L o fuel config len private_keys :
  forall index tr e,
    fleet_verdict (fst (fleet_attempts L o fuel config len index private_keys tr))
    = Raise e ->
    exists bs,
      fst (fleet_attempts L o fuel config len index private_keys tr)
      = map Ret bs ++ [Raise e] /\
      (List.length bs < List.length private_keys)%nat.
Proof.
  induction private_keys as [|key rest IH]; intros index tr e Hv;
    [discriminate|].
  cbn [fleet_attempts] in *.
  destruct (deploy_random_contract L o config key fuel tr) as [[b|e'|] tr1];
    cbn [fst snd fleet_verdict] in *.
  - apply IH in Hv as (bs & -> & Hlt).
    exists (b :: bs). split; [reflexivity | simpl; lia].
  - injection Hv as ->. exists []. split; [reflexivity | simpl; lia].
  - discriminate.
Qed.

Lemma fleet_verdict_ret_inv outcomes u :
  fleet_verdict outcomes = Ret u -> exists bs, outcomes = map Ret bs.
Proof.
  induction outcomes as [|[b|e|] rest IH]; intros Hv;
    [now exists [] | | discriminate | discriminate].
  destruct (IH Hv) as (bs & ->). now exists (b :: bs).
Qed.

(** C2 (as the code has it): [main] follows its attempts one by one.  While
    the attempts return -- [True] or [False] alike -- the loop goes on: when
    all of them return, every account has been attempted, main returns and
    only the summary shows the failures.  An exception raised inside an
    attempt is not caught: main raises it with the history the failing
    attempt left, so the later accounts are not attempted and no summary is
    logged. *)
Theorem fleet_run_follows_attempts
        L o fuel tr private_keys config :
  load_accounts o tr = Ok private_keys ->
  Config_load o (EvLoadAccounts (Ok private_keys) :: tr) = Ok config ->
  let len := Z.of_nat (List.length private_keys) in
  let attempts := fleet_attempts L o fuel config len 0 private_keys
                                 (main_prologue private_keys config tr) in
  match fleet_verdict (fst attempts) with
  | Ret _ =>
      main L o fuel tr
      = (Ret tt, tally_log len (count_deployed (fst attempts)) ++ snd attempts) /\
      List.length (fst attempts) = List.length private_keys /\
      forall key, In key private_keys ->
                  In (EvLog INFO (MsgDeploying (from_key L key))) (snd attempts)
  | Raise e =>
      main L o fuel tr = (Raise e, snd attempts) /\
      exists bs,
        fst attempts = map Ret bs ++ [Raise e] /\
        (List.length bs < List.length private_keys)%nat
  | OutOfFuel => main L o fuel tr = (OutOfFuel, snd attempts)
  end.
Proof.
  intros Hload Hcfg len attempts.
  rewrite (main_run _ _ _ _ _ _ Hload Hcfg), main_loop_attempts.
  fold len. fold attempts.
  destruct (fleet_verdict (fst attempts)) as [u|e|] eqn:Hv.
  - rewrite Z.add_0_l. split; [reflexivity|].
    destruct (fleet_verdict_ret_inv _ _ Hv) as (bs & Hbs).
    destruct (fleet_attempts_all_returned L o fuel config len private_keys 0 _
                                          bs Hbs)
      as (Hlen & es & Hes & _ & Hatt); [unfold len; lia|].
    fold attempts in Hes. rewrite Hbs, length_map, Hes. split; [exact Hlen|].
    exact Hatt.
  - split; [reflexivity|]. now apply fleet_attempts_raised.
  - reflexivity.
Qed.

Lemma fleet_run_follows_attempts_witness :
  let o := Scenario.play Scenario.compile_error in
  let keys := [Scenario.key1; Scenario.key2] in
  let e := mkExn "SolcError" "An error occurred during execution" in
  let attempts := fleet_attempts Scenario.lib o 3 Scenario.config 2 0 keys
                                 (main_prologue keys Scenario.config []) in
  main Scenario.lib o 3 [] = (Raise e, snd attempts) /\
  exists bs,
    fst attempts = map Ret bs ++ [Raise e] /\
    (List.length bs < List.length keys)%nat.
Proof.
  intros o keys e attempts.
  assert (load_accounts o [] = Ok keys) as Hload by reflexivity.
  assert (Config_load o [EvLoadAccounts (Ok keys)] = Ok Scenario.config)
    as Hcfg by reflexivity.
  pose proof (fleet_run_follows_attempts Scenario.lib o 3 [] keys
                                         Scenario.config Hload Hcfg) as W.
  cbv zeta in W.
  assert (fleet_verdict
            (fst (fleet_attempts Scenario.lib o 3 Scenario.config
                    (Z.of_nat (List.length keys)) 0 keys
                    (main_prologue keys Scenario.config []))) = Raise e) as Hv
      by (vm_compute; reflexivity).
  rewrite Hv in W. exact W.
Defined.

(** C2 fails as stated: with two accounts and a compile error for the first,
    main raises the compiler's exception; the second account is never
    attempted and no summary is logged. *)
Lemma compile_error_aborts_the_fleet_run :
  let run := main Scenario.lib (Scenario.play Scenario.compile_error) 3 [] in
  fst run = Raise (mkExn "SolcError" "An error occurred during execution") /\
  existsb (is_attempt_of Scenario.address1) (snd run) = true /\
  existsb (is_attempt_of Scenario.address2) (snd run) = false /\
  existsb is_tally (snd run) = false.
Proof. repeat split; vm_compute; reflexivity. Qed.


(** * Further properties of the code *)

(** ** The layout of the adapter parameters *)

Lemma to_N_leading_zeros n s :
  HexString.Raw.to_N (PyStr.replicate n "0" ++ s)%string 0%N
  = HexString.Raw.to_N s 0%N.
Proof. induction n as [|n IH]; [reflexivity | exact IH]. Qed.

Lemma hex_digits_value (amount : Z) :
  0 <= amount ->
  HexString.Raw.to_N (PyStr.drop 2 (PyStr.hex amount)) 0%N = Z.to_N amount.
Proof.
  intros Hpos. destruct amount as [|p|p]; [reflexivity | | lia].
  change (PyStr.drop 2 (PyStr.hex (Z.pos p))) with (HexString.Raw.of_pos p "").
  now rewrite HexString.Raw.to_N_of_pos.
Qed.

(** X1: for an amount whose hexadecimal form fits in 13 digits, the string
    handed to [HexBytes] is, in this order, the version [0002], the 64-digit
    gas field [0x30d40], a 64-digit field whose hexadecimal value is the
    amount in wei, and the 40 digits of the address: the amount and the
    recipient can be read back from the encoding. *)
Theorem adapter_params_hex_layout (amount_in_wei : Z) (address : string) :
  0 <= amount_in_wei < 16 ^ 13 ->
  exists amount_field,
    adapter_params_hex amount_in_wei address
    = ("0002"
       ++ "0000000000000000000000000000000000000000000000000000000000030d40"
       ++ amount_field ++ PyStr.drop 2 address)%string /\
    String.length amount_field = 64%nat /\
    HexString.Raw.to_N amount_field 0%N = Z.to_N amount_in_wei.
Proof.
  intros [Hpos Hlt].
  exists ("000000000000000000000000000000000000000000000000000"
            ++ PyStr.rjust 13 "0" (PyStr.drop 2 (PyStr.hex amount_in_wei)))%string.
  split; [reflexivity|]. split.
  - rewrite string_length_append, rjust_length.
    pose proof (hex_digits_length amount_in_wei 12 Hpos) as Hd.
    change (16 ^ Z.of_nat 13) with (16 ^ 13) in Hd.
    apply Hd in Hlt.
    set (d := String.length (PyStr.drop 2 (PyStr.hex amount_in_wei))) in *.
    clearbody d. simpl String.length. lia.
  - change "000000000000000000000000000000000000000000000000000"
      with (PyStr.replicate 51 "0").
    rewrite to_N_leading_zeros. unfold PyStr.rjust.
    rewrite to_N_leading_zeros. now apply hex_digits_value.
Qed.

Lemma adapter_params_hex_layout_witness :
  exists amount_field,
    adapter_params_hex 1000000000000000 Scenario.address1
    = ("0002"
       ++ "0000000000000000000000000000000000000000000000000000000000030d40"
       ++ amount_field ++ PyStr.drop 2 Scenario.address1)%string /\
    String.length amount_field = 64%nat /\
    HexString.Raw.to_N amount_field 0%N = Z.to_N 1000000000000000.
Proof.
  apply (adapter_params_hex_layout 1000000000000000 Scenario.address1). lia.
Defined.

(** ** The polling loops *)

(** X2: a failing read of the gas price never leaves the gate: it is caught,
    logged and retried.  A value the gate returns has passed the float
    comparison with the ceiling, and the gate raises only the [ValueError] of
    [from_wei], right after a successful reading outside [0, 2**256 - 1]. *)
Theorem gas_price_gate_raises_only_out_of_range
        (o : oracle) (fuel : nat) (config : Config) (tr : trace) :
  match gas_price_gate o fuel config tr with
  | (Ret gas_price, _) => acceptable config (Ok gas_price) = true
  | (Raise e, tr') =>
      exists p rest,
        tr' = EvGasPrice (eth_rpc_url config) (Ok p) :: rest /\
        (p < 0 \/ MAX_WEI < p) /\
        gwei_of_wei p = Err e /\
        exn_type e = "ValueError"
  | (OutOfFuel, _) => True
  end.
Proof.
  revert tr. induction fuel as [|fuel IH]; intros tr; [exact I|].
  rewrite gas_price_gate_step.
  destruct (gas_price o (eth_rpc_url config) tr) as [p|e].
  - destruct (gwei_of_wei p) as [g|e] eqn:Hg.
    + destruct (Qle_bool g (max_gwei config)) eqn:Hq.
      * simpl. now rewrite Hg.
      * apply IH.
    + pose proof Hg as He. apply gwei_of_wei_err in He as [Hp ->].
      now exists p, tr.
  - apply IH.
Qed.

(** X3: the wait for the bridged funds never raises: a failing balance read
    is caught and logged, and the loop goes on. *)
Theorem balance_wait_never_raises
        (o : oracle) (fuel : nat) (config : Config) (address : string)
        (account_balance : Z) (tr : trace) (e : exn) :
  fst (balance_wait o fuel config address account_balance tr) <> Raise e.
Proof.
  revert tr. induction fuel as [|fuel IH]; intros tr; [discriminate|].
  cbn [balance_wait].
  unfold bind at 1, try_except, web3_get_balance, call.
  destruct (get_balance o (scroll_rpc_url config) address tr) as [b|e'].
  - destruct (b >? account_balance); [discriminate | apply IH].
  - apply IH.
Qed.

(** X4: when every reading the reference chain serves sends the gate round
    its loop again (the read fails, or the gwei value as a float is above the
    ceiling), the gate never returns: whatever the number of iterations
    allowed, it is still waiting at the end, having slept 10 seconds in each
    of them. *)
Theorem gas_price_gate_blocks_while_expensive
        (o : oracle) (config : Config) (fuel : nat) (tr : trace) :
  (forall tr0, blocks config (gas_price o (eth_rpc_url config) tr0) = true) ->
  exists es,
    gas_price_gate o fuel config tr = (OutOfFuel, es ++ tr) /\
    Forall (fun e => gate_event config e = true) es /\
    count_events is_sleep_10 es = fuel.
Proof.
  intros Hnever. revert tr.
  induction fuel as [|fuel IH]; intros tr;
    [exists []; repeat split; constructor|].
  rewrite blocks_step by apply Hnever.
  destruct (IH (gate_blocked_round config
                  (gas_price o (eth_rpc_url config) tr) ++ tr))
    as (es & Hrun & Hgate & Hcount).
  exists (es ++ gate_blocked_round config
                  (gas_price o (eth_rpc_url config) tr)).
  rewrite <- app_assoc. split; [exact Hrun|]. split.
  - apply Forall_app. split; [exact Hgate|].
    destruct (gas_price o (eth_rpc_url config) tr);
      repeat constructor; cbn; apply String.eqb_refl.
  - rewrite count_events_app, Hcount.
    destruct (gas_price o (eth_rpc_url config) tr); cbn; lia.
Qed.

Lemma gas_price_gate_blocks_while_expensive_witness :
  exists es,
    gas_price_gate Cases.stuck_at_100_gwei 7 Scenario.config [] = (OutOfFuel, es ++ []) /\
    Forall (fun e => gate_event Scenario.config e = true) es /\
    count_events is_sleep_10 es = 7%nat.
Proof.
  apply (gas_price_gate_blocks_while_expensive
           Cases.stuck_at_100_gwei Scenario.config 7 []).
  intros tr0. reflexivity.
Defined.

Lemma balance_blocked_snoc config address rs r tr :
  balance_blocked config address (r :: rs) ++ tr
  = balance_blocked config address rs
    ++ balance_blocked_round config address r ++ tr.
Proof. simpl. now rewrite <- app_assoc. Qed.

(** X5: if the destination chain answers the wait with [readings], each
    failed or not above the recorded balance, and then with a balance
    strictly above it, the wait returns right at that reading, having slept
    10 seconds after each earlier one and logged a warning for each failed
    one. *)
Theorem balance_wait_returns_at_first_increase
        (o : oracle) (config : Config) (address : string)
        (account_balance : Z) (readings : list (result Z))
        (balance_after : Z) (fuel : nat) (tr : trace) :
  balance_readings o config address tr (readings ++ [Ok balance_after]) ->
  Forall (not_increased account_balance) readings ->
  account_balance < balance_after ->
  (List.length readings < fuel)%nat ->
  balance_wait o fuel config address account_balance tr
  = (Ret tt,
     EvGetBalance (scroll_rpc_url config) address (Ok balance_after)
       :: balance_blocked config address readings ++ tr).
Proof.
  revert fuel tr.
  induction readings as [|r rs IH]; intros fuel tr Hserve Hblock Hlt Hfuel;
    (destruct fuel as [|fuel]; [simpl in Hfuel; lia |]).
  - destruct Hserve as [Hr _].
    cbn [balance_wait]. unfold bind, try_except, web3_get_balance, call.
    rewrite Hr.
    assert ((balance_after >? account_balance) = true) as ->
        by (rewrite Z.gtb_ltb; apply Z.ltb_lt; lia).
    reflexivity.
  - destruct Hserve as [Hr Hrest]. inversion Hblock as [|? ? Hr0 Hrs]; subst.
    rewrite balance_blocked_snoc.
    rewrite <- (IH fuel _ Hrest Hrs Hlt) by (simpl in Hfuel; lia).
    cbn [balance_wait]. unfold bind at 1, try_except, web3_get_balance, call.
    destruct (get_balance o (scroll_rpc_url config) address tr) as [b|e].
    + simpl in Hr0.
      assert ((b >? account_balance) = false) as ->
          by (rewrite Z.gtb_ltb; apply Z.ltb_ge; lia).
      reflexivity.
    + reflexivity.
Qed.

Lemma balance_wait_returns_at_first_increase_witness :
  let connection_error := Err (mkExn "ConnectionError" "timed out") in
  balance_wait (Scenario.play Scenario.bridge_then_deploy) 4 Scenario.config
               Scenario.address1 0 []
  = (Ret tt,
     EvGetBalance "https://scroll" Scenario.address1 (Ok 2000000000000000)
       :: balance_blocked Scenario.config Scenario.address1
            [Ok 0; Ok 0; connection_error] ++ []).
Proof.
  intros connection_error.
  apply (balance_wait_returns_at_first_increase
           (Scenario.play Scenario.bridge_then_deploy) Scenario.config
           Scenario.address1 0 [Ok 0; Ok 0; connection_error]
           2000000000000000 4 []).
  - simpl. repeat split; reflexivity.
  - repeat constructor; simpl; lia.
  - lia.
  - simpl. lia.
Defined.

(** ** The transactions *)

Lemma deploy_submit_inherits (Q : txn -> Prop) L o config key t :
  Q t -> (forall g, Q (set_gas t g)) ->
  emits (fun e => forall t', event_txn e = Some t' -> Q t')
        (deploy_submit L o config key t).
Proof.
  intros Ht Hg. unfold deploy_submit.
  emits_auto; cbn; intros t' [=]; subst; auto.
Qed.

(** X6: whatever a run of [deploy_random_contract] does, every deployment
    transaction it estimates or signs carries a legacy gas price that passed
    the gate's test (a reading [from_wei] took, whose gwei value as the float
    of line 128 is at most the operator's ceiling), sends no value, and is
    sent from the account of the private key. *)
Theorem deployment_transaction_within_ceiling
        L o config key fuel tr r tr' :
  deploy_random_contract L o config key fuel tr = (r, tr') ->
  exists es,
    tr' = es ++ tr /\
    forall e t,
      In e es -> event_txn e = Some t -> is_constructor t = true ->
      within_ceiling config (from_key L key) t.
Proof.
  intros H.
  assert (forall es, Forall quiet_event es ->
            forall e t, In e es -> event_txn e = Some t -> is_constructor t = true ->
                        within_ceiling config (from_key L key) t) as Hquiet.
  { intros es Hq e t Hin Ht. rewrite Forall_forall in Hq.
    destruct (Hq e Hin) as [Hn _]. congruence. }
  assert (forall es, Forall bridge_side_event es ->
            forall e t, In e es -> event_txn e = Some t -> is_constructor t = true ->
                        within_ceiling config (from_key L key) t) as Hbridge.
  { intros es Hq e t Hin Ht Hc. rewrite Forall_forall in Hq.
    destruct (Hq e Hin) as [Hd _]. unfold deployment_event in Hd.
    rewrite Ht in Hd. congruence. }
  apply deploy_random_contract_run in H
    as [(es & -> & Hq & Hr)
       | (t & b & es_p & Hprep & Hq & Hc & Hrest)].
  { exists es. split; [reflexivity | now apply Hquiet]. }
  assert (within_ceiling config (from_key L key) t /\
          forall g, within_ceiling config (from_key L key) (set_gas t g))
    as [Ht Hg].
  { destruct (deploy_prepare_ret _ _ _ _ _ _ _ _ _ Hprep)
      as (accepted & readings & es_gen & contract & cid & n &
          _ & _ & Hacc & _ & ->).
    split; [| intros g]; exists accepted; repeat split; auto. }
  assert (forall tr0 r0 tr0',
             deploy_submit L o config key t tr0 = (r0, tr0') ->
             exists es, tr0' = es ++ tr0 /\
               forall e t', In e es -> event_txn e = Some t' ->
                            is_constructor t' = true ->
                            within_ceiling config (from_key L key) t')
    as Hsubmit.
  { intros tr0 r0 tr0' Hs.
    apply (deploy_submit_inherits _ _ _ _ _ _ Ht Hg) in Hs as (es & -> & Hs).
    exists es. split; [reflexivity|]. intros e t' Hin Ht' _.
    rewrite Forall_forall in Hs. exact (Hs e Hin t' Ht'). }
  destruct Hrest as [[_ Hs] | [_ (rb & tr2 & Hb & Hrest)]].
  - apply Hsubmit in Hs as (es_s & -> & Hs).
    exists (es_s ++ es_p). split; [now rewrite <- app_assoc|].
    intros e t' Hin. apply in_app_or in Hin as [Hin | Hin]; eauto.
  - apply bridge_to_scroll_bridge_side in Hb as (es_b & -> & Hside).
    destruct Hrest as [(_ & rw & tr3 & Hw & Hrest) | (_ & -> & _)].
    + apply balance_wait_quiet in Hw as (es_w & -> & Hwq).
      destruct Hrest as [(_ & Hs) | (_ & -> & _)].
      * apply Hsubmit in Hs as (es_s & -> & Hs).
        exists (es_s ++ es_w ++ [EvLog INFO MsgWaitingBridge] ++ es_b ++ es_p).
        split; [now rewrite <- !app_assoc|].
        intros e t' Hin.
        apply in_app_or in Hin as [Hin | Hin]; eauto.
        apply in_app_or in Hin as [Hin | Hin]; eauto.
        apply in_app_or in Hin as [Hin | Hin];
          [destruct Hin as [<- | []]; discriminate|].
        apply in_app_or in Hin as [Hin | Hin]; eauto.
      * exists (es_w ++ [EvLog INFO MsgWaitingBridge] ++ es_b ++ es_p).
        split; [now rewrite <- !app_assoc|].
        intros e t' Hin.
        apply in_app_or in Hin as [Hin | Hin]; eauto.
        apply in_app_or in Hin as [Hin | Hin];
          [destruct Hin as [<- | []]; discriminate|].
        apply in_app_or in Hin as [Hin | Hin]; eauto.
    + exists (es_b ++ es_p). split; [now rewrite <- app_assoc|].
      intros e t' Hin. apply in_app_or in Hin as [Hin | Hin]; eauto.
Qed.

Lemma deployment_transaction_within_ceiling_witness :
  let run := deploy_random_contract Scenario.lib
               (Scenario.play Scenario.gas_50_40_25)
               Scenario.config Scenario.key1 5 [] in
  exists es,
    snd run = es ++ [] /\
    forall e t,
      In e es -> event_txn e = Some t -> is_constructor t = true ->
      within_ceiling Scenario.config Scenario.address1 t.
Proof.
  intros run.
  apply (deployment_transaction_within_ceiling Scenario.lib
           (Scenario.play Scenario.gas_50_40_25) Scenario.config
           Scenario.key1 5 [] (fst run) (snd run)).
  vm_compute. reflexivity.
Defined.

(** X7: every transaction that [bridge_to_scroll] estimates or signs calls
    [bridgeGas] of the Merkly contract for destination chain 214 with the
    account's own address and the encoded adapter parameters, is sent from
    the account, and carries the chain id and the nonce the source chain
    returned. *)
Theorem bridge_transaction_shape
        L o rpc explorer key amount tr r tr' :
  bridge_to_scroll L o rpc explorer key amount tr = (r, tr') ->
  exists es,
    tr' = es ++ tr /\
    forall e t,
      In e es -> event_txn e = Some t ->
      exists adapter_params,
        encode_adapter_params (to_wei_ether L amount) (from_key L key)
        = Ok adapter_params /\
        tx_call_of t
        = BridgeGas merkly_address 214 (from_key L key) adapter_params /\
        tx_from t = from_key L key /\
        In (EvGetTransactionCount rpc (from_key L key) (Ok (tx_nonce t))) es /\
        In (EvChainId rpc (Ok (tx_chainId t))) es.
Proof.
  intros H. unfold bridge_to_scroll, suggest_fee in H.
  run_in H.
  all: exists_emitted; intros ev t Hin Htx; in_cases Hin; subst ev;
    try discriminate Htx; injection Htx as <-;
    eexists; (split; [first [eassumption | reflexivity]|]);
    (split; [reflexivity|]); (split; [reflexivity|]);
    split; simpl; tauto.
Qed.

Lemma bridge_transaction_shape_witness :
  let run := bridge_to_scroll Scenario.lib
               (Scenario.play Scenario.bridge_then_deploy)
               "https://arbitrum" "https://arbiscan/tx/" Scenario.key1
               (1 # 1000) [] in
  exists es,
    snd run = es ++ [] /\
    forall e t,
      In e es -> event_txn e = Some t ->
      exists adapter_params,
        encode_adapter_params 1000000000000000 Scenario.address1
        = Ok adapter_params /\
        tx_call_of t
        = BridgeGas merkly_address 214 Scenario.address1 adapter_params /\
        tx_from t = Scenario.address1 /\
        In (EvGetTransactionCount "https://arbitrum" Scenario.address1
                                  (Ok (tx_nonce t))) es /\
        In (EvChainId "https://arbitrum" (Ok (tx_chainId t))) es.
Proof.
  intros run.
  apply (bridge_transaction_shape Scenario.lib
           (Scenario.play Scenario.bridge_then_deploy)
           "https://arbitrum" "https://arbiscan/tx/" Scenario.key1
           (1 # 1000) [] (fst run) (snd run)).
  vm_compute. reflexivity.
Defined.

Lemma deploy_submit_true L o config key t tr tr' :
  deploy_submit L o config key t tr = (Ret true, tr') ->
  exists gas raw txn_hash rc,
    tr' = EvLog INFO (MsgDeployed (contractAddress rc))
            :: EvWaitReceipt (scroll_rpc_url config) txn_hash (Ok (Some rc))
            :: EvLog INFO (MsgTransaction (scroll_explorer_url config) txn_hash)
            :: EvSendRawTransaction (scroll_rpc_url config) raw (Ok txn_hash)
            :: EvSignTransaction key (set_gas t gas) (Ok raw)
            :: EvEstimateGas (scroll_rpc_url config) t (Ok gas)
            :: tr /\
    status rc = 1.
Proof.
  intros H. unfold deploy_submit in H.
  run_in H.
  eexists _, _, _, _. split; [reflexivity|]. now apply Z.eqb_eq.
Qed.

(** X8: [deploy_random_contract] returns [True] only at the end of a complete
    deployment: the gas of a constructor transaction was estimated, the
    transaction with that gas limit was signed and sent to the destination
    chain, its receipt came back with status 1, and the contract address of
    the receipt was logged last. *)
Theorem deployed_means_confirmed_receipt
        L o config key fuel tr tr' :
  deploy_random_contract L o config key fuel tr = (Ret true, tr') ->
  exists t gas raw txn_hash rc rest,
    tr' = EvLog INFO (MsgDeployed (contractAddress rc))
            :: EvWaitReceipt (scroll_rpc_url config) txn_hash (Ok (Some rc))
            :: EvLog INFO (MsgTransaction (scroll_explorer_url config) txn_hash)
            :: EvSendRawTransaction (scroll_rpc_url config) raw (Ok txn_hash)
            :: EvSignTransaction key (set_gas t gas) (Ok raw)
            :: EvEstimateGas (scroll_rpc_url config) t (Ok gas)
            :: rest /\
    status rc = 1 /\
    is_constructor t = true.
Proof.
  intros H.
  apply deploy_random_contract_run in H
    as [(es & _ & _ & Hr)
       | (t & b & es_p & _ & _ & Hc &
          [[_ Hs] | [_ (rb & tr2 & _ & Hrest)]])].
  - now contradiction (Hr true).
  - apply deploy_submit_true in Hs as (gas & raw & txn_hash & rc & -> & Hst).
    now exists t, gas, raw, txn_hash, rc, (es_p ++ tr).
  - destruct Hrest as [(_ & rw & tr3 & _ & Hrest) | (_ & _ & Hr)].
    + destruct Hrest as [(_ & Hs) | (_ & _ & Hr)].
      * apply deploy_submit_true in Hs as (gas & raw & txn_hash & rc & -> & Hst).
        now exists t, gas, raw, txn_hash, rc, tr3.
      * now contradiction (Hr true).
    + destruct rb; discriminate.
Qed.

Lemma deployed_means_confirmed_receipt_witness :
  let run := deploy_random_contract Scenario.lib (Scenario.play Scenario.quiet)
               Scenario.config Scenario.key1 3 [] in
  exists t gas raw txn_hash rc rest,
    snd run
    = EvLog INFO (MsgDeployed (contractAddress rc))
        :: EvWaitReceipt "https://scroll" txn_hash (Ok (Some rc))
        :: EvLog INFO (MsgTransaction "https://scrollscan/tx/" txn_hash)
        :: EvSendRawTransaction "https://scroll" raw (Ok txn_hash)
        :: EvSignTransaction Scenario.key1 (set_gas t gas) (Ok raw)
        :: EvEstimateGas "https://scroll" t (Ok gas)
        :: rest /\
    status rc = 1 /\
    is_constructor t = true.
Proof.
  intros run.
  apply (deployed_means_confirmed_receipt Scenario.lib
           (Scenario.play Scenario.quiet) Scenario.config Scenario.key1 3 []
           (snd run)).
  vm_compute. reflexivity.
Defined.

(** X9: [bridge_to_scroll] returns [True] only when the bridge transaction
    was estimated, signed with the estimated gas limit and sent, and its
    receipt came back with status 1; the success line is then the last thing
    logged. *)
Theorem bridged_means_confirmed_receipt
        L o rpc explorer key amount tr tr' :
  bridge_to_scroll L o rpc explorer key amount tr = (Ret true, tr') ->
  exists t gas raw txn_hash rc rest,
    tr' = EvLog INFO (MsgBridged amount (from_key L key))
            :: EvWaitReceipt rpc txn_hash (Ok (Some rc))
            :: EvLog INFO (MsgTransaction explorer txn_hash)
            :: EvSendRawTransaction rpc raw (Ok txn_hash)
            :: EvSignTransaction key (set_gas t gas) (Ok raw)
            :: EvEstimateGas rpc t (Ok gas)
            :: rest /\
    status rc = 1 /\
    is_constructor t = false.
Proof.
  intros H. unfold bridge_to_scroll, suggest_fee in H.
  run_in H.
  all: match goal with
       | Hok : receipt_succeeded ?x = true |- _ =>
           destruct x as [rc|]; [|discriminate Hok];
           apply Z.eqb_eq in Hok
       end;
    eexists _, _, _, _, rc, _; split; [reflexivity|]; split; [assumption|];
    reflexivity.
Qed.

Lemma bridged_means_confirmed_receipt_witness :
  let run := bridge_to_scroll Scenario.lib
               (Scenario.play Scenario.bridge_then_deploy)
               "https://arbitrum" "https://arbiscan/tx/" Scenario.key1
               (1 # 1000) [] in
  exists t gas raw txn_hash rc rest,
    snd run
    = EvLog INFO (MsgBridged (1 # 1000) Scenario.address1)
        :: EvWaitReceipt "https://arbitrum" txn_hash (Ok (Some rc))
        :: EvLog INFO (MsgTransaction "https://arbiscan/tx/" txn_hash)
        :: EvSendRawTransaction "https://arbitrum" raw (Ok txn_hash)
        :: EvSignTransaction Scenario.key1 (set_gas t gas) (Ok raw)
        :: EvEstimateGas "https://arbitrum" t (Ok gas)
        :: rest /\
    status rc = 1 /\
    is_constructor t = false.
Proof.
  intros run.
  apply (bridged_means_confirmed_receipt Scenario.lib
           (Scenario.play Scenario.bridge_then_deploy)
           "https://arbitrum" "https://arbiscan/tx/" Scenario.key1
           (1 # 1000) [] (snd run)).
  vm_compute. reflexivity.
Defined.

(** X10: an exception escapes [deploy_submit] only from the signing, the
    sending or the wait for the receipt: it is the answer of the last call
    in the history, and that call is never the gas estimation, whose
    failures are turned into [False]. *)
Theorem deploy_submit_raises_only_after_estimation
        L o config key t tr e tr' :
  deploy_submit L o config key t tr = (Raise e, tr') ->
  exists ev rest gas,
    tr' = ev :: rest ++ EvEstimateGas (scroll_rpc_url config) t (Ok gas) :: tr /\
    event_error ev = Some e /\
    is_estimate_gas ev = false.
Proof.
  intros H. unfold deploy_submit in H.
  run_in H.
  - eexists _, [_; _; _], _. repeat split.
  - eexists _, [_], _. repeat split.
  - eexists _, [], _. repeat split.
Qed.

Lemma deploy_submit_raises_only_after_estimation_witness :
  let t := mkTxn 1 7 Scenario.address1 0 (LegacyFee 20000000000) 0
                 (Constructor "[]" "0x6080604052") in
  let e := mkExn "TypeError" "Transaction had invalid fields" in
  let run := deploy_submit Scenario.lib Cases.signer_refuses Scenario.config
                           Scenario.key1 t [] in
  exists ev rest gas,
    snd run = ev :: rest ++ EvEstimateGas "https://scroll" t (Ok gas) :: [] /\
    event_error ev = Some e /\
    is_estimate_gas ev = false.
Proof.
  intros t e run.
  apply (deploy_submit_raises_only_after_estimation Scenario.lib
           Cases.signer_refuses Scenario.config Scenario.key1 t [] e (snd run)).
  vm_compute. reflexivity.
Defined.

(** ** No retries *)

Lemma quiet_count_send es :
  Forall quiet_event es -> count_events is_send es = 0%nat.
Proof.
  intros Hq. apply count_events_none.
  eapply Forall_impl; [|exact Hq]. now intros e (_ & H & _).
Qed.

Lemma quiet_count_estimate es :
  Forall quiet_event es -> count_events is_estimate_gas es = 0%nat.
Proof.
  intros Hq. apply count_events_none.
  eapply Forall_impl; [|exact Hq]. intros e (H & _). now destruct e.
Qed.

Lemma bridge_to_scroll_counts L o rpc explorer key amount tr r tr' :
  bridge_to_scroll L o rpc explorer key amount tr = (r, tr') ->
  exists es,
    tr' = es ++ tr /\
    (count_events is_send es <= 1)%nat /\
    (count_events is_estimate_gas es <= 1)%nat.
Proof.
  intros H. unfold bridge_to_scroll, suggest_fee in H.
  run_in H.
  all: exists_emitted; cbn; lia.
Qed.

Lemma deploy_submit_counts L o config key t tr r tr' :
  deploy_submit L o config key t tr = (r, tr') ->
  exists es,
    tr' = es ++ tr /\
    (count_events is_send es <= 1)%nat /\
    (count_events is_estimate_gas es <= 1)%nat.
Proof.
  intros H. unfold deploy_submit in H.
  run_in H.
  all: exists_emitted; cbn; lia.
Qed.

(** X11: nothing is retried within an account: a run of
    [deploy_random_contract] estimates gas at most twice and sends at most
    two transactions (the bridge transaction and the deployment), and without
    a bridge at most one of each. *)
Theorem no_retry_within_an_account
        L o config key fuel tr r tr' :
  deploy_random_contract L o config key fuel tr = (r, tr') ->
  exists es,
    tr' = es ++ tr /\
    (count_events is_send es <= 2)%nat /\
    (count_events is_estimate_gas es <= 2)%nat /\
    (existsb bridge_event es = false ->
     (count_events is_send es <= 1)%nat /\
     (count_events is_estimate_gas es <= 1)%nat).
Proof.
  intros H.
  apply deploy_random_contract_run in H
    as [(es & -> & Hq & Hr)
       | (t & b & es_p & Hprep & Hq & Hc &
          [[_ Hs] | [_ (rb & tr2 & Hb & Hrest)]])].
  - exists es. rewrite (quiet_count_send _ Hq), (quiet_count_estimate _ Hq).
    repeat split; lia.
  - apply deploy_submit_counts in Hs as (es_s & -> & Hsend & Hest).
    exists (es_s ++ es_p). rewrite <- app_assoc, !count_events_app.
    rewrite (quiet_count_send _ Hq), (quiet_count_estimate _ Hq).
    repeat split; lia.
  - assert (forall es1 es2,
               existsb bridge_event
                       (es1 ++ es2 ++ es_p) = false ->
               bridge_to_scroll L o (arbitrum_rpc_url config)
                 (arbitrum_explorer_url config) key (bridge_amount config)
                 (es_p ++ tr) = (rb, es2 ++ es_p ++ tr) -> False) as Hstarted.
    { intros es1 es2 Hnone Hrun.
      unfold bridge_to_scroll in Hrun. unfold bind at 1, logger_info, emit in Hrun.
      match type of Hrun with
      | ?m _ = _ =>
          assert (emits bridge_side_event m) as Hm
              by (unfold suggest_fee; emits_auto; event_facts)
      end.
      apply Hm in Hrun as (es0 & Heq & _).
      assert (es2 = es0 ++ [EvLog INFO (MsgBridging (bridge_amount config)
                                                    (from_key L key))]) as ->.
      { apply (app_inv_tail (es_p ++ tr)). rewrite <- app_assoc. exact Heq. }
      rewrite !existsb_app in Hnone. cbn in Hnone.
      rewrite !orb_true_r in Hnone. discriminate. }
    pose proof Hb as Hcount.
    apply bridge_to_scroll_counts in Hcount as (es_b & -> & Hbs & Hbe).
    destruct Hrest as [(_ & rw & tr3 & Hw & Hrest) | (_ & -> & _)].
    + apply balance_wait_quiet in Hw as (es_w & -> & Hwq).
      destruct Hrest as [(_ & Hs) | (_ & -> & _)].
      * apply deploy_submit_counts in Hs as (es_s & -> & Hsend & Hest).
        exists ((es_s ++ es_w ++ [EvLog INFO MsgWaitingBridge]) ++ es_b ++ es_p).
        split; [now rewrite <- !app_assoc|].
        rewrite !count_events_app.
        rewrite (quiet_count_send _ Hq), (quiet_count_estimate _ Hq),
          (quiet_count_send _ Hwq), (quiet_count_estimate _ Hwq).
        split; [cbn; lia|]. split; [cbn; lia|].
        intros Hnone. exfalso. eapply Hstarted; eauto.
      * exists ((es_w ++ [EvLog INFO MsgWaitingBridge]) ++ es_b ++ es_p).
        split; [now rewrite <- !app_assoc|].
        rewrite !count_events_app.
        rewrite (quiet_count_send _ Hq), (quiet_count_estimate _ Hq),
          (quiet_count_send _ Hwq), (quiet_count_estimate _ Hwq).
        split; [cbn; lia|]. split; [cbn; lia|].
        intros Hnone. exfalso. eapply Hstarted; eauto.
    + exists (es_b ++ es_p). split; [now rewrite <- app_assoc|].
      rewrite !count_events_app.
      rewrite (quiet_count_send _ Hq), (quiet_count_estimate _ Hq).
      repeat split; lia.
Qed.

Lemma no_retry_within_an_account_witness :
  let run := deploy_random_contract Scenario.lib
               (Scenario.play Scenario.bridge_then_deploy)
               Scenario.config Scenario.key1 5 [] in
  exists es,
    snd run = es ++ [] /\
    (count_events is_send es <= 2)%nat /\
    (count_events is_estimate_gas es <= 2)%nat /\
    (existsb bridge_event es = false ->
     (count_events is_send es <= 1)%nat /\
     (count_events is_estimate_gas es <= 1)%nat).
Proof.
  intros run.
  apply (no_retry_within_an_account Scenario.lib
           (Scenario.play Scenario.bridge_then_deploy) Scenario.config
           Scenario.key1 5 [] (fst run) (snd run)).
  vm_compute. reflexivity.
Defined.

(** ** Endpoints *)

(** X12: [bridge_to_scroll] talks to no endpoint but the source-chain RPC it
    was given, and never reads a balance. *)
Theorem bridge_uses_the_source_chain_only
        L o rpc explorer key amount tr r tr' :
  bridge_to_scroll L o rpc explorer key amount tr = (r, tr') ->
  exists es,
    tr' = es ++ tr /\
    Forall (fun e => (forall rpc', event_rpc e = Some rpc' -> rpc' = rpc) /\
                     is_get_balance e = false) es.
Proof.
  revert tr r tr'.
  change (emits (fun e => (forall rpc', event_rpc e = Some rpc' -> rpc' = rpc) /\
                          is_get_balance e = false)
                (bridge_to_scroll L o rpc explorer key amount)).
  unfold bridge_to_scroll, suggest_fee.
  emits_auto; cbn; (split; [intros rpc' [=]; auto | reflexivity]).
Qed.

Lemma bridge_uses_the_source_chain_only_witness :
  let run := bridge_to_scroll Scenario.lib
               (Scenario.play Scenario.bridge_then_deploy)
               "https://arbitrum" "https://arbiscan/tx/" Scenario.key1
               (1 # 1000) [] in
  exists es,
    snd run = es ++ [] /\
    Forall (fun e => (forall rpc', event_rpc e = Some rpc' ->
                                   rpc' = "https://arbitrum") /\
                     is_get_balance e = false) es.
Proof.
  intros run.
  apply (bridge_uses_the_source_chain_only Scenario.lib
           (Scenario.play Scenario.bridge_then_deploy)
           "https://arbitrum" "https://arbiscan/tx/" Scenario.key1
           (1 # 1000) [] (fst run) (snd run)).
  vm_compute. reflexivity.
Defined.

(** ** Contract generation *)

Lemma dict_get_set_same {V} (d : Dict.t V) k v :
  Dict.get (Dict.set d k v) k = Some v.
Proof.
  induction d as [|[k' v'] d IH]; simpl.
  - now rewrite String.eqb_refl.
  - destruct (String.eqb k k') eqn:E; simpl.
    + now rewrite String.eqb_refl.
    + now rewrite E.
Qed.

Lemma dict_get_set_other {V} (d : Dict.t V) k k' v :
  k <> k' -> Dict.get (Dict.set d k v) k' = Dict.get d k'.
Proof.
  intros Hne. induction d as [|[k0 v0] d IH]; simpl.
  - apply String.eqb_neq in Hne. rewrite String.eqb_sym. now rewrite Hne.
  - destruct (String.eqb k k0) eqn:E; simpl.
    + apply String.eqb_eq in E. subst k0.
      destruct (String.eqb k' k) eqn:E'; [|reflexivity].
      apply String.eqb_eq in E'. congruence.
    + destruct (String.eqb k' k0); [reflexivity | exact IH].
Qed.

Lemma dict_set_keys {V} (d : Dict.t V) k v k' :
  Dict.get (Dict.set d k v) k' <> None <-> k' = k \/ Dict.get d k' <> None.
Proof.
  destruct (String.eqb_spec k k') as [<- | Hne].
  - rewrite dict_get_set_same. split; [auto | discriminate].
  - rewrite (dict_get_set_other _ _ _ _ Hne). split; [auto|].
    intros [-> | H]; [contradiction | exact H].
Qed.

(** The dict comprehension gives every placeholder a value and nothing
    else. *)
Lemma random_values_keys o config names :
  forall d tr d' tr',
    random_values o config names d tr = (Ret d', tr') ->
    forall k, Dict.get d' k <> None <-> In k names \/ Dict.get d k <> None.
Proof.
  induction names as [|name names IH]; intros d tr d' tr' H k.
  - inversion H; subst. simpl. tauto.
  - cbn [random_values] in H.
    apply bind_ret_ret in H as (v & tr1 & _ & H).
    rewrite (IH _ _ _ _ H k), dict_set_keys. simpl.
    split; intros [Hin | Hk]; auto.
    + destruct Hk as [-> | Hk]; auto.
    + destruct Hin as [<- | Hin]; auto.
Qed.

Lemma random_choice_in o seq tr a tr' :
  random_choice_ o seq tr = (Ret a, tr') -> In a seq.
Proof.
  intros H. destruct seq as [|c cs]; [discriminate|].
  unfold random_choice_ in H. remember (c :: cs) as s eqn:Es.
  unfold bind, sample, ret in H. injection H as Ha _. subst a.
  apply nth_In. apply Nat.mod_upper_bound. subst s. discriminate.
Qed.

(** X13: when the selection and compilation of a contract succeeds, the
    chosen template is one of the table and has a [contract_name]
    placeholder, every placeholder of the template (and nothing else) got a
    value, solc 0.8.2 was installed and selected right before the one
    compilation of the formatted template, and the ABI and bytecode returned
    are those compiled under the key [<stdin>:] followed by the contract
    name. *)
Theorem generate_contract_returns
        L o config tr entry tr' :
  generate_contract L o config tr = (Ret entry, tr') ->
  exists template values_dict name source compiled_contract coin rest,
    In template (CONTRACTS L) /\
    In "contract_name" (findall_placeholders L template) /\
    (forall k, Dict.get values_dict k <> None
               <-> In k (findall_placeholders L template)) /\
    format L template values_dict = Ok source /\
    Dict.get values_dict "contract_name" = Some name /\
    Dict.get compiled_contract ("<stdin>:" ++ name)%string = Some entry /\
    tr' = EvCompileSource source (Ok compiled_contract)
            :: EvSetSolcVersion "0.8.2" (Ok tt)
            :: EvInstallSolc "0.8.2" (Ok tt)
            :: EvRandInt 0 1 coin
            :: rest.
Proof.
  intros H. unfold generate_contract in H.
  apply bind_ret_ret in H as (template & tr0 & Hchoice & H).
  assert (In template (CONTRACTS L)) as Hin
      by exact (random_choice_in _ _ _ _ _ Hchoice).
  apply bind_ret_ret in H as (values0 & tr1 & Hvalues & H).
  pose proof (random_values_keys _ _ _ _ _ _ _ Hvalues) as Hkeys.
  assert (forall k, Dict.get values0 k <> None
                    <-> In k (findall_placeholders L template)) as Hkeys0.
  { intros k. rewrite Hkeys. simpl. tauto. }
  clear Hkeys Hvalues Hchoice.
  unfold getitem in H. run_in H.
  - (* the contract name was title-cased *)
    repeat match goal with u : unit |- _ => destruct u end.
    match goal with
    | Hf : format _ _ ?vd = Ok ?src,
      Hn : Dict.get ?vd "contract_name" = Some ?nm,
      Hc : Dict.get ?cc _ = Some _ |- _ =>
        exists template, vd, nm, src, cc
    end.
    eexists _, _.
    assert (In "contract_name" (findall_placeholders L template)) as Hname
      by (match goal with
          | Hn : Dict.get values0 "contract_name" = Some _ |- _ =>
              apply Hkeys0; rewrite Hn; discriminate
          end).
    split; [exact Hin|]. split; [exact Hname|].
    split; [| repeat split; first [eassumption | reflexivity]].
    intros k. rewrite dict_set_keys, Hkeys0. split; [| auto].
    intros [-> | Hk]; auto.
  - (* the contract name was kept *)
    repeat match goal with u : unit |- _ => destruct u end.
    match goal with
    | Hf : format _ _ ?vd = Ok ?src,
      Hn : Dict.get ?vd "contract_name" = Some ?nm,
      Hc : Dict.get ?cc _ = Some _ |- _ =>
        exists template, vd, nm, src, cc
    end.
    eexists _, _.
    assert (In "contract_name" (findall_placeholders L template)) as Hname
      by (match goal with
          | Hn : Dict.get values0 "contract_name" = Some _ |- _ =>
              apply Hkeys0; rewrite Hn; discriminate
          end).
    split; [exact Hin|]. split; [exact Hname|].
    split; [| repeat split; first [eassumption | reflexivity]].
    exact Hkeys0.
Qed.

Lemma generate_contract_returns_witness :
  let run := generate_contract Scenario.lib (Scenario.play Scenario.quiet)
               Scenario.config [] in
  exists template values_dict name source compiled_contract coin rest,
    In template (CONTRACTS Scenario.lib) /\
    In "contract_name" (findall_placeholders Scenario.lib template) /\
    (forall k, Dict.get values_dict k <> None
               <-> In k (findall_placeholders Scenario.lib template)) /\
    format Scenario.lib template values_dict = Ok source /\
    Dict.get values_dict "contract_name" = Some name /\
    Dict.get compiled_contract ("<stdin>:" ++ name)%string
    = Some ("[]", "0x6080604052") /\
    snd run = EvCompileSource source (Ok compiled_contract)
                :: EvSetSolcVersion "0.8.2" (Ok tt)
                :: EvInstallSolc "0.8.2" (Ok tt)
                :: EvRandInt 0 1 coin
                :: rest.
Proof.
  intros run.
  apply (generate_contract_returns Scenario.lib (Scenario.play Scenario.quiet)
           Scenario.config [] ("[]", "0x6080604052") (snd run)).
  vm_compute. reflexivity.
Defined.

Lemma gas_price_gate_events o fuel config :
  emits (fun e => gate_event config e = true) (gas_price_gate o fuel config).
Proof.
  induction fuel as [|fuel IH]; cbn [gas_price_gate];
    emits_auto; cbn; auto using String.eqb_refl.
Qed.

Lemma gas_price_gate_outcome o fuel config tr e :
  fst (gas_price_gate o fuel config tr) = Raise e ->
  e = mkExn "ValueError" "value must be between 1 and 2**256 - 1".
Proof.
  revert tr. induction fuel as [|fuel IH]; intros tr; [discriminate|].
  rewrite gas_price_gate_step.
  destruct (gas_price o (eth_rpc_url config) tr) as [p|e'].
  - destruct (gwei_of_wei p) as [g|e'] eqn:Hg.
    + destruct (Qle_bool g (max_gwei config)); [discriminate | apply IH].
    + intros [= <-]. now apply gwei_of_wei_err in Hg.
  - apply IH.
Qed.

(** X14: with an empty template table no attempt returns.  The gate is still
    waiting when the iterations run out, or it raises the [ValueError] of
    [from_wei] on a reading outside [0, 2**256 - 1], or it lets the attempt
    through and [random.choice] raises [IndexError] before any
    destination-chain call; in each case the run adds only the attempt's log
    line and the gate's events to the history. *)
Theorem empty_template_table_raises_after_the_gate
        L o config key fuel tr r tr' :
  CONTRACTS L = [] ->
  deploy_random_contract L o config key fuel tr = (r, tr') ->
  (r = Raise (mkExn "IndexError" "Cannot choose from an empty sequence")
   \/ (exists e, r = Raise e /\ exn_type e = "ValueError")
   \/ r = OutOfFuel) /\
  exists es,
    tr' = es ++ EvLog INFO (MsgDeploying (from_key L key)) :: tr /\
    Forall (fun e => gate_event config e = true) es.
Proof.
  intros Hempty H.
  unfold deploy_random_contract, deploy_prepare in H.
  unfold bind at 1 in H. unfold bind at 1, logger_info, emit in H.
  unfold bind at 1 in H.
  pose proof (gas_price_gate_outcome o fuel config
                (EvLog INFO (MsgDeploying (from_key L key)) :: tr)) as Hnr.
  destruct (gas_price_gate o fuel config
              (EvLog INFO (MsgDeploying (from_key L key)) :: tr))
    as [rg trg] eqn:Hg.
  apply gas_price_gate_events in Hg as (es & -> & Hes).
  destruct rg as [p|e|].
  - unfold bind at 1, generate_contract in H. rewrite Hempty in H.
    cbn in H. inversion H; subst. split; [now left|]. now exists es.
  - rewrite (Hnr e eq_refl) in H. inversion H; subst.
    split; [right; left; eexists; split; reflexivity|]. now exists es.
  - inversion H; subst. split; [right; now right|]. now exists es.
Qed.

Lemma empty_template_table_raises_after_the_gate_witness :
  let run := deploy_random_contract Cases.no_templates
               (Scenario.play Scenario.gas_50_40_25)
               Scenario.config Scenario.key1 5 [] in
  (fst run = Raise (mkExn "IndexError" "Cannot choose from an empty sequence")
   \/ (exists e, fst run = Raise e /\ exn_type e = "ValueError")
   \/ fst run = OutOfFuel) /\
  exists es,
    snd run = es ++ EvLog INFO (MsgDeploying Scenario.address1) :: [] /\
    Forall (fun e => gate_event Scenario.config e = true) es.
Proof.
  intros run.
  apply (empty_template_table_raises_after_the_gate Cases.no_templates
           (Scenario.play Scenario.gas_50_40_25) Scenario.config
           Scenario.key1 5 [] (fst run) (snd run)).
  - reflexivity.
  - vm_compute. reflexivity.
Defined.

(** ** The classification of estimation failures *)

Lemma prefix_app needle hay :
  String.prefix needle hay = true <-> exists post, hay = (needle ++ post)%string.
Proof.
  revert hay. induction needle as [|a needle IH]; intros hay.
  - destruct hay; simpl; split; eauto.
  - destruct hay as [|b hay]; simpl.
    + split; [discriminate | intros [post Hp]; discriminate].
    + destruct (ascii_dec a b) as [<- | Hne].
      * rewrite IH. split; intros [post Hp]; exists post; congruence.
      * split; [discriminate | intros [post [= Hab _]]; congruence].
Qed.

(** [needle in hay] holds exactly when [hay] has [needle] as a contiguous
    part. *)
Lemma contains_spec needle hay :
  PyStr.contains needle hay = true
  <-> exists pre post, hay = (pre ++ needle ++ post)%string.
Proof.
  induction hay as [|c hay IH].
  - cbn [PyStr.contains]. destruct (String.prefix needle "") eqn:Hp.
    + apply prefix_app in Hp as [post Hp]. split; [|reflexivity].
      intros _. exists "", post. exact Hp.
    + split; [discriminate|]. intros (pre & post & Heq).
      destruct pre; [|discriminate].
      assert (String.prefix needle "" = true) as Hp'
          by (apply prefix_app; now exists post).
      congruence.
  - cbn [PyStr.contains]. destruct (String.prefix needle (String c hay)) eqn:Hp.
    + apply prefix_app in Hp as [post Hp]. split; [|reflexivity].
      intros _. exists "", post. exact Hp.
    + rewrite IH. split.
      * intros (pre & post & ->). now exists (String c pre), post.
      * intros (pre & post & Heq). destruct pre as [|c' pre].
        -- assert (String.prefix needle (String c hay) = true) as Hp'
               by (apply prefix_app; now exists post).
           congruence.
        -- injection Heq as _ ->. now exists pre, post.
Qed.

(** X15: when the gas estimation of the deployment fails, [deploy_submit]
    returns [False] after one error line, and that line is the
    insufficient-funds line exactly when the text of the exception contains
    the lower-case words "insufficient funds" as a contiguous part; any other
    text gets the generic line that quotes the exception. *)
Theorem insufficient_funds_is_a_substring_match
        L o config key t tr e :
  estimate_gas o (scroll_rpc_url config) t tr = Err e ->
  exists msg,
    deploy_submit L o config key t tr
    = (Ret false,
       EvLog ERROR msg :: EvEstimateGas (scroll_rpc_url config) t (Err e) :: tr) /\
    (msg = MsgInsufficientFundsDeploy (from_key L key)
     <-> exists pre post,
           exn_str e = (pre ++ "insufficient funds" ++ post)%string) /\
    (msg = MsgEstimateGasFailed e
     <-> ~ exists pre post,
             exn_str e = (pre ++ "insufficient funds" ++ post)%string).
Proof.
  intros He.
  unfold deploy_submit, bind, try_except, web3_estimate_gas, call,
    logger_error, emit, ret.
  rewrite He.
  pose proof (contains_spec "insufficient funds" (exn_str e)) as Hspec.
  destruct (PyStr.contains "insufficient funds" (exn_str e)) eqn:Hc.
  - eexists. split; [reflexivity|]. split; split.
    + intros _. now apply Hspec.
    + reflexivity.
    + discriminate.
    + intros Hn. exfalso. apply Hn. now apply Hspec.
  - eexists. split; [reflexivity|]. split; split.
    + discriminate.
    + intros Hex. apply Hspec in Hex. discriminate.
    + intros _ Hex. apply Hspec in Hex. discriminate.
    + reflexivity.
Qed.

Lemma insufficient_funds_is_a_substring_match_witness :
  let o := Scenario.play Scenario.bridge_unfunded in
  let t := mkTxn 1 7 Scenario.address1 0 (LegacyFee 20000000000) 0
                 (Constructor "[]" "0x6080604052") in
  let e := Scenario.insufficient_funds in
  exists msg,
    deploy_submit Scenario.lib o Scenario.config Scenario.key1 t []
    = (Ret false,
       [EvLog ERROR msg; EvEstimateGas "https://scroll" t (Err e)]) /\
    (msg = MsgInsufficientFundsDeploy Scenario.address1
     <-> exists pre post,
           exn_str e = (pre ++ "insufficient funds" ++ post)%string) /\
    (msg = MsgEstimateGasFailed e
     <-> ~ exists pre post,
             exn_str e = (pre ++ "insufficient funds" ++ post)%string).
Proof.
  intros o t e.
  apply (insufficient_funds_is_a_substring_match Scenario.lib o Scenario.config
           Scenario.key1 t [] e).
  reflexivity.
Defined.

(** ** The order of the attempts *)

Lemma attempts_logged_app (a b : trace) :
  attempts_logged (a ++ b) = attempts_logged b ++ attempts_logged a.
Proof.
  induction a as [|e a IH]; simpl; [now rewrite app_nil_r|].
  destruct e; try exact IH.
  destruct msg; try exact IH. now rewrite IH, app_assoc.
Qed.

Lemma attempts_logged_none (es : trace) :
  Forall (fun e => is_attempt_log e = false) es -> attempts_logged es = [].
Proof.
  induction 1 as [|e es He _ IH]; [reflexivity|].
  destruct e; try exact IH. destruct msg; try exact IH. discriminate.
Qed.

Lemma bind_assoc_run {A B C} (m : M A) (f : A -> M B) (g : B -> M C) tr :
  bind (bind m f) g tr = bind m (fun a => bind (f a) g) tr.
Proof. unfold bind. destruct (m tr) as [[a|e|] tr1]; reflexivity. Qed.

Lemma gas_price_gate_no_attempt_log o fuel config :
  emits (fun e => is_attempt_log e = false) (gas_price_gate o fuel config).
Proof.
  induction fuel as [|fuel IH]; cbn [gas_price_gate]; emits_auto; reflexivity.
Qed.

Lemma balance_wait_no_attempt_log o fuel config address b :
  emits (fun e => is_attempt_log e = false)
        (balance_wait o fuel config address b).
Proof.
  induction fuel as [|fuel IH]; cbn [balance_wait]; emits_auto; reflexivity.
Qed.

Lemma random_values_no_attempt_log o config names d :
  emits (fun e => is_attempt_log e = false) (random_values o config names d).
Proof.
  revert d. induction names as [|n names IH]; intros d; cbn [random_values];
    emits_auto; reflexivity.
Qed.

(** An attempt logs its account once, before anything else. *)
Lemma deploy_random_contract_one_attempt_log L o config key fuel tr r tr' :
  deploy_random_contract L o config key fuel tr = (r, tr') ->
  exists es, tr' = es ++ tr /\ attempts_logged es = [from_key L key].
Proof.
  intros H. unfold deploy_random_contract, deploy_prepare in H.
  rewrite bind_assoc_run in H.
  unfold bind at 1, logger_info, emit in H.
  match type of H with
  | ?m _ = _ =>
      assert (emits (fun e => is_attempt_log e = false) m) as Hm
  end.
  { pose proof (gas_price_gate_no_attempt_log o fuel config) as Hgate.
    pose proof (balance_wait_no_attempt_log o fuel config (from_key L key))
      as Hwait.
    pose proof (random_values_no_attempt_log o config) as Hvalues.
    unfold generate_contract, random_choice_, getitem, bridge_to_scroll,
      suggest_fee, deploy_submit.
    emits_auto; reflexivity. }
  apply Hm in H as (es & -> & Hes).
  exists (es ++ [EvLog INFO (MsgDeploying (from_key L key))]).
  split; [now rewrite <- app_assoc|].
  now rewrite attempts_logged_app, (attempts_logged_none _ Hes).
Qed.

Lemma main_loop_attempts_in_order L o fuel config len private_keys :
  forall index total tr r tr',
    main_loop L o fuel config len index private_keys total tr = (r, tr') ->
    exists es k,
      tr' = es ++ tr /\
      attempts_logged es = map (from_key L) (firstn k private_keys) /\
      (forall total', r = Ret total' -> k = List.length private_keys).
Proof.
  induction private_keys as [|key rest IH]; intros index total tr r tr' H.
  - inversion H; subst. exists [], 0%nat. repeat split; auto.
  - cbn [main_loop] in H.
    apply bind_ret_inv in H
      as [(b & tr1 & Hd & H) | [(e & Hd & ->) | (Hd & ->)]].
    + apply deploy_random_contract_one_attempt_log in Hd as (es_d & -> & Hlog).
      change (if negb (index =? len - 1)
              then utils_random_sleep (min_sleep_time config) (max_sleep_time config)
              else ret tt)
        with (pacing config len index) in H.
      unfold bind at 1 in H. rewrite pacing_run in H.
      assert (exists es_p,
                 (if negb (index =? len - 1)
                  then EvRandomSleep (min_sleep_time config) (max_sleep_time config)
                         :: es_d ++ tr
                  else es_d ++ tr) = es_p ++ es_d ++ tr /\
                 attempts_logged es_p = []) as (es_p & Hp & Hpl).
      { destruct (negb (index =? len - 1));
          [now exists [EvRandomSleep (min_sleep_time config) (max_sleep_time config)]
          | now exists []]. }
      rewrite Hp in H.
      apply IH in H as (es_r & k & -> & Hlogs & Hk).
      exists (es_r ++ es_p ++ es_d), (S k).
      split; [now rewrite <- !app_assoc|]. split.
      * rewrite !attempts_logged_app, Hlog, Hpl, Hlogs. reflexivity.
      * intros total' Hr. simpl. f_equal. eauto.
    + apply deploy_random_contract_one_attempt_log in Hd as (es_d & -> & Hlog).
      exists es_d, 1%nat. repeat split; auto. discriminate.
    + apply deploy_random_contract_one_attempt_log in Hd as (es_d & -> & Hlog).
      exists es_d, 1%nat. repeat split; auto. discriminate.
Qed.

(** X16: the accounts are attempted strictly in the order of the loaded list,
    each at most once: in every run of [main] the accounts whose attempt was
    logged are, in this order, the first k accounts of the list, and k is
    the whole list when main returns. *)
Theorem accounts_attempted_in_order
        L o fuel tr private_keys config r tr' :
  load_accounts o tr = Ok private_keys ->
  Config_load o (EvLoadAccounts (Ok private_keys) :: tr) = Ok config ->
  main L o fuel tr = (r, tr') ->
  exists es k,
    tr' = es ++ tr /\
    attempts_logged es = map (from_key L) (firstn k private_keys) /\
    (r = Ret tt -> k = List.length private_keys).
Proof.
  intros Hload Hcfg H.
  rewrite (main_run _ _ _ _ _ _ Hload Hcfg) in H.
  destruct (main_loop L o fuel config (Z.of_nat (List.length private_keys)) 0
                      private_keys 0 (main_prologue private_keys config tr))
    as [rl trl] eqn:Hloop.
  apply main_loop_attempts_in_order in Hloop as (es & k & -> & Hlogs & Hk).
  destruct rl as [total|e|]; inversion H; subst; clear H.
  - exists (tally_log (Z.of_nat (List.length private_keys)) total
              ++ es
              ++ [EvLog INFO (MsgLoaded (Z.of_nat (List.length private_keys)));
                  EvLog INFO MsgStarting; EvConfigLoad (Ok config);
                  EvLoadAccounts (Ok private_keys)]), k.
    split; [unfold main_prologue; now rewrite <- !app_assoc|].
    split; [| intros _; eauto].
    rewrite !attempts_logged_app, Hlogs. unfold tally_log.
    destruct (Z.of_nat (List.length private_keys) - total =? 0);
      simpl; now rewrite app_nil_r.
  - exists (es ++ [EvLog INFO (MsgLoaded (Z.of_nat (List.length private_keys)));
                   EvLog INFO MsgStarting; EvConfigLoad (Ok config);
                   EvLoadAccounts (Ok private_keys)]), k.
    split; [unfold main_prologue; now rewrite <- !app_assoc|].
    split; [| discriminate].
    rewrite !attempts_logged_app, Hlogs. reflexivity.
  - exists (es ++ [EvLog INFO (MsgLoaded (Z.of_nat (List.length private_keys)));
                   EvLog INFO MsgStarting; EvConfigLoad (Ok config);
                   EvLoadAccounts (Ok private_keys)]), k.
    split; [unfold main_prologue; now rewrite <- !app_assoc|].
    split; [| discriminate].
    rewrite !attempts_logged_app, Hlogs. reflexivity.
Qed.

Lemma accounts_attempted_in_order_witness :
  let keys := [Scenario.key1; Scenario.key2; Scenario.key3] in
  let run := main Scenario.lib (Scenario.play Scenario.three_accounts) 3 [] in
  exists es k,
    snd run = es ++ [] /\
    attempts_logged es = map (from_key Scenario.lib) (firstn k keys) /\
    (fst run = Ret tt -> k = List.length keys).
Proof.
  intros keys run.
  apply (accounts_attempted_in_order Scenario.lib
           (Scenario.play Scenario.three_accounts) 3 [] keys Scenario.config
           (fst run) (snd run)).
  - reflexivity.
  - reflexivity.
  - vm_compute. reflexivity.
Defined.
